(** * Long-term memory for chat: storage, extraction, retrieval, orchestration

    A shallow embedding of [src/storage.py], [src/extractor.py],
    [src/retriever.py] and [src/memory_system.py], and the properties of
    the memory store, the relevance ranking, the extraction filter and the
    per-turn pipeline that the specification states about them.

    Layout: the Python and NumPy values the program handles, the SQLite
    table behind [MemoryStorage], the three classes built on it, and then
    the theorems. *)

From Stdlib Require Import ZArith List String Ascii Bool Lia Floats.
From Stdlib Require Import Permutation Sorted DecimalString.
From Stdlib.Strings Require Import Byte.
Import ListNotations.

Set Warnings "-register-all".

Open Scope string_scope.
Open Scope Z_scope.

(** ** Exceptions

    A Python call either returns or raises.  Only the exception classes
    the modelled code can meet are listed. *)

Inductive exn : Type :=
| KeyError
| TypeError
| ValueError
| AttributeError
| OverflowError
| OpenAIError.

Inductive result (A : Type) : Type :=
| Ok (a : A)
| Raise (e : exn).

Arguments Ok {A} a.
Arguments Raise {A} e.

Definition bind {A B : Type} (r : result A) (k : A -> result B) : result B :=
  match r with
  | Ok a => k a
  | Raise e => Raise e
  end.

Notation "x <- r ;; k" := (bind r (fun x => k))
  (at level 61, r at next level, right associativity).
Notation "' p <- r ;; k" := (bind r (fun p => k))
  (at level 61, p pattern, r at next level, right associativity).

(** A [for] loop or a comprehension whose body may raise: the first
    exception ends it. *)
Fixpoint mapM {A B : Type} (f : A -> result B) (l : list A) : result (list B) :=
  match l with
  | [] => Ok []
  | x :: t => y <- f x ;; ys <- mapM f t ;; Ok (y :: ys)
  end.

Fixpoint filterM {A : Type} (f : A -> result bool) (l : list A) : result (list A) :=
  match l with
  | [] => Ok []
  | x :: t =>
      b <- f x ;; ys <- filterM f t ;; Ok (if b then x :: ys else ys)
  end.

(** ** Python values

    The values that travel through [metadata] and through the candidate
    dictionaries decoded from the completion service.  A [dict] keeps its
    insertion order, so it is an association list; its keys are pairwise
    distinct.  Fractional numbers do not occur in the data model and are
    left out: what is stated of a value is stated of [None], booleans,
    integers, strings, lists, tuples and dictionaries. *)

Module Py.

Inductive key : Type :=
| KStr (s : string)
| KInt (z : Z).

Inductive val : Type :=
| PNone
| PBool (b : bool)
| PInt (z : Z)
| PStr (s : string)
| PList (l : list val)
| PTuple (l : list val)
| PDict (d : list (key * val)).

Definition key_eqb (a b : key) : bool :=
  match a, b with
  | KStr s, KStr t => String.eqb s t
  | KInt x, KInt y => Z.eqb x y
  | _, _ => false
  end.

(** [d.get(k, default)] *)
Fixpoint dict_get (d : list (key * val)) (k : key) (default : val) : val :=
  match d with
  | [] => default
  | (k', v) :: t => if key_eqb k' k then v else dict_get t k default
  end.

(** [d[k]] *)
Fixpoint dict_getitem (d : list (key * val)) (k : key) : result val :=
  match d with
  | [] => Raise KeyError
  | (k', v) :: t => if key_eqb k' k then Ok v else dict_getitem t k
  end.

(** [d[k] = v]: an existing key keeps its place, a new one goes last. *)
Fixpoint dict_set (d : list (key * val)) (k : key) (v : val) : list (key * val) :=
  match d with
  | [] => [(k, v)]
  | (k', v') :: t =>
      if key_eqb k' k then (k', v) :: t else (k', v') :: dict_set t k v
  end.

(** [v.get(k, default)] on an arbitrary value: only a [dict] has [get]. *)
Definition get (v : val) (k : string) (default : val) : result val :=
  match v with
  | PDict d => Ok (dict_get d (KStr k) default)
  | _ => Raise AttributeError
  end.

(** [v[k]] with a string key. *)
Definition getitem (v : val) (k : string) : result val :=
  match v with
  | PDict d => dict_getitem d (KStr k)
  | _ => Raise TypeError
  end.

(** [v >= n] for an [int] [n].  [bool] is a subclass of [int]; every other
    class in [val] refuses the comparison. *)
Definition ge_int (v : val) (n : Z) : result bool :=
  match v with
  | PInt z => Ok (n <=? z)
  | PBool b => Ok (n <=? (if b then 1 else 0))
  | _ => Raise TypeError
  end.

End Py.

(** ** JSON documents

    The [metadata] column holds the text [json.dumps] wrote and
    [json.loads] reads it back.  The text is represented by its syntax
    tree: printing and parsing belong to Python's [json] module, and what
    the program observes is how a Python value maps to a document and
    back.  A tuple is written as an array, a non-string key as its decimal
    string, and on reading a repeated member name overrides the earlier
    one. *)

Module Json.

Inductive doc : Type :=
| JNull
| JBool (b : bool)
| JNumber (z : Z)
| JString (s : string)
| JArray (l : list doc)
| JObject (members : list (string * doc)).

Definition key_text (k : Py.key) : string :=
  match k with
  | Py.KStr s => s
  | Py.KInt z => NilZero.string_of_int (Z.to_int z)
  end.

Fixpoint dumps (v : Py.val) : doc :=
  match v with
  | Py.PNone => JNull
  | Py.PBool b => JBool b
  | Py.PInt z => JNumber z
  | Py.PStr s => JString s
  | Py.PList l => JArray (map dumps l)
  | Py.PTuple l => JArray (map dumps l)
  | Py.PDict d => JObject (map (fun kv => (key_text (fst kv), dumps (snd kv))) d)
  end.

Fixpoint loads (j : doc) : Py.val :=
  match j with
  | JNull => Py.PNone
  | JBool b => Py.PBool b
  | JNumber z => Py.PInt z
  | JString s => Py.PStr s
  | JArray l => Py.PList (map loads l)
  | JObject ms =>
      Py.PDict
        (fold_left (fun d kv => Py.dict_set d (Py.KStr (fst kv)) (loads (snd kv)))
                   ms [])
  end.

Definition is_str_key (k : Py.key) : bool :=
  match k with Py.KStr _ => true | Py.KInt _ => false end.

Fixpoint distinct_keys (ks : list Py.key) : bool :=
  match ks with
  | [] => true
  | k :: t => negb (existsb (Py.key_eqb k) t) && distinct_keys t
  end.

(** The values JSON has a form for: no tuple anywhere, and every [dict]
    keyed by distinct strings. *)
Fixpoint native (v : Py.val) : bool :=
  match v with
  | Py.PNone | Py.PBool _ | Py.PInt _ | Py.PStr _ => true
  | Py.PList l => forallb native l
  | Py.PTuple _ => false
  | Py.PDict d =>
      forallb is_str_key (map fst d) && distinct_keys (map fst d)
      && forallb (fun kv => native (snd kv)) d
  end.

End Json.

(** ** NumPy arrays

    A one-dimensional array is a buffer of bytes read at an element type.
    [tobytes] hands out the buffer and forgets the element type;
    [frombuffer] reads a buffer at the element type it is told.  Element
    values are IEEE 754 numbers, little-endian in the buffer; they are
    carried as binary64, which holds every binary32 value exactly, and
    arithmetic on them is binary64 arithmetic.  NumPy computes in
    binary64 as soon as one operand is a [float64] array, which the
    query embedding is; where it works on [float32] operands alone it
    rounds to binary32, which can change the last digits of a similarity
    but not whether it is a zero, a NaN, or how two equal inputs
    compare. *)

Module Np.

Inductive dtype : Type := float32 | float64.

Definition itemsize (d : dtype) : nat :=
  match d with float32 => 4%nat | float64 => 8%nat end.

Record ndarray : Type := { dt : dtype; data : list byte }.

Definition size (a : ndarray) : nat :=
  (List.length (data a) / itemsize (dt a))%nat.

(** NumPy only builds arrays whose buffer is a whole number of elements. *)
Definition well_formed (a : ndarray) : bool :=
  (List.length (data a) mod itemsize (dt a) =? 0)%nat.

Definition is_float32 (a : ndarray) : bool :=
  match dt a with float32 => true | float64 => false end.

Definition tobytes (a : ndarray) : list byte := data a.

(** [np.frombuffer(b, dtype=d)] *)
Definition frombuffer (b : list byte) (d : dtype) : result ndarray :=
  if (List.length b mod itemsize d =? 0)%nat
  then Ok {| dt := d; data := b |}
  else Raise ValueError.

Definition byte_Z (b : byte) : Z := Z.of_N (Byte.to_N b).

(** Little-endian bytes to the unsigned integer they spell. *)
Fixpoint le_Z (bs : list byte) : Z :=
  match bs with
  | [] => 0
  | b :: t => byte_Z b + 256 * le_Z t
  end.

Definition scale (m e : Z) : float :=
  FloatOps.Z.ldexp (PrimFloat.of_uint63 (Uint63.of_Z m)) e.

Definition signed (s : bool) (x : float) : float :=
  if s then (- x)%float else x.

(** The number a bit pattern stands for, with [ew] exponent bits and [mw]
    fraction bits. *)
Definition decode (ew mw : Z) (w : Z) : float :=
  let s := Z.testbit w (ew + mw) in
  let e := Z.land (Z.shiftr w mw) (Z.ones ew) in
  let m := Z.land w (Z.ones mw) in
  let bias := Z.ones (ew - 1) in
  if e =? Z.ones ew then
    if m =? 0 then signed s infinity else nan
  else if e =? 0 then
    signed s (scale m (1 - bias - mw))
  else
    signed s (scale (m + Z.shiftl 1 mw) (e - bias - mw)).

Fixpoint values32 (bs : list byte) : list float :=
  match bs with
  | b0 :: b1 :: b2 :: b3 :: t => decode 8 23 (le_Z [b0; b1; b2; b3]) :: values32 t
  | _ => []
  end.

Fixpoint values64 (bs : list byte) : list float :=
  match bs with
  | b0 :: b1 :: b2 :: b3 :: b4 :: b5 :: b6 :: b7 :: t =>
      decode 11 52 (le_Z [b0; b1; b2; b3; b4; b5; b6; b7]) :: values64 t
  | _ => []
  end.

Definition values (a : ndarray) : list float :=
  match dt a with
  | float32 => values32 (data a)
  | float64 => values64 (data a)
  end.

(** The sum of products, accumulated from the left. *)
Definition sum_products (xs ys : list float) : float :=
  fold_left (fun acc p => (acc + fst p * snd p)%float) (combine xs ys) 0%float.

(** [np.dot(a, b)] on one-dimensional arrays: the lengths must agree. *)
Definition dot (a b : ndarray) : result float :=
  if (size a =? size b)%nat
  then Ok (sum_products (values a) (values b))
  else Raise ValueError.

(** [np.linalg.norm(a)]: the square root of [a . a]. *)
Definition norm (a : ndarray) : float :=
  PrimFloat.sqrt (sum_products (values a) (values a)).

(** The expression both ranking functions evaluate:
    [np.dot(q, e) / (np.linalg.norm(q) * np.linalg.norm(e))].  Dividing
    NumPy scalars never raises. *)
Definition cosine (q e : ndarray) : result float :=
  d <- dot q e ;;
  Ok (d / (norm q * norm e))%float.

(** Writing an array down: the bytes of a list of bit patterns. *)
Fixpoint le_bytes (n : nat) (w : Z) : list byte :=
  match n with
  | O => []
  | S n' =>
      match Byte.of_N (Z.to_N (w mod 256)) with
      | Some b => b :: le_bytes n' (w / 256)
      | None => []
      end
  end.

Definition of_bits (d : dtype) (ws : list Z) : ndarray :=
  {| dt := d; data := flat_map (le_bytes (itemsize d)) ws |}.

End Np.

(** ** Ordering lists

    SQLite's [ORDER BY] and Python's [list.sort] are both stable: elements
    the ordering does not separate keep the order they came in.  Both are
    rendered by one insertion sort. *)

Section Ordering.

Context {A : Type}.

(** [before a b]: [a] has to come strictly before [b]. *)
Variable before : A -> A -> bool.

(** [x] goes in front of the first element that does not have to precede
    it. *)
Fixpoint insert (x : A) (l : list A) : list A :=
  match l with
  | [] => [x]
  | y :: t => if before y x then y :: insert x t else x :: y :: t
  end.

Fixpoint stable_sort (l : list A) : list A :=
  match l with
  | [] => []
  | x :: t => insert x (stable_sort t)
  end.

(** [a] may stand in front of [b]: [b] does not have to precede it. *)
Definition not_after (a b : A) : Prop := before b a = false.

End Ordering.

(** [l.sort(key=key, reverse=True)] on floating-point keys.  CPython
    reverses the list, sorts it ascending with [<] on the keys and reverses
    the outcome, which keeps equal keys in their original order.  The
    result agrees with CPython's whenever [<] orders the keys, that is when
    no key is NaN; on that domain every stable sort computes the same
    list.  On a list of two a single comparison decides, and with a NaN
    key it is false, so the list stays as it is, here as in CPython. *)
Definition sort_reverse {A : Type} (key : A -> float) (l : list A) : list A :=
  rev (stable_sort (fun a b => (key a <? key b)%float) (rev l)).

(** [l[:n]] *)
Definition slice_to {A : Type} (n : Z) (l : list A) : list A :=
  if 0 <=? n then firstn (Z.to_nat n) l
  else firstn (List.length l - Z.to_nat (- n)) l.

(** ** Memory dictionaries

    The dictionaries the storage hands out and the retriever annotates.  A
    field of type [option] is [None] when the key is absent or holds
    Python's [None]; [similarity] is absent until a ranking sets it.
    Timestamps are SQLite's [CURRENT_TIMESTAMP] texts, which compare as
    the second they name, so they are integers here. *)

Module Memory.

Record t : Type := {
  id : Z;
  content : string;
  embedding : option Np.ndarray;
  similarity : option float;
  created_at : Z;
  updated_at : Z;
  metadata : option Py.val
}.

Definition set_similarity (m : t) (s : float) : t :=
  {| id := id m; content := content m; embedding := embedding m;
     similarity := Some s; created_at := created_at m;
     updated_at := updated_at m; metadata := metadata m |}.

(** The sort key [x['similarity']].  Both rankings set the key on every
    element before they sort. *)
Definition similarity_key (m : t) : float :=
  match similarity m with
  | Some s => s
  | None => nan
  end.

Definition has_similarity (m : t) : bool :=
  match similarity m with Some _ => true | None => false end.

(** [memories.sort(key=lambda x: x['similarity'], reverse=True)]; a
    dictionary without the key makes the key function raise before
    anything moves. *)
Definition sort_by_similarity (l : list t) : result (list t) :=
  if forallb has_similarity l
  then Ok (sort_reverse similarity_key l)
  else Raise KeyError.

End Memory.

(** ** SQLite's [LIKE]

    [%] stands for any run of characters, [_] for any single one, and
    ASCII letters match without regard to case.  Characters are bytes. *)

Module Sql.

Definition upper (c : ascii) : ascii :=
  let n := N_of_ascii c in
  if (97 <=? n)%N && (n <=? 122)%N then ascii_of_N (n - 32) else c.

Fixpoint like_chars (p : list ascii) : list ascii -> bool :=
  match p with
  | [] => fun s => match s with [] => true | _ :: _ => false end
  | c :: p' =>
      if Ascii.eqb c "%" then
        fix any (s : list ascii) : bool :=
          like_chars p' s
          || match s with [] => false | _ :: s' => any s' end
      else if Ascii.eqb c "_" then
        fun s => match s with [] => false | _ :: s' => like_chars p' s' end
      else
        fun s =>
          match s with
          | [] => false
          | d :: s' => Ascii.eqb (upper c) (upper d) && like_chars p' s'
          end
  end.

(** [text LIKE pattern] *)
Definition like (text pattern : string) : bool :=
  like_chars (list_ascii_of_string pattern) (list_ascii_of_string text).

(** [LIMIT n]: a negative [n] means no limit. *)
Definition limit {A : Type} (n : Z) (l : list A) : list A :=
  if n <? 0 then l else firstn (Z.to_nat n) l.

(** [LIKE] goes by characters: [_] stands for one UTF-8 character, and a
    text ends at its first NUL.  [like_chars] goes by bytes.  The two
    agree on texts of ASCII characters other than NUL, where a character
    is a byte. *)
Definition plain (c : ascii) : bool :=
  let n := N_of_ascii c in (0 <? n)%N && (n <? 128)%N.

Definition plain_text (s : string) : bool :=
  forallb plain (list_ascii_of_string s).

(** A Python [int] handed to a statement as a parameter becomes a signed
    64-bit INTEGER.  For one outside that range [sqlite3] raises
    [OverflowError], before the statement runs. *)
Definition int64 (z : Z) : bool := (- (2 ^ 63) <=? z) && (z <? 2 ^ 63).

Definition bind_int (z : Z) : result Z :=
  if int64 z then Ok z else Raise OverflowError.

End Sql.

(** ** [MemoryStorage]: the [memories] table

    The table is the list of its rows in rowid order, which is the order a
    scan without an index visits them, together with the counter
    [AUTOINCREMENT] keeps in [sqlite_sequence].  A statement that needs
    [CURRENT_TIMESTAMP] is given the current second as [now].

    The functions of this module are the statements with their
    parameters bound: an id or a limit is an integer SQLite holds.
    [StorageCall], further down, has the call from the binding on. *)

Module Row.

Record t : Type := {
  id : Z;
  content : string;
  embedding : option (list byte);
  created_at : Z;
  updated_at : Z;
  metadata : option Json.doc
}.

End Row.

Module MemoryStorage.

Record db : Type := { rows : list Row.t; seq : Z }.

(** [_initialize_db] on a fresh file. *)
Definition empty : db := {| rows := []; seq := 0 |}.

Definition max_rowid (rs : list Row.t) : Z :=
  fold_right (fun r acc => Z.max (Row.id r) acc) 0 rs.

(** The rowid [AUTOINCREMENT] picks: one more than the largest rowid the
    table has ever held. *)
Definition next_id (d : db) : Z := Z.max (seq d) (max_rowid (rows d)) + 1.

(** The dictionary built from a fetched row, as [get_memory],
    [search_by_content] and [get_all_memories] build it. *)
Definition memory_of_row (r : Row.t) : result Memory.t :=
  e <- match Row.embedding r with
       | None => Ok None
       | Some b => a <- Np.frombuffer b Np.float32 ;; Ok (Some a)
       end ;;
  Ok {| Memory.id := Row.id r;
        Memory.content := Row.content r;
        Memory.embedding := e;
        Memory.similarity := None;
        Memory.created_at := Row.created_at r;
        Memory.updated_at := Row.updated_at r;
        Memory.metadata := option_map Json.loads (Row.metadata r) |}.

(** [ORDER BY created_at DESC]: the rows of the scan, later [created_at]
    first.  The statement names no second column; SQLite's sorter leaves
    rows with equal [created_at] in scan order. *)
Definition order_by_created_at_desc (rs : list Row.t) : list Row.t :=
  stable_sort (fun a b => Row.created_at b <? Row.created_at a) rs.

Definition add_memory (now : Z) (content : string)
    (embedding : option Np.ndarray) (metadata : option Py.val) (d : db)
  : Z * db :=
  let embedding_bytes := option_map Np.tobytes embedding in
  let metadata_json := option_map Json.dumps metadata in
  let i := next_id d in
  (i, {| rows := rows d ++ [ {| Row.id := i;
                                Row.content := content;
                                Row.embedding := embedding_bytes;
                                Row.created_at := now;
                                Row.updated_at := now;
                                Row.metadata := metadata_json |} ];
         seq := i |}).

Definition get_memory (memory_id : Z) (d : db) : result (option Memory.t) :=
  match find (fun r => Row.id r =? memory_id) (rows d) with
  | None => Ok None
  | Some r => m <- memory_of_row r ;; Ok (Some m)
  end.

Definition has_embedding (r : Row.t) : bool :=
  match Row.embedding r with Some _ => true | None => false end.

(** One turn of the loop in [find_similar_memories]. *)
Definition similar_of_row (query_embedding : Np.ndarray) (r : Row.t)
  : result Memory.t :=
  match Row.embedding r with
  | None => Raise TypeError
  | Some b =>
      memory_embedding <- Np.frombuffer b Np.float32 ;;
      similarity <- Np.cosine query_embedding memory_embedding ;;
      Ok {| Memory.id := Row.id r;
            Memory.content := Row.content r;
            Memory.embedding := Some memory_embedding;
            Memory.similarity := Some similarity;
            Memory.created_at := Row.created_at r;
            Memory.updated_at := Row.updated_at r;
            Memory.metadata := option_map Json.loads (Row.metadata r) |}
  end.

Definition find_similar_memories (query_embedding : Np.ndarray) (limit : Z)
    (d : db) : result (list Memory.t) :=
  memories <- mapM (similar_of_row query_embedding)
                   (filter has_embedding (rows d)) ;;
  sorted <- Memory.sort_by_similarity memories ;;
  Ok (slice_to limit sorted).

Definition search_by_content (query : string) (limit : Z) (d : db)
  : result (list Memory.t) :=
  let pattern := "%" ++ query ++ "%" in
  mapM memory_of_row
    (Sql.limit limit
       (order_by_created_at_desc
          (filter (fun r => Sql.like (Row.content r) pattern) (rows d)))).

Definition set_content (c : option string) (r : Row.t) : Row.t :=
  match c with
  | None => r
  | Some c' =>
      {| Row.id := Row.id r; Row.content := c';
         Row.embedding := Row.embedding r;
         Row.created_at := Row.created_at r;
         Row.updated_at := Row.updated_at r;
         Row.metadata := Row.metadata r |}
  end.

Definition set_embedding (e : option Np.ndarray) (r : Row.t) : Row.t :=
  match e with
  | None => r
  | Some a =>
      {| Row.id := Row.id r; Row.content := Row.content r;
         Row.embedding := Some (Np.tobytes a);
         Row.created_at := Row.created_at r;
         Row.updated_at := Row.updated_at r;
         Row.metadata := Row.metadata r |}
  end.

Definition set_metadata (m : option Py.val) (r : Row.t) : Row.t :=
  match m with
  | None => r
  | Some v =>
      {| Row.id := Row.id r; Row.content := Row.content r;
         Row.embedding := Row.embedding r;
         Row.created_at := Row.created_at r;
         Row.updated_at := Row.updated_at r;
         Row.metadata := Some (Json.dumps v) |}
  end.

Definition set_updated_at (now : Z) (r : Row.t) : Row.t :=
  {| Row.id := Row.id r; Row.content := Row.content r;
     Row.embedding := Row.embedding r;
     Row.created_at := Row.created_at r;
     Row.updated_at := now;
     Row.metadata := Row.metadata r |}.

Definition is_none {A : Type} (o : option A) : bool :=
  match o with None => true | Some _ => false end.

Definition update_memory (now : Z) (memory_id : Z) (content : option string)
    (embedding : option Np.ndarray) (metadata : option Py.val) (d : db)
  : bool * db :=
  match find (fun r => Row.id r =? memory_id) (rows d) with
  | None => (false, d)
  | Some _ =>
      if is_none content && is_none embedding && is_none metadata
      then (true, d)
      else
        (true,
         {| rows :=
              map (fun r =>
                     if Row.id r =? memory_id
                     then set_updated_at now
                            (set_metadata metadata
                               (set_embedding embedding
                                  (set_content content r)))
                     else r)
                  (rows d);
            seq := seq d |})
  end.

(** [DELETE FROM memories WHERE id = ?]; the result is [rowcount > 0]. *)
Definition delete_memory (memory_id : Z) (d : db) : bool * db :=
  (existsb (fun r => Row.id r =? memory_id) (rows d),
   {| rows := filter (fun r => negb (Row.id r =? memory_id)) (rows d);
      seq := seq d |}).

Definition get_all_memories (d : db) : result (list Memory.t) :=
  mapM memory_of_row (order_by_created_at_desc (rows d)).

Definition ids (d : db) : list Z := map Row.id (rows d).

End MemoryStorage.

(** ** A call of a [MemoryStorage] method

    [MemoryStorage] above has what each statement does to the table once
    its parameters are bound.  A call binds them first.  The id of
    [get_memory], [update_memory] and [delete_memory] and the limit of
    [search_by_content] are Python [int]s: one that SQLite cannot hold
    makes the call raise [OverflowError], and the table stays as it
    was. *)

Module StorageCall.

Definition get_memory (memory_id : Z) (d : MemoryStorage.db)
  : result (option Memory.t) :=
  i <- Sql.bind_int memory_id ;;
  MemoryStorage.get_memory i d.

Definition search_by_content (query : string) (limit : Z)
    (d : MemoryStorage.db) : result (list Memory.t) :=
  n <- Sql.bind_int limit ;;
  MemoryStorage.search_by_content query n d.

Definition update_memory (now : Z) (memory_id : Z) (content : option string)
    (embedding : option Np.ndarray) (metadata : option Py.val)
    (d : MemoryStorage.db) : result (bool * MemoryStorage.db) :=
  i <- Sql.bind_int memory_id ;;
  Ok (MemoryStorage.update_memory now i content embedding metadata d).

Definition delete_memory (memory_id : Z) (d : MemoryStorage.db)
  : result (bool * MemoryStorage.db) :=
  i <- Sql.bind_int memory_id ;;
  Ok (MemoryStorage.delete_memory i d).

End StorageCall.

(** ** [OpenAIClient]: the services

    The embedding and completion services are outside the program.  A
    client is whatever answers the three calls the memory system makes;
    an answer is a value or an exception that the caller lets through. *)

Module Message.

Record t : Type := { role : string; content : string }.

End Message.

Module OpenAIClient.

Record t : Type := {
  get_embedding : string -> result Np.ndarray;
  extract_memories : list Message.t -> result (list Py.val);
  identify_memories_to_delete :
    list Message.t -> list Memory.t -> result (list Z)
}.

End OpenAIClient.

(** ** [MemoryExtractor] *)

Module MemoryExtractor.

(** [memory.get('importance', 0) >= threshold] *)
Definition should_store_memory (memory : Py.val) (threshold : Z)
  : result bool :=
  importance <- Py.get memory "importance" (Py.PInt 0) ;;
  Py.ge_int importance threshold.

Definition extract_memories (openai_client : OpenAIClient.t)
    (conversation : list Message.t) (importance_threshold : Z)
  : result (list Py.val) :=
  potential_memories <-
    OpenAIClient.extract_memories openai_client conversation ;;
  filterM (fun memory => should_store_memory memory importance_threshold)
          potential_memories.

End MemoryExtractor.

(** ** [MemoryRetriever] *)

Module MemoryRetriever.

(** The body of the loop: the dictionary with its [similarity] set. *)
Definition annotate (query_embedding : Np.ndarray) (memory : Memory.t)
  : result Memory.t :=
  match Memory.embedding memory with
  | Some memory_embedding =>
      similarity <- Np.cosine query_embedding memory_embedding ;;
      Ok (Memory.set_similarity memory similarity)
  | None => Ok (Memory.set_similarity memory 0%float)
  end.

(** [memories] is the caller's list object: the loop writes into its
    dictionaries and [sort] reorders it in place.  The first component is
    the value returned, the second what the caller's list holds when the
    call returns. *)
Definition retrieve_relevant_memories (openai_client : OpenAIClient.t)
    (query : string) (memories : list Memory.t) (limit : Z)
  : result (list Memory.t * list Memory.t) :=
  query_embedding <- OpenAIClient.get_embedding openai_client query ;;
  annotated <- mapM (annotate query_embedding) memories ;;
  sorted <- Memory.sort_by_similarity annotated ;;
  Ok (slice_to limit sorted, sorted).

End MemoryRetriever.

(** ** [MemorySystem] *)

Module MemorySystem.

Record new_memory : Type := {
  id : Z;
  content : string;
  metadata : Py.val
}.

Record processed : Type := {
  new_memories : list new_memory;
  deleted_memories : list Z;
  relevant_memories : list Memory.t
}.

(** The text handed to the embedding service has to be a string. *)
Definition text_of (v : Py.val) : result string :=
  match v with
  | Py.PStr s => Ok s
  | _ => Raise OpenAIError
  end.

(** The extraction loop.  [clock k] is the second in which the [k]-th
    insertion of the call runs. *)
Fixpoint store_extracted (openai_client : OpenAIClient.t) (clock : nat -> Z)
    (k : nat) (memories : list Py.val) (d : MemoryStorage.db)
  : result (list new_memory * MemoryStorage.db) :=
  match memories with
  | [] => Ok ([], d)
  | memory :: rest =>
      c <- Py.getitem memory "content" ;;
      text <- text_of c ;;
      embedding <- OpenAIClient.get_embedding openai_client text ;;
      importance <- Py.get memory "importance" (Py.PInt 5) ;;
      category <- Py.get memory "category" (Py.PStr "general") ;;
      entities <- Py.get memory "entities" (Py.PList []) ;;
      let meta :=
        Py.PDict [ (Py.KStr "importance", importance);
                   (Py.KStr "category", category);
                   (Py.KStr "entities", entities) ] in
      let '(memory_id, d') :=
        MemoryStorage.add_memory (clock k) text (Some embedding) (Some meta) d in
      '(news, d'') <- store_extracted openai_client clock (S k) rest d' ;;
      Ok ({| id := memory_id; content := text; metadata := meta |} :: news,
          d'')
  end.

(** The deletion loop: an id is recorded when [delete_memory] reports a
    removed row.  An id that cannot be bound ends the loop with
    [OverflowError]. *)
Fixpoint delete_each (memory_ids_to_delete : list Z) (d : MemoryStorage.db)
  : result (list Z * MemoryStorage.db) :=
  match memory_ids_to_delete with
  | [] => Ok ([], d)
  | memory_id :: rest =>
      '(removed, d') <- StorageCall.delete_memory memory_id d ;;
      '(deleted, d'') <- delete_each rest d' ;;
      Ok (if removed then memory_id :: deleted else deleted, d'')
  end.

(** The content of the last message whose role is [user]. *)
Definition last_user_message (conversation : list Message.t)
  : option string :=
  option_map Message.content
    (find (fun message => String.eqb (Message.role message) "user")
          (rev conversation)).

Definition extraction_step (openai_client : OpenAIClient.t)
    (clock : nat -> Z) (conversation : list Message.t)
    (extract_memories : bool) (d : MemoryStorage.db)
  : result (list new_memory * MemoryStorage.db) :=
  if extract_memories then
    memories <-
      MemoryExtractor.extract_memories openai_client conversation 5 ;;
    store_extracted openai_client clock 0 memories d
  else Ok ([], d).

Definition deletion_step (openai_client : OpenAIClient.t)
    (conversation : list Message.t) (check_for_deletions : bool)
    (d : MemoryStorage.db) : result (list Z * MemoryStorage.db) :=
  if check_for_deletions then
    all_memories <- MemoryStorage.get_all_memories d ;;
    memory_ids_to_delete <-
      OpenAIClient.identify_memories_to_delete openai_client conversation
        all_memories ;;
    match memory_ids_to_delete with
    | [] => Ok ([], d)
    | _ :: _ => delete_each memory_ids_to_delete d
    end
  else Ok ([], d).

Definition relevance_step (openai_client : OpenAIClient.t)
    (conversation : list Message.t) (d : MemoryStorage.db)
  : result (list Memory.t) :=
  match conversation with
  | [] => Ok []
  | _ :: _ =>
      match last_user_message conversation with
      | None => Ok []
      | Some text =>
          if String.eqb text "" then Ok []
          else
            all_memories <- MemoryStorage.get_all_memories d ;;
            '(relevant, _) <-
              MemoryRetriever.retrieve_relevant_memories openai_client text
                all_memories 5 ;;
            Ok relevant
      end
  end.

(** The three steps in the order the method runs them.  The result comes
    with the table as the call leaves it. *)
Definition process_conversation (openai_client : OpenAIClient.t)
    (clock : nat -> Z) (conversation : list Message.t)
    (extract_memories check_for_deletions : bool) (d : MemoryStorage.db)
  : result (processed * MemoryStorage.db) :=
  '(new, d1) <-
    extraction_step openai_client clock conversation extract_memories d ;;
  '(deleted, d2) <-
    deletion_step openai_client conversation check_for_deletions d1 ;;
  relevant <- relevance_step openai_client conversation d2 ;;
  Ok ({| new_memories := new;
         deleted_memories := deleted;
         relevant_memories := relevant |}, d2).

Definition get_relevant_memories (openai_client : OpenAIClient.t)
    (query : string) (limit : Z) (d : MemoryStorage.db)
  : result (list Memory.t) :=
  all_memories <- MemoryStorage.get_all_memories d ;;
  '(relevant, _) <-
    MemoryRetriever.retrieve_relevant_memories openai_client query
      all_memories limit ;;
  Ok relevant.

Definition add_memory (openai_client : OpenAIClient.t) (now : Z)
    (content : string) (metadata : option Py.val) (d : MemoryStorage.db)
  : result (Z * MemoryStorage.db) :=
  embedding <- OpenAIClient.get_embedding openai_client content ;;
  Ok (MemoryStorage.add_memory now content (Some embedding) metadata d).

End MemorySystem.

(** * Notions the statements use *)

(** ** Candidates as the specification types them

    A candidate is a dictionary; its [importance], when it has one, is an
    integer.  The filter the specification describes keeps a candidate
    when its score reaches the threshold, a candidate without a score
    counting as 0. *)

Module Candidate.

Definition score (c : Py.val) : option Z :=
  match Py.getitem c "importance" with
  | Ok (Py.PInt z) => Some z
  | _ => None
  end.

Definition typed (c : Py.val) : bool :=
  match c with
  | Py.PDict d =>
      match Py.dict_getitem d (Py.KStr "importance") with
      | Ok (Py.PInt _) => true
      | Ok _ => false
      | Raise _ => true
      end
  | _ => false
  end.

Definition spec_keep (threshold : Z) (c : Py.val) : bool :=
  match score c with
  | Some z => threshold <=? z
  | None => threshold <=? 0
  end.

End Candidate.

(** ** Well-formed arguments of the store

    The data model has embeddings as vectors of [float32], and metadata
    as a mapping of strings to integers, strings and lists of strings. *)

Module WellFormed.

Definition embedding (e : option Np.ndarray) : bool :=
  match e with
  | None => true
  | Some a => Np.is_float32 a && Np.well_formed a
  end.

Definition metadata (m : option Py.val) : bool :=
  match m with
  | None => true
  | Some v => Json.native v
  end.

(** Any NumPy array, of either element type. *)
Definition array (e : option Np.ndarray) : bool :=
  match e with
  | None => true
  | Some a => Np.well_formed a
  end.

End WellFormed.

(** ** Orders on ranked and listed records *)

Module Ranked.

(** No earlier entry has a smaller similarity than a later one. *)
Definition by_similarity (l : list Memory.t) : Prop :=
  StronglySorted
    (fun a b =>
       (Memory.similarity_key b <=? Memory.similarity_key a)%float = true) l.

(** Of two entries with equal similarity the earlier one is not older. *)
Definition ties_recent_first (l : list Memory.t) : Prop :=
  StronglySorted
    (fun a b =>
       (Memory.similarity_key a =? Memory.similarity_key b)%float = true ->
       Memory.created_at b <= Memory.created_at a) l.

(** Entries with equal similarity stand in [l] in the order they have in
    [l0]. *)
Definition ties_as_in (l0 l : list Memory.t) : Prop :=
  forall k : float,
    filter (fun m => (Memory.similarity_key m =? k)%float) l
    = filter (fun m => (Memory.similarity_key m =? k)%float) l0.

Definition no_nan (l : list Memory.t) : Prop :=
  Forall (fun m => PrimFloat.is_nan (Memory.similarity_key m) = false) l.

(** Later [created_at] first. *)
Definition recent_first (l : list Memory.t) : Prop :=
  StronglySorted (fun a b => Memory.created_at b <= Memory.created_at a) l.

(** Among equal [created_at], larger id first. *)
Definition created_ties_by_id_desc (l : list Memory.t) : Prop :=
  StronglySorted
    (fun a b => Memory.created_at a = Memory.created_at b ->
                Memory.id b <= Memory.id a) l.

End Ranked.

(** ** Zero vectors *)

Module Zero.

(** Every element is [0.0] or [-0.0]. *)
Definition vector (a : Np.ndarray) : bool :=
  forallb PrimFloat.is_zero (Np.values a).

(** A zero of either sign, or NaN: what sums and products of zeros can
    be. *)
Definition or_nan (x : float) : Prop :=
  match Prim2SF x with
  | S754_zero _ | S754_nan => True
  | _ => False
  end.

End Zero.

(** ** Sample data *)

Module Sample.

Definition client (embed : string -> result Np.ndarray)
    (candidates : list Py.val) (deletions : list Z) : OpenAIClient.t :=
  {| OpenAIClient.get_embedding := embed;
     OpenAIClient.extract_memories := fun _ => Ok candidates;
     OpenAIClient.identify_memories_to_delete := fun _ _ => Ok deletions |}.

Definition candidate (text : string) (importance : option Z) : Py.val :=
  Py.PDict
    ((Py.KStr "content", Py.PStr text)
     :: match importance with
        | Some z => [(Py.KStr "importance", Py.PInt z)]
        | None => []
        end).

Definition candidates : list Py.val :=
  [ candidate "had soup" (Some 4);
    candidate "likes tea" (Some 5);
    candidate "owns a bike" None ].

(** A table with one memory, added at second 100 without embedding or
    metadata, and the dictionary [get_memory 1] builds from it. *)
Definition one_memory : MemoryStorage.db :=
  snd (MemoryStorage.add_memory 100 "Original content" None None
         MemoryStorage.empty).

Definition original : Memory.t :=
  {| Memory.id := 1; Memory.content := "Original content";
     Memory.embedding := None; Memory.similarity := None;
     Memory.created_at := 100; Memory.updated_at := 100;
     Memory.metadata := None |}.

(** Two memories with [float32] embeddings [(1, 0)] and [(0, 1)], added
    at seconds 100 and 200. *)
Definition two_memories : MemoryStorage.db :=
  snd (MemoryStorage.add_memory 200 "I like apples"
         (Some (Np.of_bits Np.float32 [0; 0x3f800000])) None
         (snd (MemoryStorage.add_memory 100
                 "I use Shram and Magnet as productivity tools"
                 (Some (Np.of_bits Np.float32 [0x3f800000; 0]))
                 (Some (Py.PDict [(Py.KStr "importance", Py.PInt 8)]))
                 MemoryStorage.empty))).

Definition listing : list Memory.t :=
  Eval vm_compute in
    match MemoryStorage.get_all_memories two_memories with
    | Ok l => l
    | Raise _ => []
    end.

(** The three memories of [test_get_all_memories], added one after the
    other within the same second. *)
Definition three_memories : MemoryStorage.db :=
  snd (MemoryStorage.add_memory 100 "Memory 3" None None
    (snd (MemoryStorage.add_memory 100 "Memory 2" None None
      (snd (MemoryStorage.add_memory 100 "Memory 1" None None
              MemoryStorage.empty))))).

(** Two memories with the same embedding [(1, 0)], added at seconds 100
    and 200, and the query vector [(1, 1)]. *)
Definition twins : MemoryStorage.db :=
  snd (MemoryStorage.add_memory 200 "I like pears"
         (Some (Np.of_bits Np.float32 [0x3f800000; 0])) None
         (snd (MemoryStorage.add_memory 100 "I like apples"
                 (Some (Np.of_bits Np.float32 [0x3f800000; 0])) None
                 MemoryStorage.empty))).

Definition query_vector : Np.ndarray :=
  Np.of_bits Np.float64 [0x3ff0000000000000; 0x3ff0000000000000].

(** A record whose embedding is the [float32] zero vector. *)
Definition blank : Memory.t :=
  {| Memory.id := 3; Memory.content := "blank";
     Memory.embedding := Some (Np.of_bits Np.float32 [0; 0]);
     Memory.similarity := None;
     Memory.created_at := 300; Memory.updated_at := 300;
     Memory.metadata := None |}.

(** A record whose embedding [(-1, 0)] points away from the query. *)
Definition opposed : Memory.t :=
  {| Memory.id := 4; Memory.content := "opposed";
     Memory.embedding := Some (Np.of_bits Np.float32 [0xbf800000; 0]);
     Memory.similarity := None;
     Memory.created_at := 400; Memory.updated_at := 400;
     Memory.metadata := None |}.

(** A caller's list of two records without embedding, the older one
    first. *)
Definition older : Memory.t :=
  {| Memory.id := 1; Memory.content := "older";
     Memory.embedding := None; Memory.similarity := None;
     Memory.created_at := 100; Memory.updated_at := 100;
     Memory.metadata := None |}.

Definition newer : Memory.t :=
  {| Memory.id := 2; Memory.content := "newer";
     Memory.embedding := None; Memory.similarity := None;
     Memory.created_at := 200; Memory.updated_at := 200;
     Memory.metadata := None |}.

(** A turn in which the user retires the first memory.  The services
    embed every text as the [float64] vector [(1, 1)], extract nothing
    and ask for memories 1 and 99 to be deleted; there is no memory 99. *)
Definition turn : list Message.t :=
  [ {| Message.role := "user";
       Message.content := "I don't use Magnet anymore" |} ].

Definition services : OpenAIClient.t :=
  client
    (fun _ => Ok (Np.of_bits Np.float64
                    [0x3ff0000000000000; 0x3ff0000000000000]))
    [] [1; 99].

(** The ranking of [listing] for those services, and the scored rows
    [find_similar_memories] sorts for [twins]. *)
Definition ranking : list Memory.t * list Memory.t :=
  Eval vm_compute in
    match MemoryRetriever.retrieve_relevant_memories services "fruit"
            listing 1 with
    | Ok x => x
    | Raise _ => ([], [])
    end.

Definition scored : list Memory.t :=
  Eval vm_compute in
    match mapM (MemoryStorage.similar_of_row query_vector)
               (filter MemoryStorage.has_embedding (MemoryStorage.rows twins)) with
    | Ok l => l
    | Raise _ => []
    end.


Definition outcome : MemorySystem.processed * MemoryStorage.db :=
  Eval vm_compute in
    match MemorySystem.process_conversation services (fun _ => 300) turn
            false true two_memories with
    | Ok x => x
    | Raise _ =>
        ({| MemorySystem.new_memories := [];
            MemorySystem.deleted_memories := [];
            MemorySystem.relevant_memories := [] |}, MemoryStorage.empty)
    end.

End Sample.

(** * The rest of the program *)

(** ** Python strings: [find], [rfind], slices, [join] *)

Module Str.

Definition newline : string := String (ascii_of_nat 10) EmptyString.

(** [s.find(c)] for a one-character [c]: the first index, or -1. *)
Fixpoint find (c : ascii) (s : string) : Z :=
  match s with
  | EmptyString => -1
  | String d t =>
      if Ascii.eqb d c then 0
      else let r := find c t in if r =? -1 then -1 else r + 1
  end.

(** [s.rfind(c)]: the last index, or -1. *)
Fixpoint rfind (c : ascii) (s : string) : Z :=
  match s with
  | EmptyString => -1
  | String d t =>
      let r := rfind c t in
      if r =? -1 then (if Ascii.eqb d c then 0 else -1) else r + 1
  end.

(** A slice bound brought into [0 .. len]: a negative one counts from
    the end. *)
Definition clamp (len i : Z) : Z :=
  if i <? 0 then Z.max (i + len) 0 else Z.min i len.

Fixpoint drop (n : nat) (s : string) : string :=
  match n, s with
  | O, _ => s
  | S n', String _ t => drop n' t
  | S _, EmptyString => EmptyString
  end.

Fixpoint take (n : nat) (s : string) : string :=
  match n, s with
  | S n', String c t => String c (take n' t)
  | _, _ => EmptyString
  end.

(** [s[start:stop]] *)
Definition slice (s : string) (start stop : Z) : string :=
  let len := Z.of_nat (String.length s) in
  let a := clamp len start in
  let b := clamp len stop in
  take (Z.to_nat (b - a)) (drop (Z.to_nat a) s).

(** [sep.join(items)] *)
Fixpoint join (sep : string) (items : list string) : string :=
  match items with
  | [] => ""
  | [x] => x
  | x :: t => x ++ sep ++ join sep t
  end.

(** [s.split(sep)] for a one-character [sep]. *)
Fixpoint split (sep : ascii) (s : string) : list string :=
  match s with
  | EmptyString => [""]
  | String c t =>
      if Ascii.eqb c sep then "" :: split sep t
      else match split sep t with
           | [] => [String c ""]
           | x :: rest => String c x :: rest
           end
  end.

Fixpoint contains (c : ascii) (s : string) : bool :=
  match s with
  | EmptyString => false
  | String d t => Ascii.eqb d c || contains c t
  end.

End Str.

(** ** [MemoryRetriever.format_memories_for_context] *)

Module MemoryRetrieverContext.

Definition format_memories_for_context (memories : list Memory.t) : string :=
  match memories with
  | [] => "No relevant memories found."
  | _ :: _ =>
      "Relevant memories:" ++ Str.newline
      ++ Str.join Str.newline
           (map (fun memory => "- " ++ Memory.content memory) memories)
  end.

End MemoryRetrieverContext.

(** ** [MemorySystem.chat_with_memory] and the pass-through methods

    [chat_completion] is the fourth service call; it is given the
    messages, the model name, the temperature and the token limit. *)

Module MemorySystemChat.

Record chat : Type := {
  response : string;
  relevant_memories : list Memory.t;
  new_memories : list MemorySystem.new_memory;
  deleted_memories : list Z
}.

Definition preamble : string :=
  "You are a helpful assistant with access to the user's long-term memories. Use the following memories to inform your responses:"
  ++ Str.newline ++ Str.newline.

Definition system_message (relevant : list Memory.t) : Message.t :=
  {| Message.role := "system";
     Message.content :=
       preamble ++ MemoryRetrieverContext.format_memories_for_context relevant |}.

Definition chat_with_memory (openai_client : OpenAIClient.t)
    (chat_completion : list Message.t -> string -> float -> Z -> result string)
    (clock : nat -> Z) (conversation : list Message.t)
    (model : string) (temperature : float) (max_tokens : Z)
    (d : MemoryStorage.db) : result (chat * MemoryStorage.db) :=
  '(process_result, d') <-
    MemorySystem.process_conversation openai_client clock conversation
      true true d ;;
  let relevant := MemorySystem.relevant_memories process_result in
  let conversation_with_memory := system_message relevant :: conversation in
  answer <- chat_completion conversation_with_memory model temperature
              max_tokens ;;
  Ok ({| response := answer;
         relevant_memories := relevant;
         new_memories := MemorySystem.new_memories process_result;
         deleted_memories := MemorySystem.deleted_memories process_result |},
      d').

Definition delete_memory (memory_id : Z) (d : MemoryStorage.db)
  : result (bool * MemoryStorage.db) :=
  StorageCall.delete_memory memory_id d.

Definition get_all_memories (d : MemoryStorage.db) : result (list Memory.t) :=
  MemoryStorage.get_all_memories d.

Definition get_memory (memory_id : Z) (d : MemoryStorage.db)
  : result (option Memory.t) :=
  StorageCall.get_memory memory_id d.

End MemorySystemChat.

(** ** [OpenAIClient]: reading the completion

    [extract_memories] and [identify_memories_to_delete] send two
    messages and read the answer as JSON.  The request
    ([ChatCompletion.create] down to the text of the first choice), the
    JSON parser on text ([None] for [JSONDecodeError]) and the two prompt
    texts are taken as given. *)

Section Completion.

Variable create : string -> list Message.t -> float -> result string.
Variable json_loads : string -> option Py.val.
Variable extraction_prompt deletion_prompt : string.

(** The [try]/[except] both methods end with: the text as JSON; failing
    that, the text from the first opening bracket through the last
    closing one; failing that, the empty list. *)
Definition read_json_array (content : string) : Py.val :=
  match json_loads content with
  | Some memories => memories
  | None =>
      let start_idx := Str.find "[" content in
      let end_idx := Str.rfind "]" content + 1 in
      if negb (start_idx =? -1) && negb (end_idx =? -1) then
        match json_loads (Str.slice content start_idx end_idx) with
        | Some memories => memories
        | None => Py.PList []
        end
      else Py.PList []
  end.

Definition format_conversation (conversation : list Message.t) : string :=
  Str.join Str.newline
    (map (fun msg => Message.role msg ++ ": " ++ Message.content msg)
         conversation).

Definition client_extract_memories (conversation : list Message.t)
    (model : string) : result Py.val :=
  let formatted_conversation := format_conversation conversation in
  content <-
    create model
      [ {| Message.role := "system"; Message.content := extraction_prompt |};
        {| Message.role := "user"; Message.content := formatted_conversation |} ]
      0x1.3333333333333p-2%float ;;
  Ok (read_json_array content).

Definition format_memory_line (memory : Memory.t) : string :=
  "ID: " ++ NilZero.string_of_int (Z.to_int (Memory.id memory))
  ++ ", Content: " ++ Memory.content memory.

Definition client_identify_memories_to_delete
    (conversation : list Message.t) (memories : list Memory.t)
    (model : string) : result Py.val :=
  let formatted_conversation := format_conversation conversation in
  let formatted_memories_str :=
    Str.join Str.newline (map format_memory_line memories) in
  let full_prompt :=
    deletion_prompt ++ Str.newline ++ Str.newline ++ "Conversation:"
    ++ Str.newline ++ formatted_conversation ++ Str.newline ++ Str.newline
    ++ "Memories:" ++ Str.newline ++ formatted_memories_str in
  content <-
    create model
      [ {| Message.role := "system"; Message.content := deletion_prompt |};
        {| Message.role := "user"; Message.content := full_prompt |} ]
      0x1.3333333333333p-2%float ;;
  Ok (read_json_array content).

End Completion.

(** ** Histories of the store

    The operations a user of [MemoryStorage] can apply, and the table
    and the ids handed out after a sequence of them. *)

Module Store.

Inductive op : Type :=
| Add (now : Z) (content : string) (embedding : option Np.ndarray)
      (metadata : option Py.val)
| Update (now memory_id : Z) (content : option string)
         (embedding : option Np.ndarray) (metadata : option Py.val)
| Delete (memory_id : Z).

(** The arrays an operation carries are [float32] or [float64] arrays,
    the two element types of [Np.dtype]. *)
Definition well_formed (o : op) : bool :=
  match o with
  | Add _ _ e _ => WellFormed.array e
  | Update _ _ _ e _ => WellFormed.array e
  | Delete _ => true
  end.

Definition step (o : op) (d : MemoryStorage.db) : MemoryStorage.db * list Z :=
  match o with
  | Add now c e m =>
      let '(i, d') := MemoryStorage.add_memory now c e m d in (d', [i])
  | Update now i c e m => (snd (MemoryStorage.update_memory now i c e m d), [])
  | Delete i => (snd (MemoryStorage.delete_memory i d), [])
  end.

Fixpoint run (ops : list op) (d : MemoryStorage.db)
  : MemoryStorage.db * list Z :=
  match ops with
  | [] => (d, [])
  | o :: rest =>
      let '(d1, issued) := step o d in
      let '(d2, issued') := run rest d1 in
      (d2, (issued ++ issued')%list)
  end.

(** Rowids grow along the table, are positive and do not exceed the
    [AUTOINCREMENT] counter. *)
Definition invariant (d : MemoryStorage.db) : Prop :=
  StronglySorted Z.lt (MemoryStorage.ids d)
  /\ Forall (fun i => 0 < i <= MemoryStorage.seq d) (MemoryStorage.ids d)
  /\ 0 <= MemoryStorage.seq d.


End Store.

(** ** More notions for the statements *)

Module Candidate2.

(** A candidate the filter can decide: a dictionary whose importance is
    absent, an [int] or a [bool]. *)
Definition comparable (c : Py.val) : bool :=
  match c with
  | Py.PDict d =>
      match Py.dict_get d (Py.KStr "importance") (Py.PInt 0) with
      | Py.PInt _ | Py.PBool _ => true
      | _ => false
      end
  | _ => false
  end.

(** A dictionary whose importance is [None], a string, a list, a tuple
    or a dictionary: none of these can be compared with an [int]. *)
Definition unordered (c : Py.val) : bool :=
  match c with
  | Py.PDict d =>
      match Py.dict_get d (Py.KStr "importance") (Py.PInt 0) with
      | Py.PNone | Py.PStr _ | Py.PList _ | Py.PTuple _ | Py.PDict _ => true
      | Py.PInt _ | Py.PBool _ => false
      end
  | _ => false
  end.

End Candidate2.

(** The stored embedding of a row can be read as [float32]. *)
Definition blob_ok (r : Row.t) : Prop :=
  match Row.embedding r with
  | Some b => (List.length b mod 4 = 0)%nat
  | None => True
  end.

(** A candidate whose embedding has the length of the query, or none. *)
Definition fits (q : Np.ndarray) (m : Memory.t) : bool :=
  match Memory.embedding m with
  | Some e => (Np.size q =? Np.size e)%nat
  | None => true
  end.

(** A row whose stored embedding reads as [float32] with the length of
    the query, or that has none. *)
Definition row_fits (q : Np.ndarray) (r : Row.t) : bool :=
  match Row.embedding r with
  | Some b =>
      (List.length b mod 4 =? 0)%nat && (Np.size q =? List.length b / 4)%nat
  | None => true
  end.

Definition is_dict (v : Py.val) : bool :=
  match v with Py.PDict _ => true | _ => false end.

(** A caller's list that is not in ranking order: the record that points
    away from the query stands before one without embedding.  With it,
    what [retrieve_relevant_memories] returns for limit 1 and leaves in
    the caller's list. *)
Definition unranked : list Memory.t := [Sample.opposed; Sample.older].

Definition reordering : list Memory.t * list Memory.t :=
  Eval vm_compute in
    match MemoryRetriever.retrieve_relevant_memories Sample.services "fruit"
            unranked 1 with
    | Ok x => x
    | Raise _ => ([], [])
    end.


(** The metadata [process_conversation] stores with a new memory. *)
Definition stored_metadata (importance category entities : Py.val) : Py.val :=
  Py.PDict [ (Py.KStr "importance", importance);
             (Py.KStr "category", category);
             (Py.KStr "entities", entities) ].

Definition is_user (message : Message.t) : bool :=
  String.eqb (Message.role message) "user".

(** A turn without a user message, in which the services propose the
    sample candidates, and what [process_conversation] makes of it on an
    empty table. *)
Definition assistant_turn : list Message.t :=
  [ {| Message.role := "assistant"; Message.content := "Noted." |} ].

Definition proposing : OpenAIClient.t :=
  Sample.client (fun _ => Ok Sample.query_vector) Sample.candidates [].

Definition extraction_outcome : MemorySystem.processed * MemoryStorage.db :=
  Eval vm_compute in
    match MemorySystem.process_conversation proposing (fun _ => 300)
            assistant_turn true false MemoryStorage.empty with
    | Ok x => x
    | Raise _ =>
        ({| MemorySystem.new_memories := [];
            MemorySystem.deleted_memories := [];
            MemorySystem.relevant_memories := [] |}, MemoryStorage.empty)
    end.

(** A completion service that answers every request alike, and the
    chat turn it gives for the sample services on the table of two
    memories. *)
Definition answering (answer : string)
  : list Message.t -> string -> float -> Z -> result string :=
  fun _ _ _ _ => Ok answer.

Definition chat_outcome : MemorySystemChat.chat * MemoryStorage.db :=
  Eval vm_compute in
    match MemorySystemChat.chat_with_memory Sample.services
            (answering "Noted.") (fun _ => 300) Sample.turn "gpt-4"
            0x1.6666666666666p-1%float 1000 Sample.two_memories with
    | Ok x => x
    | Raise _ =>
        ({| MemorySystemChat.response := "";
            MemorySystemChat.relevant_memories := [];
            MemorySystemChat.new_memories := [];
            MemorySystemChat.deleted_memories := [] |}, MemoryStorage.empty)
    end.

(** [text.split("\n")]: the lines of a text. *)
Definition line_feed : ascii := ascii_of_nat 10.

Definition lines (text : string) : list string := Str.split line_feed text.

Definition one_line (text : string) : bool :=
  negb (Str.contains line_feed text).

Definition upper_text (s : string) : string :=
  string_of_list_ascii (map Sql.upper (list_ascii_of_string s)).

(** * Properties *)

(** ** Results *)

Lemma bind_ok {A B : Type} (r : result A) (k : A -> result B) (b : B) :
  bind r k = Ok b -> exists a, r = Ok a /\ k a = Ok b.
Proof.
  destruct r as [a | e]; simpl; intros H.
  - exists a; split; [reflexivity | exact H].
  - discriminate H.
Qed.

Ltac inv_ok :=
  repeat match goal with
  | H : bind _ _ = Ok _ |- _ =>
      let a := fresh "a" in
      let Ha := fresh "Ha" in
      apply bind_ok in H; destruct H as [a [Ha H]]
  | H : Ok _ = Ok _ |- _ => injection H as H
  | H : Raise _ = Ok _ |- _ => discriminate H
  | H : (_, _) = (_, _) |- _ => injection H as ? ?
  end.

Lemma mapM_ok_Forall2 {A B : Type} (f : A -> result B) (l : list A) (l' : list B) :
  mapM f l = Ok l' -> Forall2 (fun x y => f x = Ok y) l l'.
Proof.
  revert l'; induction l as [| x t IH]; simpl; intros l' H.
  - inv_ok; subst; constructor.
  - inv_ok; subst. constructor; [assumption | apply IH; assumption].
Qed.

Lemma mapM_map_eq {A B C : Type} (f : A -> result B) (pa : A -> C) (pb : B -> C)
    (l : list A) (l' : list B) :
  (forall x y, f x = Ok y -> pb y = pa x) ->
  mapM f l = Ok l' -> map pb l' = map pa l.
Proof.
  intros Hf H; apply mapM_ok_Forall2 in H.
  induction H as [| x y t t' Hxy _ IH]; simpl.
  - reflexivity.
  - rewrite (Hf _ _ Hxy), IH; reflexivity.
Qed.

(** ** Stable sorting *)

Section OrderingFacts.

Context {A : Type}.
Variable before : A -> A -> bool.

Lemma insert_perm (x : A) (l : list A) :
  Permutation (insert before x l) (x :: l).
Proof.
  induction l as [| y t IH]; simpl.
  - apply Permutation_refl.
  - destruct (before y x).
    + apply perm_trans with (y :: x :: t).
      * apply perm_skip, IH.
      * apply perm_swap.
    + apply Permutation_refl.
Qed.

Lemma stable_sort_perm (l : list A) :
  Permutation (stable_sort before l) l.
Proof.
  induction l as [| x t IH]; simpl.
  - apply perm_nil.
  - apply perm_trans with (x :: stable_sort before t).
    + apply insert_perm.
    + apply perm_skip, IH.
Qed.

(** Stability: a class of elements none of which has to precede another
    comes out in the order it went in. *)
Section Stability.

Variable p : A -> bool.
Hypothesis p_unordered :
  forall a b, p a = true -> p b = true -> before a b = false.

Lemma insert_filter (x : A) (l : list A) :
  filter p (insert before x l) = filter p (x :: l).
Proof.
  induction l as [| y t IH]; simpl.
  - reflexivity.
  - destruct (before y x) eqn:Hyx; simpl.
    + rewrite IH; simpl.
      destruct (p y) eqn:Hy; destruct (p x) eqn:Hx; try reflexivity.
      rewrite (p_unordered y x Hy Hx) in Hyx; discriminate Hyx.
    + reflexivity.
Qed.

Lemma stable_sort_filter (l : list A) :
  filter p (stable_sort before l) = filter p l.
Proof.
  induction l as [| x t IH].
  - reflexivity.
  - simpl stable_sort. rewrite insert_filter. simpl. rewrite IH.
    reflexivity.
Qed.

End Stability.

(** Sortedness, on a domain where [before] is asymmetric and its
    complement is transitive. *)
Section Sortedness.

Variable dom : A -> Prop.
Hypothesis before_asym :
  forall a b, dom a -> dom b -> before a b = true -> before b a = false.
Hypothesis not_before_trans :
  forall a b c, dom a -> dom b -> dom c ->
    before b a = false -> before c b = false -> before c a = false.

Lemma insert_sorted (x : A) (l : list A) :
  dom x -> Forall dom l ->
  StronglySorted (not_after before) l ->
  StronglySorted (not_after before) (insert before x l).
Proof.
  intros Hx Hl Hs; induction Hs as [| y t Hs IH Hy]; simpl.
  - constructor; constructor.
  - inversion Hl as [| ? ? Hdy Hdt]; subst.
    destruct (before y x) eqn:Hyx.
    + constructor.
      * apply IH; assumption.
      * apply (Permutation_Forall (Permutation_sym (insert_perm x t))).
        constructor; [| assumption].
        apply before_asym; assumption.
    + constructor.
      * constructor; assumption.
      * constructor; [exact Hyx |].
        rewrite Forall_forall in Hy, Hdt |- *.
        intros z Hz. unfold not_after.
        apply (not_before_trans x y z); auto.
        apply Hy; assumption.
Qed.

Lemma stable_sort_sorted (l : list A) :
  Forall dom l -> StronglySorted (not_after before) (stable_sort before l).
Proof.
  induction 1 as [| x t Hx Ht IH]; simpl.
  - constructor.
  - apply insert_sorted; try assumption.
    apply (Permutation_Forall (Permutation_sym (stable_sort_perm t))).
    assumption.
Qed.

End Sortedness.

End OrderingFacts.

Lemma StronglySorted_app {A : Type} (R : A -> A -> Prop) (l1 l2 : list A) :
  StronglySorted R l1 -> StronglySorted R l2 ->
  (forall a b, In a l1 -> In b l2 -> R a b) ->
  StronglySorted R (l1 ++ l2).
Proof.
  intros H1 H2 Hc; induction H1 as [| x t Ht IH Hx]; simpl.
  - exact H2.
  - constructor.
    + apply IH. intros a b Ha Hb; apply Hc; [right |]; assumption.
    + apply Forall_app; split; [assumption |].
      rewrite Forall_forall; intros b Hb; apply Hc; [left; reflexivity | assumption].
Qed.

Lemma StronglySorted_rev {A : Type} (R : A -> A -> Prop) (l : list A) :
  StronglySorted R l -> StronglySorted (fun a b => R b a) (rev l).
Proof.
  induction 1 as [| x t Ht IH Hx]; simpl.
  - constructor.
  - apply StronglySorted_app.
    + exact IH.
    + constructor; constructor.
    + intros a b Ha [Hb | []]; subst b.
      rewrite Forall_forall in Hx; apply Hx, in_rev; assumption.
Qed.

Lemma In_firstn {A : Type} (n : nat) (l : list A) (x : A) :
  In x (firstn n l) -> In x l.
Proof.
  intros H. rewrite <- (firstn_skipn n l). apply in_or_app; left; exact H.
Qed.

Lemma StronglySorted_firstn {A : Type} (R : A -> A -> Prop) (n : nat) (l : list A) :
  StronglySorted R l -> StronglySorted R (firstn n l).
Proof.
  intros H; revert n; induction H as [| x t Ht IH Hx]; intros [| n]; simpl;
    try constructor.
  - apply IH.
  - rewrite Forall_forall in Hx |- *; intros y Hy.
    apply Hx, (In_firstn n); exact Hy.
Qed.

Lemma StronglySorted_impl {A : Type} (R S : A -> A -> Prop) (l : list A) :
  (forall a b, In a l -> In b l -> R a b -> S a b) ->
  StronglySorted R l -> StronglySorted S l.
Proof.
  intros HRS H; induction H as [| x t Ht IH Hx].
  - constructor.
  - constructor.
    + apply IH; intros a b Ha Hb; apply HRS; right; assumption.
    + rewrite Forall_forall in Hx |- *; intros y Hy.
      apply HRS; [left; reflexivity | right; assumption | apply Hx; assumption].
Qed.

Lemma slice_to_incl {A : Type} (n : Z) (l : list A) (x : A) :
  In x (slice_to n l) -> In x l.
Proof.
  unfold slice_to; destruct (0 <=? n); apply In_firstn.
Qed.

Lemma slice_to_sorted {A : Type} (R : A -> A -> Prop) (n : Z) (l : list A) :
  StronglySorted R l -> StronglySorted R (slice_to n l).
Proof.
  unfold slice_to; destruct (0 <=? n); apply StronglySorted_firstn.
Qed.

(** ** Comparing floating-point numbers

    The comparisons are read through their specification on [spec_float].
    Away from NaN, [<] is a strict weak order. *)

Ltac compare_cases :=
  repeat match goal with
  | |- context [Z.compare ?a ?b] => destruct (Z.compare_spec a b)
  | |- context [Pos.compare_cont Eq ?a ?b] =>
      change (Pos.compare_cont Eq a b) with (Pos.compare a b);
      destruct (Pos.compare_spec a b)
  | H : context [Z.compare ?a ?b] |- _ => destruct (Z.compare_spec a b)
  | H : context [Pos.compare_cont Eq ?a ?b] |- _ =>
      change (Pos.compare_cont Eq a b) with (Pos.compare a b) in H;
      destruct (Pos.compare_spec a b)
  end.

Ltac spec_float_cases :=
  simpl; try congruence; intros;
  compare_cases; simpl in *; try congruence; try lia.

Lemma SFltb_asym (x y : spec_float) : SFltb x y = true -> SFltb y x = false.
Proof.
  unfold SFltb.
  destruct x as [[]|[]| |[] m1 e1], y as [[]|[]| |[] m2 e2]; spec_float_cases.
Qed.

Lemma SFltb_not_trans (x y z : spec_float) :
  x <> S754_nan -> y <> S754_nan -> z <> S754_nan ->
  SFltb y x = false -> SFltb z y = false -> SFltb z x = false.
Proof.
  unfold SFltb.
  destruct x as [[]|[]| |[] m1 e1], y as [[]|[]| |[] m2 e2],
           z as [[]|[]| |[] m3 e3]; spec_float_cases.
Qed.

Lemma SFeqb_not_ltb (x y k : spec_float) :
  SFeqb x k = true -> SFeqb y k = true -> SFltb x y = false.
Proof.
  unfold SFltb, SFeqb.
  destruct x as [[]|[]| |[] m1 e1], y as [[]|[]| |[] m2 e2],
           k as [[]|[]| |[] m3 e3]; spec_float_cases.
Qed.

Lemma SFltb_false_leb (x y : spec_float) :
  x <> S754_nan -> y <> S754_nan -> SFltb x y = false -> SFleb y x = true.
Proof.
  unfold SFltb, SFleb.
  destruct x as [[]|[]| |[] m1 e1], y as [[]|[]| |[] m2 e2]; spec_float_cases.
Qed.


Lemma not_nan_spec (x : float) :
  PrimFloat.is_nan x = false -> Prim2SF x <> S754_nan.
Proof.
  unfold PrimFloat.is_nan; rewrite eqb_spec; intros H E.
  rewrite E in H; discriminate H.
Qed.

Lemma nan_spec (x : float) :
  Prim2SF x = S754_nan -> PrimFloat.is_nan x = true.
Proof.
  unfold PrimFloat.is_nan; rewrite eqb_spec; intros E.
  rewrite E; reflexivity.
Qed.

Lemma ltb_asym (x y : float) :
  (x <? y)%float = true -> (y <? x)%float = false.
Proof. rewrite !ltb_spec; apply SFltb_asym. Qed.

Lemma ltb_not_trans (x y z : float) :
  PrimFloat.is_nan x = false -> PrimFloat.is_nan y = false ->
  PrimFloat.is_nan z = false ->
  (y <? x)%float = false -> (z <? y)%float = false -> (z <? x)%float = false.
Proof.
  intros Hx Hy Hz; rewrite !ltb_spec.
  apply SFltb_not_trans; apply not_nan_spec; assumption.
Qed.

Lemma eqb_not_ltb (x y k : float) :
  (x =? k)%float = true -> (y =? k)%float = true -> (x <? y)%float = false.
Proof. rewrite !eqb_spec, ltb_spec; apply SFeqb_not_ltb. Qed.

Lemma ltb_false_leb (x y : float) :
  PrimFloat.is_nan x = false -> PrimFloat.is_nan y = false ->
  (x <? y)%float = false -> (y <=? x)%float = true.
Proof.
  intros Hx Hy; rewrite ltb_spec, leb_spec.
  apply SFltb_false_leb; apply not_nan_spec; assumption.
Qed.


(** ** The extraction filter *)

Lemma dict_get_getitem (d : list (Py.key * Py.val)) (k : Py.key) (v : Py.val) :
  Py.dict_get d k v =
  match Py.dict_getitem d k with Ok x => x | Raise _ => v end.
Proof.
  induction d as [| [k' x] t IH]; simpl.
  - reflexivity.
  - destruct (Py.key_eqb k' k); [reflexivity | exact IH].
Qed.

Lemma should_store_typed (c : Py.val) (threshold : Z) :
  Candidate.typed c = true ->
  MemoryExtractor.should_store_memory c threshold
  = Ok (Candidate.spec_keep threshold c).
Proof.
  unfold MemoryExtractor.should_store_memory, Candidate.spec_keep,
    Candidate.score, Candidate.typed.
  destruct c as [| b | z | s | l | l | d]; try discriminate; simpl.
  rewrite dict_get_getitem.
  destruct (Py.dict_getitem d (Py.KStr "importance")) as [[| b | z | s | l | l | d'] | e];
    simpl; try discriminate; reflexivity.
Qed.

Lemma filterM_total {A : Type} (f : A -> result bool) (g : A -> bool) (l : list A) :
  Forall (fun x => f x = Ok (g x)) l -> filterM f l = Ok (filter g l).
Proof.
  induction 1 as [| x t Hx _ IH]; simpl.
  - reflexivity.
  - rewrite Hx; simpl. rewrite IH; simpl. reflexivity.
Qed.

(** C4.  When the completion service answers with candidates typed as the
    specification types them, [extract_memories] returns exactly the
    candidates whose importance is at least the threshold, in the order
    received: a candidate scored [z] stays if and only if
    [threshold <= z] (so 5 stays and 4 goes at threshold 5), and a
    candidate without a score counts as 0 and stays only for a threshold
    of 0 or less. *)
Theorem extract_memories_keeps_important
    (openai_client : OpenAIClient.t) (conversation : list Message.t)
    (importance_threshold : Z) (candidates : list Py.val) :
  OpenAIClient.extract_memories openai_client conversation = Ok candidates ->
  forallb Candidate.typed candidates = true ->
  exists kept,
    MemoryExtractor.extract_memories openai_client conversation
      importance_threshold = Ok kept
    /\ kept = filter (Candidate.spec_keep importance_threshold) candidates
    /\ (forall c z, In c candidates -> Candidate.score c = Some z ->
          (In c kept <-> importance_threshold <= z))
    /\ (forall c, In c candidates -> Candidate.score c = None ->
          (In c kept <-> importance_threshold <= 0)).
Proof.
  intros Hc Ht.
  exists (filter (Candidate.spec_keep importance_threshold) candidates).
  split; [| split; [reflexivity | split]].
  - unfold MemoryExtractor.extract_memories. rewrite Hc; simpl.
    apply filterM_total. rewrite forallb_forall in Ht.
    rewrite Forall_forall; intros c Hin.
    apply should_store_typed, Ht, Hin.
  - intros c z Hin Hs. rewrite filter_In.
    unfold Candidate.spec_keep; rewrite Hs, Z.leb_le. tauto.
  - intros c Hin Hs. rewrite filter_In.
    unfold Candidate.spec_keep; rewrite Hs, Z.leb_le. tauto.
Qed.

Lemma extract_memories_keeps_important_witness :
  exists kept,
    MemoryExtractor.extract_memories
      (Sample.client (fun _ => Raise OpenAIError) Sample.candidates []) [] 5
    = Ok kept
    /\ kept = filter (Candidate.spec_keep 5) Sample.candidates
    /\ (forall c z, In c Sample.candidates -> Candidate.score c = Some z ->
          (In c kept <-> 5 <= z))
    /\ (forall c, In c Sample.candidates -> Candidate.score c = None ->
          (In c kept <-> 5 <= 0)).
Proof.
  apply (extract_memories_keeps_important
           (Sample.client (fun _ => Raise OpenAIError) Sample.candidates [])
           [] 5 Sample.candidates); reflexivity.
Defined.

(** The boundary on data: importance 4 is dropped at threshold 5 and
    importance 5 is kept; the candidate without a score is dropped at 5
    and kept, like the others, at 0. *)
Example extract_memories_boundary :
  MemoryExtractor.extract_memories
    (Sample.client (fun _ => Raise OpenAIError) Sample.candidates []) [] 5
  = Ok [Sample.candidate "likes tea" (Some 5)]
  /\ MemoryExtractor.extract_memories
       (Sample.client (fun _ => Raise OpenAIError) Sample.candidates []) [] 0
     = Ok Sample.candidates.
Proof. split; reflexivity. Qed.

(** ** JSON round trip *)

Section ValInduction.

Variable P : Py.val -> Prop.
Hypothesis P_none : P Py.PNone.
Hypothesis P_bool : forall b, P (Py.PBool b).
Hypothesis P_int : forall z, P (Py.PInt z).
Hypothesis P_str : forall s, P (Py.PStr s).
Hypothesis P_list : forall l, Forall P l -> P (Py.PList l).
Hypothesis P_tuple : forall l, Forall P l -> P (Py.PTuple l).
Hypothesis P_dict :
  forall d, Forall (fun kv => P (snd kv)) d -> P (Py.PDict d).

Lemma val_induction : forall v, P v.
Proof.
  fix IH 1. intros [| b | z | s | l | l | d].
  - exact P_none.
  - apply P_bool.
  - apply P_int.
  - apply P_str.
  - apply P_list. induction l as [| x t IHt]; constructor; [apply IH | exact IHt].
  - apply P_tuple. induction l as [| x t IHt]; constructor; [apply IH | exact IHt].
  - apply P_dict. induction d as [| [k x] t IHt]; constructor;
      [simpl; apply IH | exact IHt].
Qed.

End ValInduction.

Lemma existsb_false {A : Type} (f : A -> bool) (l : list A) :
  existsb f l = false -> forall x, In x l -> f x = false.
Proof.
  induction l as [| y t IH]; simpl; intros H x Hin.
  - destruct Hin.
  - apply orb_false_iff in H; destruct H as [Hy Ht].
    destruct Hin as [-> | Hin]; [exact Hy | apply IH; assumption].
Qed.

Lemma dict_set_fresh (d : list (Py.key * Py.val)) (k : Py.key) (v : Py.val) :
  Forall (fun kv => Py.key_eqb (fst kv) k = false) d ->
  Py.dict_set d k v = (d ++ [(k, v)])%list.
Proof.
  induction 1 as [| [k' v'] t Hk _ IH]; simpl.
  - reflexivity.
  - simpl in Hk; rewrite Hk, IH; reflexivity.
Qed.

Lemma loads_dumps_members (d acc : list (Py.key * Py.val)) :
  forallb Json.is_str_key (map fst d) = true ->
  Json.distinct_keys (map fst d) = true ->
  Forall (fun kv => Json.loads (Json.dumps (snd kv)) = snd kv) d ->
  (forall kv kv', In kv acc -> In kv' d ->
     Py.key_eqb (fst kv) (fst kv') = false) ->
  fold_left
    (fun a kv => Py.dict_set a (Py.KStr (fst kv)) (Json.loads (snd kv)))
    (map (fun kv => (Json.key_text (fst kv), Json.dumps (snd kv))) d) acc
  = (acc ++ d)%list.
Proof.
  revert acc; induction d as [| [k v] t IH]; simpl; intros acc Hs Hd Hv Hacc.
  - symmetry; apply app_nil_r.
  - apply andb_prop in Hs; destruct Hs as [Hk Hs].
    apply andb_prop in Hd; destruct Hd as [Hn Hd].
    inversion Hv as [| ? ? Hv1 Hv2]; subst. simpl in Hv1.
    destruct k as [s | z]; [| discriminate Hk]. simpl.
    rewrite Hv1, dict_set_fresh.
    + rewrite IH; try assumption.
      * rewrite <- app_assoc; reflexivity.
      * intros kv kv' Hin Hin'. apply in_app_or in Hin.
        destruct Hin as [Hin | [Hin | []]].
        -- apply Hacc; [assumption | right; assumption].
        -- subst kv; simpl.
           apply negb_true_iff in Hn.
           apply (existsb_false _ _ Hn), in_map, Hin'.
    + rewrite Forall_forall; intros kv Hin.
      apply (Hacc kv (Py.KStr s, v)); [assumption | left; reflexivity].
Qed.

(** What JSON has a form for comes back as it went. *)
Lemma loads_dumps (v : Py.val) :
  Json.native v = true -> Json.loads (Json.dumps v) = v.
Proof.
  induction v as [| b | z | s | l IH | l IH | d IH] using val_induction;
    simpl; intros Hn; try reflexivity; try discriminate Hn.
  - f_equal. rewrite map_map.
    induction IH as [| x t Hx _ IHt]; simpl in *.
    + reflexivity.
    + apply andb_prop in Hn; destruct Hn as [Hn1 Hn2].
      rewrite Hx, IHt; auto.
  - apply andb_prop in Hn; destruct Hn as [Hn Hvals].
    apply andb_prop in Hn; destruct Hn as [Hs Hd].
    f_equal. rewrite loads_dumps_members; try assumption.
    + reflexivity.
    + rewrite forallb_forall in Hvals. rewrite Forall_forall in IH |- *.
      intros kv Hin. apply IH; [assumption | apply Hvals; assumption].
    + intros kv kv' [].
Qed.

(** ** The store: adding and reading back *)

Lemma max_rowid_bound (rs : list Row.t) (r : Row.t) :
  In r rs -> Row.id r <= MemoryStorage.max_rowid rs.
Proof.
  induction rs as [| x t IH]; simpl; intros Hin.
  - destruct Hin.
  - destruct Hin as [-> | Hin]; [lia | specialize (IH Hin); lia].
Qed.

Lemma next_id_fresh (d : MemoryStorage.db) (r : Row.t) :
  In r (MemoryStorage.rows d) ->
  (Row.id r =? MemoryStorage.next_id d) = false.
Proof.
  intros Hin; apply max_rowid_bound in Hin.
  unfold MemoryStorage.next_id; apply Z.eqb_neq; lia.
Qed.

Lemma find_app_skip {A : Type} (f : A -> bool) (l1 l2 : list A) :
  (forall x, In x l1 -> f x = false) -> find f (l1 ++ l2) = find f l2.
Proof.
  induction l1 as [| y t IH]; simpl; intros H.
  - reflexivity.
  - rewrite (H y (or_introl eq_refl)). apply IH.
    intros x Hx; apply H; right; exact Hx.
Qed.

Lemma frombuffer_tobytes (a : Np.ndarray) :
  Np.is_float32 a && Np.well_formed a = true ->
  Np.frombuffer (Np.tobytes a) Np.float32 = Ok a.
Proof.
  destruct a as [[|] bs]; unfold Np.is_float32, Np.well_formed, Np.frombuffer,
    Np.tobytes; cbn [Np.dt Np.data Np.itemsize andb]; intros H;
    [| discriminate H].
  rewrite H; reflexivity.
Qed.

(** C6.  [add_memory] followed by [get_memory] on the id it returned
    yields a record with the content, the embedding and the metadata that
    were passed in, and with [created_at] equal to [updated_at].  The
    embedding is a [float32] vector or absent and the metadata has a JSON
    form or is absent, as the data model has them. *)
Theorem add_then_get (now : Z) (content : string)
    (embedding : option Np.ndarray) (metadata : option Py.val)
    (d : MemoryStorage.db) :
  WellFormed.embedding embedding = true ->
  WellFormed.metadata metadata = true ->
  exists m,
    MemoryStorage.get_memory
      (fst (MemoryStorage.add_memory now content embedding metadata d))
      (snd (MemoryStorage.add_memory now content embedding metadata d))
    = Ok (Some m)
    /\ Memory.id m
       = fst (MemoryStorage.add_memory now content embedding metadata d)
    /\ Memory.content m = content
    /\ Memory.embedding m = embedding
    /\ Memory.metadata m = metadata
    /\ Memory.created_at m = Memory.updated_at m.
Proof.
  intros He Hm.
  unfold MemoryStorage.add_memory, MemoryStorage.get_memory; simpl.
  rewrite find_app_skip by (intros r Hr; apply next_id_fresh, Hr).
  simpl. rewrite Z.eqb_refl.
  unfold MemoryStorage.memory_of_row; simpl.
  assert (Hdec :
    match option_map Np.tobytes embedding with
    | None => Ok None
    | Some b => a <- Np.frombuffer b Np.float32 ;; Ok (Some a)
    end = Ok embedding).
  { destruct embedding as [a |]; simpl; [| reflexivity].
    simpl in He. rewrite (frombuffer_tobytes a He); reflexivity. }
  rewrite Hdec; simpl.
  eexists; split; [reflexivity |]; simpl.
  repeat split.
  destruct metadata as [v |]; simpl; [| reflexivity].
  simpl in Hm. rewrite (loads_dumps v Hm); reflexivity.
Qed.

Lemma add_then_get_witness :
  exists m,
    MemoryStorage.get_memory
      (fst (MemoryStorage.add_memory 100 "Test memory"
              (Some (Np.of_bits Np.float32 [0x3f800000; 0x3f000000]))
              (Some (Sample.candidate "test" (Some 5))) MemoryStorage.empty))
      (snd (MemoryStorage.add_memory 100 "Test memory"
              (Some (Np.of_bits Np.float32 [0x3f800000; 0x3f000000]))
              (Some (Sample.candidate "test" (Some 5))) MemoryStorage.empty))
    = Ok (Some m)
    /\ Memory.id m
       = fst (MemoryStorage.add_memory 100 "Test memory"
                (Some (Np.of_bits Np.float32 [0x3f800000; 0x3f000000]))
                (Some (Sample.candidate "test" (Some 5))) MemoryStorage.empty)
    /\ Memory.content m = "Test memory"
    /\ Memory.embedding m
       = Some (Np.of_bits Np.float32 [0x3f800000; 0x3f000000])
    /\ Memory.metadata m = Some (Sample.candidate "test" (Some 5))
    /\ Memory.created_at m = Memory.updated_at m.
Proof.
  apply (add_then_get 100 "Test memory"
           (Some (Np.of_bits Np.float32 [0x3f800000; 0x3f000000]))
           (Some (Sample.candidate "test" (Some 5))) MemoryStorage.empty);
    reflexivity.
Defined.

(** Outside the data model the round trip is not the identity: a
    [float64] array, which is what the embedding service produces, comes
    back as a [float32] array of twice the length, and a tuple in the
    metadata comes back as a list. *)
Example add_then_get_float64 :
  let a := Np.of_bits Np.float64 [0x3ff0000000000000] in
  let '(i, d) := MemoryStorage.add_memory 100 "x" (Some a) None MemoryStorage.empty in
  exists m, MemoryStorage.get_memory i d = Ok (Some m)
    /\ option_map Np.values (Memory.embedding m) = Some [0%float; 1.875%float]
    /\ Np.values a = [1%float].
Proof. simpl. eexists; split; [reflexivity |]. split; vm_compute; reflexivity. Qed.

Example add_then_get_tuple :
  let v := Py.PDict [(Py.KStr "entities", Py.PTuple [Py.PStr "Shram"])] in
  let '(i, d) := MemoryStorage.add_memory 100 "x" None (Some v) MemoryStorage.empty in
  exists m, MemoryStorage.get_memory i d = Ok (Some m)
    /\ Memory.metadata m
       = Some (Py.PDict [(Py.KStr "entities", Py.PList [Py.PStr "Shram"])]).
Proof. simpl. eexists; split; reflexivity. Qed.

(** ** The store: partial update *)

Lemma find_map_same_id (i : Z) (g : Row.t -> Row.t) (l : list Row.t) :
  (forall r, Row.id (g r) = Row.id r) ->
  find (fun r => Row.id r =? i) (map g l)
  = option_map g (find (fun r => Row.id r =? i) l).
Proof.
  intros Hg; induction l as [| x t IH]; simpl.
  - reflexivity.
  - rewrite Hg. destruct (Row.id x =? i); [reflexivity | exact IH].
Qed.

Lemma well_formed_float32_buffer (a : Np.ndarray) :
  Np.well_formed a = true ->
  Np.frombuffer (Np.tobytes a) Np.float32
  = Ok {| Np.dt := Np.float32; Np.data := Np.data a |}.
Proof.
  unfold Np.well_formed, Np.frombuffer, Np.tobytes.
  destruct a as [[|] bs]; cbn [Np.dt Np.data Np.itemsize]; intros H.
  - rewrite H; reflexivity.
  - apply Nat.eqb_eq, Nat.Div0.mod_divides in H. destruct H as [c Hc].
    replace (List.length bs mod 4 =? 0)%nat with true; [reflexivity |].
    symmetry; apply Nat.eqb_eq, Nat.Div0.mod_divides.
    exists (2 * c)%nat; lia.
Qed.

Lemma get_memory_row (i : Z) (d : MemoryStorage.db) (m : Memory.t) :
  MemoryStorage.get_memory i d = Ok (Some m) ->
  exists r, find (fun r => Row.id r =? i) (MemoryStorage.rows d) = Some r
            /\ MemoryStorage.memory_of_row r = Ok m.
Proof.
  unfold MemoryStorage.get_memory.
  destruct (find _ _) as [r |]; intros H; [| discriminate H].
  exists r; split; [reflexivity |].
  destruct (MemoryStorage.memory_of_row r) as [m' | e]; simpl in H;
    [injection H as <-; reflexivity | discriminate H].
Qed.

(** C8.  On an existing id, [update_memory] with every optional field
    omitted returns [True] and leaves the table as it was, so content,
    embedding, metadata and [updated_at] are unchanged.  With at least
    one field supplied it returns [True], the record read back has the
    supplied fields replaced, the omitted ones and [created_at]
    unchanged, and [updated_at] set to the current time. *)
Theorem update_memory_partial (now memory_id : Z) (content : option string)
    (embedding : option Np.ndarray) (metadata : option Py.val)
    (d : MemoryStorage.db) (m : Memory.t) :
  MemoryStorage.get_memory memory_id d = Ok (Some m) ->
  WellFormed.array embedding = true ->
  (content = None /\ embedding = None /\ metadata = None ->
     MemoryStorage.update_memory now memory_id content embedding metadata d
     = (true, d))
  /\ (~ (content = None /\ embedding = None /\ metadata = None) ->
      exists d' m',
        MemoryStorage.update_memory now memory_id content embedding metadata d
        = (true, d')
        /\ MemoryStorage.get_memory memory_id d' = Ok (Some m')
        /\ Memory.id m' = Memory.id m
        /\ Memory.created_at m' = Memory.created_at m
        /\ Memory.updated_at m' = now
        /\ Memory.content m'
           = match content with Some c => c | None => Memory.content m end
        /\ Memory.embedding m'
           = match embedding with
             | Some a => Some {| Np.dt := Np.float32; Np.data := Np.data a |}
             | None => Memory.embedding m
             end
        /\ Memory.metadata m'
           = match metadata with
             | Some v => Some (Json.loads (Json.dumps v))
             | None => Memory.metadata m
             end).
Proof.
  intros Hget Hwf.
  destruct (get_memory_row _ _ _ Hget) as [r [Hfind Hrow]].
  split.
  - intros [-> [-> ->]].
    unfold MemoryStorage.update_memory; rewrite Hfind; reflexivity.
  - intros Hsome.
    unfold MemoryStorage.update_memory; rewrite Hfind.
    assert (Hnone : MemoryStorage.is_none content
                    && MemoryStorage.is_none embedding
                    && MemoryStorage.is_none metadata = false).
    { destruct content, embedding, metadata; try reflexivity.
      exfalso; apply Hsome; auto. }
    rewrite Hnone.
    unfold MemoryStorage.memory_of_row in Hrow.
    apply bind_ok in Hrow; destruct Hrow as [e [He Hm]].
    injection Hm as <-.
    eexists; eexists; split; [reflexivity |].
    unfold MemoryStorage.get_memory; simpl.
    rewrite find_map_same_id.
    2:{ intros x; destruct (Row.id x =? memory_id); [| reflexivity].
        destruct content, embedding, metadata; reflexivity. }
    rewrite Hfind; simpl.
    destruct (find_some _ _ Hfind) as [_ Hid]; simpl in Hid; rewrite Hid.
    unfold MemoryStorage.memory_of_row.
    assert (Hdec :
      match Row.embedding
              (MemoryStorage.set_updated_at now
                 (MemoryStorage.set_metadata metadata
                    (MemoryStorage.set_embedding embedding
                       (MemoryStorage.set_content content r)))) with
      | None => Ok None
      | Some b => a <- Np.frombuffer b Np.float32 ;; Ok (Some a)
      end
      = Ok match embedding with
           | Some a => Some {| Np.dt := Np.float32; Np.data := Np.data a |}
           | None => e
           end).
    { destruct embedding as [a |].
      - destruct content, metadata; simpl;
          rewrite (well_formed_float32_buffer a Hwf); reflexivity.
      - destruct content, metadata; simpl; exact He. }
    rewrite Hdec; simpl.
    split; [reflexivity |]; simpl.
    destruct content, embedding, metadata; simpl; repeat split; reflexivity.
Qed.

Lemma update_memory_partial_witness :
  (Some "Updated content" = None
   /\ @None Np.ndarray = None /\ @None Py.val = None ->
   MemoryStorage.update_memory 160 1 (Some "Updated content") None None
     Sample.one_memory = (true, Sample.one_memory))
  /\ (~ (Some "Updated content" = None
         /\ @None Np.ndarray = None /\ @None Py.val = None) ->
      exists d' m',
        MemoryStorage.update_memory 160 1 (Some "Updated content") None None
          Sample.one_memory = (true, d')
        /\ MemoryStorage.get_memory 1 d' = Ok (Some m')
        /\ Memory.id m' = Memory.id Sample.original
        /\ Memory.created_at m' = Memory.created_at Sample.original
        /\ Memory.updated_at m' = 160
        /\ Memory.content m' = "Updated content"
        /\ Memory.embedding m' = Memory.embedding Sample.original
        /\ Memory.metadata m' = Memory.metadata Sample.original).
Proof.
  apply (update_memory_partial 160 1 (Some "Updated content") None None
           Sample.one_memory Sample.original); reflexivity.
Defined.

(** The two behaviours on data: nothing supplied, nothing changes, not
    even [updated_at]; a new content moves [updated_at] and nothing
    else. *)
Example update_memory_runs :
  MemoryStorage.update_memory 160 1 None None None Sample.one_memory
  = (true, Sample.one_memory)
  /\ MemoryStorage.get_memory 1
       (snd (MemoryStorage.update_memory 160 1 (Some "Updated content")
               None None Sample.one_memory))
     = Ok (Some {| Memory.id := 1; Memory.content := "Updated content";
                   Memory.embedding := None; Memory.similarity := None;
                   Memory.created_at := 100; Memory.updated_at := 160;
                   Memory.metadata := None |})
  /\ MemoryStorage.update_memory 160 7 (Some "x") None None Sample.one_memory
     = (false, Sample.one_memory).
Proof. repeat split. Qed.

(** ** Deleting *)

Lemma delete_memory_ids (i : Z) (d : MemoryStorage.db) :
  MemoryStorage.ids (snd (MemoryStorage.delete_memory i d))
  = filter (fun j => negb (j =? i)) (MemoryStorage.ids d).
Proof.
  unfold MemoryStorage.ids, MemoryStorage.delete_memory; simpl.
  induction (MemoryStorage.rows d) as [| r t IH]; simpl.
  - reflexivity.
  - destruct (Row.id r =? i); simpl; [| f_equal]; exact IH.
Qed.

Lemma delete_memory_removed (i : Z) (d : MemoryStorage.db) :
  fst (MemoryStorage.delete_memory i d) = true <-> In i (MemoryStorage.ids d).
Proof.
  unfold MemoryStorage.ids, MemoryStorage.delete_memory; simpl.
  rewrite existsb_exists, in_map_iff. split.
  - intros [r [Hin Hr]]. exists r. apply Z.eqb_eq in Hr. auto.
  - intros [r [Hr Hin]]. exists r. split; [assumption | apply Z.eqb_eq, Hr].
Qed.

Lemma delete_memory_absent (i : Z) (d : MemoryStorage.db) :
  ~ In i (MemoryStorage.ids d) -> MemoryStorage.delete_memory i d = (false, d).
Proof.
  intros Hn. unfold MemoryStorage.delete_memory.
  assert (Hall : forall r, In r (MemoryStorage.rows d) -> (Row.id r =? i) = false).
  { intros r Hr. apply Z.eqb_neq. intros E. apply Hn.
    unfold MemoryStorage.ids. rewrite <- E. apply in_map, Hr. }
  destruct d as [rs s]; simpl in *. f_equal.
  - destruct (existsb _ rs) eqn:E; [| reflexivity].
    apply existsb_exists in E. destruct E as [r [Hr E]].
    rewrite (Hall r Hr) in E; discriminate E.
  - f_equal. clear Hn. induction rs as [| r t IH]; simpl.
    + reflexivity.
    + rewrite (Hall r (or_introl eq_refl)); simpl. f_equal.
      apply IH. intros x Hx; apply Hall; right; exact Hx.
Qed.

Lemma bind_int_ok (z : Z) : Sql.int64 z = true -> Sql.bind_int z = Ok z.
Proof. unfold Sql.bind_int. intros ->. reflexivity. Qed.

Lemma bind_int_raise (z : Z) :
  Sql.int64 z = false -> Sql.bind_int z = Raise OverflowError.
Proof. unfold Sql.bind_int. intros ->. reflexivity. Qed.

Lemma delete_each_cons (i : Z) (t : list Z) (d : MemoryStorage.db) :
  MemorySystem.delete_each (i :: t) d
  = if Sql.int64 i
    then '(deleted, d2) <-
           MemorySystem.delete_each t (snd (MemoryStorage.delete_memory i d)) ;;
         Ok (if fst (MemoryStorage.delete_memory i d)
             then i :: deleted else deleted, d2)
    else Raise OverflowError.
Proof.
  cbn [MemorySystem.delete_each]. unfold StorageCall.delete_memory, Sql.bind_int.
  destruct (Sql.int64 i); cbn [bind]; [| reflexivity].
  destruct (MemoryStorage.delete_memory i d) as [removed d1].
  cbn [fst snd]. reflexivity.
Qed.

Lemma delete_each_cons_ok (i : Z) (t : list Z) (d d2 : MemoryStorage.db)
    (deleted : list Z) :
  MemorySystem.delete_each (i :: t) d = Ok (deleted, d2) ->
  Sql.int64 i = true
  /\ exists rest,
       MemorySystem.delete_each t (snd (MemoryStorage.delete_memory i d))
       = Ok (rest, d2)
       /\ deleted = if fst (MemoryStorage.delete_memory i d)
                    then i :: rest else rest.
Proof.
  rewrite delete_each_cons. destruct (Sql.int64 i); [| discriminate].
  intros H. split; [reflexivity |].
  apply bind_ok in H. destruct H as [[rest d3] [Hrest H]].
  cbn beta iota in H. injection H as <- <-.
  exists rest. split; [exact Hrest | reflexivity].
Qed.

Lemma delete_each_ids (l : list Z) (d d2 : MemoryStorage.db)
    (deleted : list Z) (j : Z) :
  MemorySystem.delete_each l d = Ok (deleted, d2) ->
  (In j (MemoryStorage.ids d2) <-> In j (MemoryStorage.ids d) /\ ~ In j l).
Proof.
  revert d deleted; induction l as [| i t IH]; intros d deleted H.
  - injection H as <- <-. simpl; tauto.
  - apply delete_each_cons_ok in H. destruct H as [_ [rest [Hrest _]]].
    rewrite (IH _ _ Hrest), delete_memory_ids, filter_In, negb_true_iff,
      Z.eqb_neq.
    simpl; intuition congruence.
Qed.

Lemma delete_each_deleted (l : list Z) (d d2 : MemoryStorage.db)
    (deleted : list Z) (j : Z) :
  MemorySystem.delete_each l d = Ok (deleted, d2) ->
  (In j deleted <-> In j l /\ In j (MemoryStorage.ids d)).
Proof.
  revert d deleted; induction l as [| i t IH]; intros d deleted H.
  - injection H as <- <-. simpl; tauto.
  - apply delete_each_cons_ok in H. destruct H as [_ [rest [Hrest ->]]].
    pose proof (delete_memory_removed i d) as Hrem.
    specialize (IH _ _ Hrest).
    rewrite delete_memory_ids, filter_In, negb_true_iff, Z.eqb_neq in IH.
    destruct (fst (MemoryStorage.delete_memory i d)).
    + assert (Hi : In i (MemoryStorage.ids d)) by (apply Hrem; reflexivity).
      simpl. rewrite IH.
      destruct (Z.eq_dec i j) as [-> | Hne]; intuition congruence.
    + assert (Hi : ~ In i (MemoryStorage.ids d)).
      { intros H; apply Hrem in H; discriminate H. }
      simpl. rewrite IH. intuition congruence.
Qed.

Lemma delete_each_NoDup (l : list Z) (d d2 : MemoryStorage.db)
    (deleted : list Z) :
  MemorySystem.delete_each l d = Ok (deleted, d2) -> NoDup deleted.
Proof.
  revert d deleted; induction l as [| i t IH]; intros d deleted H.
  - injection H as <- <-. constructor.
  - apply delete_each_cons_ok in H. destruct H as [_ [rest [Hrest ->]]].
    destruct (fst (MemoryStorage.delete_memory i d)); [| apply (IH _ _ Hrest)].
    constructor; [| apply (IH _ _ Hrest)].
    rewrite (delete_each_deleted _ _ _ _ i Hrest), delete_memory_ids,
      filter_In, Z.eqb_refl.
    intros [_ [_ H]]; discriminate H.
Qed.




(** ** What the listing and the ranking hand out *)

Lemma memory_of_row_fields (r : Row.t) (m : Memory.t) :
  MemoryStorage.memory_of_row r = Ok m ->
  Memory.id m = Row.id r
  /\ Memory.content m = Row.content r
  /\ Memory.created_at m = Row.created_at r
  /\ Memory.updated_at m = Row.updated_at r
  /\ Memory.similarity m = None.
Proof.
  unfold MemoryStorage.memory_of_row; intros H.
  apply bind_ok in H; destruct H as [e [_ H]].
  injection H as <-; simpl; repeat split.
Qed.

Lemma get_all_memories_ids (d : MemoryStorage.db) (all : list Memory.t) :
  MemoryStorage.get_all_memories d = Ok all ->
  map Memory.id all
  = map Row.id (MemoryStorage.order_by_created_at_desc (MemoryStorage.rows d)).
Proof.
  apply mapM_map_eq. intros r m H; apply (memory_of_row_fields r m H).
Qed.

Lemma get_all_memories_in (d : MemoryStorage.db) (all : list Memory.t) (i : Z) :
  MemoryStorage.get_all_memories d = Ok all ->
  (In i (map Memory.id all) <-> In i (MemoryStorage.ids d)).
Proof.
  intros H; rewrite (get_all_memories_ids d all H).
  unfold MemoryStorage.ids, MemoryStorage.order_by_created_at_desc.
  split; apply Permutation_in, Permutation_map;
    [| apply Permutation_sym]; apply stable_sort_perm.
Qed.

Lemma annotate_fields (q : Np.ndarray) (m m' : Memory.t) :
  MemoryRetriever.annotate q m = Ok m' ->
  exists s, m' = Memory.set_similarity m s.
Proof.
  unfold MemoryRetriever.annotate.
  destruct (Memory.embedding m) as [e |]; intros H.
  - apply bind_ok in H; destruct H as [s [_ H]]. injection H as <-.
    exists s; reflexivity.
  - injection H as <-. exists 0%float; reflexivity.
Qed.

Lemma sort_reverse_perm {A : Type} (key : A -> float) (l : list A) :
  Permutation (sort_reverse key l) l.
Proof.
  unfold sort_reverse.
  apply perm_trans with (stable_sort (fun a b => (key a <? key b)%float) (rev l)).
  - apply Permutation_sym, Permutation_rev.
  - apply perm_trans with (rev l).
    + apply stable_sort_perm.
    + apply Permutation_sym, Permutation_rev.
Qed.

Lemma retrieve_spec (c : OpenAIClient.t) (query : string)
    (memories : list Memory.t) (limit : Z) (relevant after : list Memory.t) :
  MemoryRetriever.retrieve_relevant_memories c query memories limit
  = Ok (relevant, after) ->
  exists q annotated,
    OpenAIClient.get_embedding c query = Ok q
    /\ mapM (MemoryRetriever.annotate q) memories = Ok annotated
    /\ after = sort_reverse Memory.similarity_key annotated
    /\ relevant = slice_to limit after.
Proof.
  unfold MemoryRetriever.retrieve_relevant_memories; intros H.
  apply bind_ok in H; destruct H as [q [Hq H]].
  apply bind_ok in H; destruct H as [annotated [Ha H]].
  apply bind_ok in H; destruct H as [sorted [Hs H]].
  injection H as <- <-.
  exists q, annotated. repeat split; try assumption.
  unfold Memory.sort_by_similarity in Hs.
  destruct (forallb Memory.has_similarity annotated); [| discriminate Hs].
  injection Hs as <-; reflexivity.
Qed.

Lemma retrieve_ids (c : OpenAIClient.t) (query : string)
    (memories : list Memory.t) (limit : Z) (relevant after : list Memory.t) :
  MemoryRetriever.retrieve_relevant_memories c query memories limit
  = Ok (relevant, after) ->
  forall m, In m relevant -> In (Memory.id m) (map Memory.id memories).
Proof.
  intros H m Hm.
  destruct (retrieve_spec _ _ _ _ _ _ H) as [q [annotated [_ [Ha [-> ->]]]]].
  apply slice_to_incl in Hm.
  apply (Permutation_in _ (sort_reverse_perm _ _)) in Hm.
  rewrite <- (mapM_map_eq (MemoryRetriever.annotate q) Memory.id Memory.id
                memories annotated).
  - apply in_map, Hm.
  - intros x y Hxy. destruct (annotate_fields q x y Hxy) as [s ->]. reflexivity.
  - exact Ha.
Qed.

(** ** One turn: deletions *)




(** The turn on data: of the ids 1 and 99 only 1 is reported, memory 2 is
    what remains and what is found relevant. *)
Example turn_outcome :
  MemorySystem.process_conversation Sample.services (fun _ => 300) Sample.turn
    false true Sample.two_memories = Ok Sample.outcome
  /\ MemorySystem.deleted_memories (fst Sample.outcome) = [1]
  /\ map Memory.id (MemorySystem.relevant_memories (fst Sample.outcome)) = [2]
  /\ MemoryStorage.ids (snd Sample.outcome) = [2].
Proof. repeat split; vm_compute; reflexivity. Qed.

(** ** One turn: deletions come before the lookup *)

Lemma deletion_step_spec (c : OpenAIClient.t) (conversation : list Message.t)
    (d1 d2 : MemoryStorage.db) (deleted : list Z) :
  MemorySystem.deletion_step c conversation true d1 = Ok (deleted, d2) ->
  exists l, MemorySystem.delete_each l d1 = Ok (deleted, d2).
Proof.
  unfold MemorySystem.deletion_step; intros H.
  apply bind_ok in H; destruct H as [all [_ H]].
  apply bind_ok in H; destruct H as [l [_ H]].
  exists l. destruct l as [| i t]; exact H.
Qed.

Lemma relevance_step_ids (c : OpenAIClient.t) (conversation : list Message.t)
    (d : MemoryStorage.db) (relevant : list Memory.t) :
  MemorySystem.relevance_step c conversation d = Ok relevant ->
  forall m, In m relevant -> In (Memory.id m) (MemoryStorage.ids d).
Proof.
  unfold MemorySystem.relevance_step; intros H m Hm.
  destruct conversation as [| m0 rest]; [injection H as <-; destruct Hm |].
  destruct (MemorySystem.last_user_message (m0 :: rest)) as [text |];
    [| injection H as <-; destruct Hm].
  destruct (String.eqb text ""); [injection H as <-; destruct Hm |].
  apply bind_ok in H; destruct H as [all [Hall H]].
  apply bind_ok in H; destruct H as [[rel after] [Hr H]].
  cbn beta iota in H. injection H as <-.
  apply (get_all_memories_in d all _ Hall).
  apply (retrieve_ids _ _ _ _ _ _ Hr m Hm).
Qed.

(** C3.  When [process_conversation] runs with curation enabled and
    returns, no record in [relevant_memories] carries an id listed in
    [deleted_memories]: the lookup reads the table after the deletions,
    so every relevant record is a row of the table the call leaves
    behind, and no deleted id is. *)
Theorem deleted_not_relevant (openai_client : OpenAIClient.t)
    (clock : nat -> Z) (conversation : list Message.t) (extract_memories : bool)
    (d d' : MemoryStorage.db) (res : MemorySystem.processed) :
  MemorySystem.process_conversation openai_client clock conversation
    extract_memories true d = Ok (res, d') ->
  (forall m, In m (MemorySystem.relevant_memories res) ->
     ~ In (Memory.id m) (MemorySystem.deleted_memories res))
  /\ (forall m, In m (MemorySystem.relevant_memories res) ->
        In (Memory.id m) (MemoryStorage.ids d'))
  /\ (forall i, In i (MemorySystem.deleted_memories res) ->
        ~ In i (MemoryStorage.ids d')).
Proof.
  unfold MemorySystem.process_conversation; intros H.
  apply bind_ok in H; destruct H as [[news d1] [_ H]].
  apply bind_ok in H; destruct H as [[deleted d2] [Hdel H]].
  apply bind_ok in H; destruct H as [relevant [Hrel H]].
  injection H as <- <-; simpl.
  destruct (deletion_step_spec _ _ _ _ _ Hdel) as [l Hl].
  assert (Hgone : forall i, In i deleted -> ~ In i (MemoryStorage.ids d2)).
  { intros i Hi. rewrite (delete_each_ids _ _ _ _ i Hl).
    apply (delete_each_deleted _ _ _ _ i Hl) in Hi. tauto. }
  assert (Hkept : forall m, In m relevant -> In (Memory.id m) (MemoryStorage.ids d2))
    by (apply (relevance_step_ids _ _ _ _ Hrel)).
  split; [| split; assumption].
  intros m Hm Hd. apply (Hgone _ Hd), Hkept, Hm.
Qed.

Lemma deleted_not_relevant_witness :
  (forall m, In m (MemorySystem.relevant_memories (fst Sample.outcome)) ->
     ~ In (Memory.id m) (MemorySystem.deleted_memories (fst Sample.outcome)))
  /\ (forall m, In m (MemorySystem.relevant_memories (fst Sample.outcome)) ->
        In (Memory.id m) (MemoryStorage.ids (snd Sample.outcome)))
  /\ (forall i, In i (MemorySystem.deleted_memories (fst Sample.outcome)) ->
        ~ In i (MemoryStorage.ids (snd Sample.outcome))).
Proof.
  apply (deleted_not_relevant Sample.services (fun _ => 300) Sample.turn false
           Sample.two_memories (snd Sample.outcome) (fst Sample.outcome)).
  vm_compute; reflexivity.
Defined.

(** ** Listing the table *)

Lemma created_before_asym (a b : Row.t) :
  (Row.created_at b <? Row.created_at a) = true ->
  (Row.created_at a <? Row.created_at b) = false.
Proof. rewrite Z.ltb_lt, Z.ltb_ge; lia. Qed.

Lemma order_by_created_at_desc_sorted (rs : list Row.t) :
  StronglySorted (fun a b => Row.created_at b <= Row.created_at a)
    (MemoryStorage.order_by_created_at_desc rs).
Proof.
  unfold MemoryStorage.order_by_created_at_desc.
  apply (StronglySorted_impl
           (not_after (fun a b => Row.created_at b <? Row.created_at a))).
  - intros a b _ _; unfold not_after; rewrite Z.ltb_ge; lia.
  - apply (stable_sort_sorted _ (fun _ => True)).
    + intros a b _ _; apply created_before_asym.
    + intros a b c _ _ _; rewrite !Z.ltb_ge; lia.
    + rewrite Forall_forall; trivial.
Qed.

Lemma Forall2_StronglySorted {A B : Type} (R : A -> A -> Prop)
    (S : B -> B -> Prop) (T : A -> B -> Prop) (l : list A) (l' : list B) :
  (forall a b a' b', T a a' -> T b b' -> R a b -> S a' b') ->
  Forall2 T l l' -> StronglySorted R l -> StronglySorted S l'.
Proof.
  intros HRS H; induction H as [| x y t t' Hxy Ht IH]; intros Hs.
  - constructor.
  - apply StronglySorted_inv in Hs; destruct Hs as [Hs Hx].
    constructor; [apply IH, Hs |].
    clear IH Hs. induction Ht as [| x2 y2 t2 t2' Hxy2 _ IH2]; constructor.
    + inversion Hx; subst. apply (HRS x x2); assumption.
    + apply IH2. inversion Hx; assumption.
Qed.

(** [get_all_memories] lists every row, later [created_at] first. *)
Lemma get_all_memories_recent_first (d : MemoryStorage.db) (all : list Memory.t) :
  MemoryStorage.get_all_memories d = Ok all ->
  Ranked.recent_first all
  /\ Permutation (map Memory.id all) (MemoryStorage.ids d).
Proof.
  intros H; split.
  - apply mapM_ok_Forall2 in H.
    unfold Ranked.recent_first.
    eapply Forall2_StronglySorted;
      [| exact H | apply order_by_created_at_desc_sorted].
    intros a b a' b' Ha Hb Hab. simpl in *.
    destruct (memory_of_row_fields _ _ Ha) as [_ [_ [-> _]]].
    destruct (memory_of_row_fields _ _ Hb) as [_ [_ [-> _]]].
    exact Hab.
  - rewrite (get_all_memories_ids d all H).
    apply Permutation_map, stable_sort_perm.
Qed.

(** C5, the second half, on the table of [test_get_all_memories]: three
    memories added within one second are listed oldest first, ids 1, 2,
    3, where the claim and the test expect 3, 2, 1.  The statement orders
    by [created_at] alone and rows with equal [created_at] stay in rowid
    order. *)
Theorem get_all_memories_same_second :
  exists all,
    MemoryStorage.get_all_memories Sample.three_memories = Ok all
    /\ map Memory.content all = ["Memory 1"; "Memory 2"; "Memory 3"]
    /\ map Memory.id all = [1; 2; 3]
    /\ map Memory.created_at all = [100; 100; 100]
    /\ Ranked.recent_first all
    /\ ~ Ranked.created_ties_by_id_desc all.
Proof.
  eexists; split; [vm_compute; reflexivity |].
  split; [reflexivity |]. split; [reflexivity |]. split; [reflexivity |].
  split.
  - repeat constructor; simpl; lia.
  - intros H. apply StronglySorted_inv in H. destruct H as [_ H].
    inversion H as [| ? ? H12 _]; subst. simpl in H12.
    specialize (H12 eq_refl). lia.
Qed.

(** ** Ranking: order and ties *)

Lemma SFeqb_refl_r (x y : spec_float) :
  SFeqb x y = true -> SFeqb y y = true.
Proof.
  unfold SFeqb.
  destruct x as [[]|[]| |[] m1 e1], y as [[]|[]| |[] m2 e2]; spec_float_cases.
Qed.

Lemma eqb_refl_r (x y : float) :
  (x =? y)%float = true -> (y =? y)%float = true.
Proof. rewrite !eqb_spec; apply SFeqb_refl_r. Qed.

Section SortReverse.

Context {A : Type}.
Variable key : A -> float.

Lemma sort_reverse_sorted (l : list A) :
  Forall (fun a => PrimFloat.is_nan (key a) = false) l ->
  StronglySorted (fun a b => (key b <=? key a)%float = true)
    (sort_reverse key l).
Proof.
  intros Hl. unfold sort_reverse.
  assert (Hrev : Forall (fun a => PrimFloat.is_nan (key a) = false) (rev l)).
  { rewrite Forall_forall in Hl |- *. intros a Ha. apply Hl, in_rev, Ha. }
  pose proof (stable_sort_sorted (fun a b => (key a <? key b)%float)
                (fun a => PrimFloat.is_nan (key a) = false)
                (fun a b _ _ => ltb_asym (key a) (key b))
                (fun a b c Ha Hb Hc => ltb_not_trans (key a) (key b) (key c) Ha Hb Hc)
                (rev l) Hrev) as Hs.
  apply StronglySorted_rev in Hs.
  eapply StronglySorted_impl; [| exact Hs].
  intros a b Ha Hb Hab. unfold not_after in Hab. simpl in Hab.
  assert (Hin : forall x, In x (rev (stable_sort (fun a b => (key a <? key b)%float) (rev l))) ->
                          PrimFloat.is_nan (key x) = false).
  { intros x Hx. rewrite Forall_forall in Hrev. apply Hrev.
    apply in_rev in Hx.
    exact (Permutation_in _ (stable_sort_perm _ (rev l)) Hx). }
  apply ltb_false_leb; auto.
Qed.

Lemma sort_reverse_ties (l : list A) (k : float) :
  filter (fun a => (key a =? k)%float) (sort_reverse key l)
  = filter (fun a => (key a =? k)%float) l.
Proof.
  unfold sort_reverse.
  rewrite filter_rev, stable_sort_filter, filter_rev, rev_involutive.
  - reflexivity.
  - intros a b Ha Hb. apply (eqb_not_ltb _ _ k); assumption.
Qed.

Lemma StronglySorted_filter (R : A -> A -> Prop) (p : A -> bool) (l : list A) :
  StronglySorted R l -> StronglySorted R (filter p l).
Proof.
  induction 1 as [| x t Ht IH Hx]; simpl.
  - constructor.
  - destruct (p x); [| exact IH].
    constructor; [exact IH |].
    rewrite Forall_forall in Hx |- *. intros y Hy.
    apply filter_In in Hy. apply Hx, Hy.
Qed.

(** Sorted classes of equal keys make the whole list sorted among equal
    keys. *)
Lemma ties_sorted_by_class (R : A -> A -> Prop) (l : list A) :
  (forall k, StronglySorted R (filter (fun a => (key a =? k)%float) l)) ->
  StronglySorted (fun a b => (key a =? key b)%float = true -> R a b) l.
Proof.
  induction l as [| x t IH]; intros H.
  - constructor.
  - constructor.
    + apply IH. intros k. specialize (H k). simpl in H.
      destruct (key x =? k)%float; [| exact H].
      apply StronglySorted_inv in H; apply H.
    + rewrite Forall_forall. intros y Hy Hxy.
      specialize (H (key y)). simpl in H. rewrite Hxy in H.
      apply StronglySorted_inv in H. destruct H as [_ H].
      rewrite Forall_forall in H. apply H.
      apply filter_In. split; [exact Hy | apply (eqb_refl_r _ _ Hxy)].
Qed.

End SortReverse.

Lemma no_nan_perm (l l' : list Memory.t) :
  Permutation l l' -> Ranked.no_nan l -> Ranked.no_nan l'.
Proof. intros Hp; apply (Permutation_Forall Hp). Qed.

(** What sorting by similarity achieves, for any list without a NaN
    similarity. *)
Lemma sort_reverse_ranked (l : list Memory.t) (limit : Z) :
  Ranked.no_nan l ->
  Ranked.by_similarity (slice_to limit (sort_reverse Memory.similarity_key l))
  /\ Ranked.ties_as_in l (sort_reverse Memory.similarity_key l)
  /\ (Ranked.recent_first l ->
      Ranked.ties_recent_first
        (slice_to limit (sort_reverse Memory.similarity_key l))).
Proof.
  intros Hn. split; [| split].
  - apply slice_to_sorted, sort_reverse_sorted, Hn.
  - intros k; apply sort_reverse_ties.
  - intros Hr. apply slice_to_sorted, ties_sorted_by_class.
    intros k. rewrite sort_reverse_ties. apply StronglySorted_filter, Hr.
Qed.

Lemma similar_of_row_fields (q : Np.ndarray) (r : Row.t) (m : Memory.t) :
  MemoryStorage.similar_of_row q r = Ok m ->
  Memory.id m = Row.id r /\ Memory.has_similarity m = true.
Proof.
  unfold MemoryStorage.similar_of_row.
  destruct (Row.embedding r) as [b |]; intros H; [| discriminate H].
  apply bind_ok in H; destruct H as [e [_ H]].
  apply bind_ok in H; destruct H as [s [_ H]].
  injection H as <-. split; reflexivity.
Qed.

Lemma mapM_forallb {A B : Type} (f : A -> result B) (p : B -> bool)
    (l : list A) (l' : list B) :
  (forall x y, f x = Ok y -> p y = true) ->
  mapM f l = Ok l' -> forallb p l' = true.
Proof.
  intros Hf H. apply mapM_ok_Forall2 in H.
  induction H as [| x y t t' Hxy _ IH]; simpl.
  - reflexivity.
  - rewrite (Hf _ _ Hxy), IH; reflexivity.
Qed.

(** C1, as the code has it.  When no similarity is NaN, what
    [retrieve_relevant_memories] and [find_similar_memories] return is
    sorted non-increasing by similarity, and entries with equal
    similarity keep the order the candidates came in: the order of the
    caller's list, and rowid order for [find_similar_memories].  Equal
    entries are therefore most recent first when the caller's list is,
    as the list from [get_all_memories] is. *)
Theorem ranking_sorted_ties_stable (openai_client : OpenAIClient.t)
    (query : string) (memories : list Memory.t) (limit : Z)
    (relevant after : list Memory.t)
    (query_embedding : Np.ndarray) (limit' : Z) (d : MemoryStorage.db)
    (scored : list Memory.t) :
  MemoryRetriever.retrieve_relevant_memories openai_client query memories limit
  = Ok (relevant, after) ->
  Ranked.no_nan after ->
  mapM (MemoryStorage.similar_of_row query_embedding)
       (filter MemoryStorage.has_embedding (MemoryStorage.rows d)) = Ok scored ->
  Ranked.no_nan scored ->
  (Ranked.by_similarity relevant
   /\ (exists annotated,
         Forall2 (fun m m' => exists s, m' = Memory.set_similarity m s)
                 memories annotated
         /\ Ranked.ties_as_in annotated after
         /\ relevant = slice_to limit after)
   /\ (Ranked.recent_first memories -> Ranked.ties_recent_first relevant))
  /\ (exists found sorted,
        MemoryStorage.find_similar_memories query_embedding limit' d = Ok found
        /\ found = slice_to limit' sorted
        /\ Ranked.by_similarity found
        /\ Ranked.ties_as_in scored sorted
        /\ map Memory.id scored
           = map Row.id (filter MemoryStorage.has_embedding
                           (MemoryStorage.rows d))).
Proof.
  intros Hret Hnan Hscored Hnan'. split.
  - destruct (retrieve_spec _ _ _ _ _ _ Hret)
      as [q [annotated [_ [Hann [Hafter Hrel]]]]].
    assert (Hn : Ranked.no_nan annotated).
    { apply (no_nan_perm after); [| exact Hnan].
      rewrite Hafter; apply sort_reverse_perm. }
    destruct (sort_reverse_ranked annotated limit Hn) as [Hs [Ht Hr]].
    assert (Hpairs : Forall2 (fun m m' => exists s, m' = Memory.set_similarity m s)
                       memories annotated).
    { apply mapM_ok_Forall2 in Hann.
      eapply Forall2_impl; [| exact Hann].
      intros x y Hxy; exact (annotate_fields q x y Hxy). }
    subst after relevant. split; [exact Hs | split].
    + exists annotated. repeat split; assumption.
    + intros Hrecent. apply Hr.
      unfold Ranked.recent_first in *.
      eapply Forall2_StronglySorted; [| exact Hpairs | exact Hrecent].
      intros a b a' b' [sa ->] [sb ->] Hab; exact Hab.
  - exists (slice_to limit' (sort_reverse Memory.similarity_key scored)),
           (sort_reverse Memory.similarity_key scored).
    destruct (sort_reverse_ranked scored limit' Hnan') as [Hs [Ht _]].
    split; [| split; [reflexivity | split; [exact Hs | split; [exact Ht |]]]].
    + unfold MemoryStorage.find_similar_memories. rewrite Hscored; cbn [bind].
      unfold Memory.sort_by_similarity.
      rewrite (mapM_forallb _ Memory.has_similarity _ _
                 (fun x y H => proj2 (similar_of_row_fields _ x y H)) Hscored).
      reflexivity.
    + apply (mapM_map_eq _ Row.id Memory.id _ _
               (fun x y H => proj1 (similar_of_row_fields _ x y H)) Hscored).
Qed.

Lemma ranking_sorted_ties_stable_witness :
  (Ranked.by_similarity (fst Sample.ranking)
   /\ (exists annotated,
         Forall2 (fun m m' => exists s, m' = Memory.set_similarity m s)
                 Sample.listing annotated
         /\ Ranked.ties_as_in annotated (snd Sample.ranking)
         /\ fst Sample.ranking = slice_to 1 (snd Sample.ranking))
   /\ (Ranked.recent_first Sample.listing ->
       Ranked.ties_recent_first (fst Sample.ranking)))
  /\ (exists found sorted,
        MemoryStorage.find_similar_memories Sample.query_vector 5 Sample.twins
        = Ok found
        /\ found = slice_to 5 sorted
        /\ Ranked.by_similarity found
        /\ Ranked.ties_as_in Sample.scored sorted
        /\ map Memory.id Sample.scored
           = map Row.id (filter MemoryStorage.has_embedding
                           (MemoryStorage.rows Sample.twins))).
Proof.
  apply (ranking_sorted_ties_stable Sample.services "fruit" Sample.listing 1
           (fst Sample.ranking) (snd Sample.ranking)
           Sample.query_vector 5 Sample.twins Sample.scored).
  - vm_compute; reflexivity.
  - repeat constructor.
  - vm_compute; reflexivity.
  - repeat constructor.
Defined.

(** C1 as stated fails on ties.  [find_similar_memories] scans the table
    in rowid order and the sort keeps equal similarities in that order,
    so of two memories with the same embedding the older one comes
    first; [retrieve_relevant_memories] keeps the order of the list it is
    given.  No mechanism compares [created_at].  It also fails once a
    similarity is NaN, which no comparison places: a record ranked NaN
    stays in front of one ranked 0. *)
Lemma ranking_ties_oldest_first :
  (exists found,
     MemoryStorage.find_similar_memories Sample.query_vector 5 Sample.twins
     = Ok found
     /\ map Memory.id found = [1; 2]
     /\ map Memory.created_at found = [100; 200]
     /\ map Memory.similarity found
        = [Some 0x1.6a09e667f3bccp-1%float; Some 0x1.6a09e667f3bccp-1%float]
     /\ Ranked.by_similarity found
     /\ ~ Ranked.ties_recent_first found)
  /\ (exists relevant after,
        MemoryRetriever.retrieve_relevant_memories Sample.services "fruit"
          [Sample.older; Sample.newer] 5 = Ok (relevant, after)
        /\ map Memory.created_at relevant = [100; 200]
        /\ map Memory.similarity relevant = [Some 0%float; Some 0%float]
        /\ ~ Ranked.ties_recent_first relevant)
  /\ (exists relevant after,
        MemoryRetriever.retrieve_relevant_memories Sample.services "fruit"
          [Sample.blank; Sample.older] 5 = Ok (relevant, after)
        /\ map Memory.similarity relevant = [Some nan; Some 0%float]
        /\ ~ Ranked.by_similarity relevant).
Proof.
  split; [| split].
  - eexists. split; [vm_compute; reflexivity |].
    repeat (split; [reflexivity |]).
    split.
    + repeat constructor.
    + intros H. apply StronglySorted_inv in H. destruct H as [_ H].
      inversion H as [| ? ? H12 _]; subst. simpl in H12.
      specialize (H12 eq_refl). lia.
  - eexists; eexists. split; [vm_compute; reflexivity |].
    repeat (split; [reflexivity |]).
    intros H. apply StronglySorted_inv in H. destruct H as [_ H].
    inversion H as [| ? ? H12 _]; subst. simpl in H12.
    specialize (H12 eq_refl). lia.
  - eexists; eexists. split; [vm_compute; reflexivity |].
    split; [reflexivity |].
    intros H. apply StronglySorted_inv in H. destruct H as [_ H].
    inversion H as [| ? ? H12 _]; subst.
    vm_compute in H12. discriminate H12.
Qed.

(** ** Ranking: what happens to the caller's list *)

Lemma Forall2_length_eq {A B : Type} (R : A -> B -> Prop) (l : list A) (l' : list B) :
  Forall2 R l l' -> List.length l = List.length l'.
Proof. induction 1; simpl; congruence. Qed.

(** C10.  [retrieve_relevant_memories] works on the caller's list itself.
    When it returns, that list holds every element it held, each with a
    [similarity] set, those past the limit included, and the value
    returned is the prefix of that list.  When no similarity is NaN the
    list is in ranking order: similarities do not increase along it, and
    elements with equal similarity keep the order they had.  A list with
    an element that had no [similarity] is therefore not what it was. *)
Theorem retrieve_mutates_argument (openai_client : OpenAIClient.t)
    (query : string) (memories : list Memory.t) (limit : Z)
    (relevant after : list Memory.t) :
  MemoryRetriever.retrieve_relevant_memories openai_client query memories limit
  = Ok (relevant, after) ->
  (exists annotated,
     Forall2 (fun m m' => exists s, m' = Memory.set_similarity m s)
             memories annotated
     /\ Permutation after annotated
     /\ (Ranked.no_nan after ->
         Ranked.by_similarity after /\ Ranked.ties_as_in annotated after))
  /\ List.length after = List.length memories
  /\ Forall (fun m => Memory.has_similarity m = true) after
  /\ relevant = slice_to limit after
  /\ (Exists (fun m => Memory.similarity m = None) memories ->
      after <> memories).
Proof.
  intros Hret.
  destruct (retrieve_spec _ _ _ _ _ _ Hret)
    as [q [annotated [_ [Hann [Hafter Hrel]]]]].
  assert (Hpairs : Forall2 (fun m m' => exists s, m' = Memory.set_similarity m s)
                     memories annotated).
  { apply mapM_ok_Forall2 in Hann.
    eapply Forall2_impl; [| exact Hann].
    intros x y Hxy; exact (annotate_fields q x y Hxy). }
  assert (Hperm : Permutation after annotated)
    by (rewrite Hafter; apply sort_reverse_perm).
  assert (Hall : Forall (fun m => Memory.has_similarity m = true) after).
  { apply (Permutation_Forall (Permutation_sym Hperm)).
    clear - Hpairs. induction Hpairs as [| x y t t' [s ->] _ IH]; constructor.
    - reflexivity.
    - exact IH. }
  split.
  { exists annotated. split; [exact Hpairs | split; [exact Hperm |]].
    intros Hnan.
    assert (Hn : Ranked.no_nan annotated) by (apply (no_nan_perm after); assumption).
    rewrite Hafter. split.
    - apply sort_reverse_sorted, Hn.
    - intros k. apply sort_reverse_ties. }
  split.
  { rewrite (Permutation_length Hperm).
    symmetry; apply (Forall2_length_eq _ _ _ Hpairs). }
  split; [exact Hall |]. split; [exact Hrel |].
  intros Hex Heq. rewrite Heq in Hall.
  apply Exists_exists in Hex. destruct Hex as [m [Hin Hnone]].
  rewrite Forall_forall in Hall. specialize (Hall m Hin).
  unfold Memory.has_similarity in Hall. rewrite Hnone in Hall.
  discriminate Hall.
Qed.

Lemma retrieve_mutates_argument_witness :
  (exists annotated,
     Forall2 (fun m m' => exists s, m' = Memory.set_similarity m s)
             unranked annotated
     /\ Permutation (snd reordering) annotated
     /\ (Ranked.no_nan (snd reordering) ->
         Ranked.by_similarity (snd reordering)
         /\ Ranked.ties_as_in annotated (snd reordering)))
  /\ List.length (snd reordering) = List.length unranked
  /\ Forall (fun m => Memory.has_similarity m = true) (snd reordering)
  /\ fst reordering = slice_to 1 (snd reordering)
  /\ (Exists (fun m => Memory.similarity m = None) unranked ->
      snd reordering <> unranked).
Proof.
  apply (retrieve_mutates_argument Sample.services "fruit" unranked 1
           (fst reordering) (snd reordering)).
  vm_compute; reflexivity.
Defined.

(** C10 as stated fails where the call has nothing to change.  An empty
    list stays empty, and a list that already carries these similarities
    in ranking order, as the caller's list does after a first call, is
    after a second call what it was before it. *)
Lemma retrieve_leaves_ranked_list :
  MemoryRetriever.retrieve_relevant_memories Sample.services "fruit" [] 5
  = Ok ([], [])
  /\ MemoryRetriever.retrieve_relevant_memories Sample.services "fruit"
       Sample.listing 5 = Ok (snd Sample.ranking, snd Sample.ranking)
  /\ MemoryRetriever.retrieve_relevant_memories Sample.services "fruit"
       (snd Sample.ranking) 5 = Ok (snd Sample.ranking, snd Sample.ranking)
  /\ snd Sample.ranking <> [].
Proof.
  repeat split; try (vm_compute; reflexivity). discriminate.
Qed.

(** On data: the caller's list [opposed; older] comes back as
    [older; opposed], both with a similarity, and with limit 1 only
    [older] is returned. *)
Example retrieve_reorders :
  map Memory.id unranked = [4; 1]
  /\ map Memory.id (snd reordering) = [1; 4]
  /\ map Memory.id (fst reordering) = [1]
  /\ map Memory.similarity unranked = [None; None]
  /\ map Memory.similarity (snd reordering)
     = [Some 0%float; Some (-0x1.6a09e667f3bccp-1)%float].
Proof. repeat split. Qed.

(** On data: with limit 1 one record is returned, and the caller's two
    records both carry a similarity afterwards. *)
Example retrieve_mutates_past_limit :
  map Memory.id (fst Sample.ranking) = [2]
  /\ map Memory.similarity Sample.listing = [None; None]
  /\ map Memory.similarity (snd Sample.ranking)
     = [Some 0x1.6a09e667f3bccp-1%float; Some 0x1.6a09e667f3bccp-1%float].
Proof. repeat split. Qed.

(** ** Ranking: zero vectors *)

Lemma is_zero_or_nan (x : float) :
  PrimFloat.is_zero x = true -> Zero.or_nan x.
Proof.
  unfold PrimFloat.is_zero, Zero.or_nan. rewrite eqb_spec.
  change (Prim2SF zero) with (S754_zero false).
  destruct (Prim2SF x) as [[]|[]| |[] m e]; simpl; intros H;
    try exact I; discriminate H.
Qed.

Lemma mul_zero_or_nan_l (x y : float) :
  Zero.or_nan x -> Zero.or_nan (x * y)%float.
Proof.
  unfold Zero.or_nan. rewrite mul_spec.
  destruct (Prim2SF x) as [[]|[]| |[] m e]; simpl; intros H; try destruct H;
    destruct (Prim2SF y) as [[]|[]| |[] m' e']; exact I.
Qed.

Lemma mul_zero_or_nan_r (x y : float) :
  Zero.or_nan y -> Zero.or_nan (x * y)%float.
Proof.
  unfold Zero.or_nan. rewrite mul_spec.
  destruct (Prim2SF y) as [[]|[]| |[] m e]; simpl; intros H; try destruct H;
    destruct (Prim2SF x) as [[]|[]| |[] m' e']; exact I.
Qed.

Lemma add_zero_or_nan (x y : float) :
  Zero.or_nan x -> Zero.or_nan y -> Zero.or_nan (x + y)%float.
Proof.
  unfold Zero.or_nan. rewrite add_spec.
  destruct (Prim2SF x) as [[]|[]| |[] m e]; simpl; intros H; try destruct H;
    destruct (Prim2SF y) as [[]|[]| |[] m' e']; simpl; intros H';
    try destruct H'; exact I.
Qed.

Lemma sqrt_zero_or_nan (x : float) :
  Zero.or_nan x -> Zero.or_nan (PrimFloat.sqrt x).
Proof.
  unfold Zero.or_nan. rewrite sqrt_spec.
  destruct (Prim2SF x) as [[]|[]| |[] m e]; simpl; intros H; try destruct H;
    exact I.
Qed.

Lemma div_zero_or_nan (x y : float) :
  Zero.or_nan x -> Zero.or_nan y -> Prim2SF (x / y)%float = S754_nan.
Proof.
  unfold Zero.or_nan. rewrite div_spec.
  destruct (Prim2SF x) as [[]|[]| |[] m e]; simpl; intros H; try destruct H;
    destruct (Prim2SF y) as [[]|[]| |[] m' e']; simpl; intros H';
    try destruct H'; reflexivity.
Qed.

Lemma nan_not_zero (x : float) :
  Prim2SF x = S754_nan -> (x =? 0)%float = false.
Proof. intros H. rewrite eqb_spec, H. reflexivity. Qed.

Lemma sum_products_zero_or_nan (xs ys : list float) :
  Forall (fun x => PrimFloat.is_zero x = true) xs
  \/ Forall (fun y => PrimFloat.is_zero y = true) ys ->
  Zero.or_nan (Np.sum_products xs ys).
Proof.
  intros H. unfold Np.sum_products.
  assert (Hp : Forall (fun p => Zero.or_nan (fst p * snd p)%float)
                 (combine xs ys)).
  { rewrite Forall_forall. intros [x y] Hin; simpl.
    destruct H as [H | H]; rewrite Forall_forall in H.
    - apply mul_zero_or_nan_l, is_zero_or_nan, H, (in_combine_l _ _ _ _ Hin).
    - apply mul_zero_or_nan_r, is_zero_or_nan, H, (in_combine_r _ _ _ _ Hin). }
  assert (H0 : Zero.or_nan 0%float) by exact I.
  revert H0. generalize 0%float as acc.
  induction Hp as [| p t Hp _ IH]; simpl; intros acc Hacc.
  - exact Hacc.
  - apply IH, add_zero_or_nan; assumption.
Qed.

Lemma cosine_zero_vector (q e : Np.ndarray) :
  Np.size q = Np.size e ->
  Zero.vector q = true \/ Zero.vector e = true ->
  exists s, Np.cosine q e = Ok s /\ Prim2SF s = S754_nan.
Proof.
  intros Hsize Hz. unfold Np.cosine, Np.dot.
  rewrite Hsize, Nat.eqb_refl; cbn [bind].
  eexists; split; [reflexivity |].
  unfold Zero.vector in Hz. rewrite !forallb_forall, <- !Forall_forall in Hz.
  apply div_zero_or_nan.
  - apply sum_products_zero_or_nan, Hz.
  - unfold Np.norm. destruct Hz as [Hz | Hz].
    + apply mul_zero_or_nan_l, sqrt_zero_or_nan, sum_products_zero_or_nan.
      left; exact Hz.
    + apply mul_zero_or_nan_r, sqrt_zero_or_nan, sum_products_zero_or_nan.
      left; exact Hz.
Qed.

(** C2, as the code has it.  When the query vector or a candidate's
    embedding is a zero vector of the same length, both rankings assign
    that candidate the NaN that 0/0 yields, not 0.  No exception is
    raised. *)
Theorem zero_vector_similarity_nan (query_embedding e : Np.ndarray) :
  Np.size query_embedding = Np.size e ->
  Zero.vector query_embedding = true \/ Zero.vector e = true ->
  exists s,
    PrimFloat.is_nan s = true
    /\ (s =? 0)%float = false
    /\ (forall memory, Memory.embedding memory = Some e ->
          MemoryRetriever.annotate query_embedding memory
          = Ok (Memory.set_similarity memory s))
    /\ (forall r b, Row.embedding r = Some b ->
          Np.frombuffer b Np.float32 = Ok e ->
          exists m, MemoryStorage.similar_of_row query_embedding r = Ok m
                    /\ Memory.similarity m = Some s).
Proof.
  intros Hsize Hz.
  destruct (cosine_zero_vector _ _ Hsize Hz) as [s [Hcos Hnan]].
  exists s. split; [apply nan_spec, Hnan |].
  split; [apply nan_not_zero, Hnan |]. split.
  - intros memory He. unfold MemoryRetriever.annotate.
    rewrite He, Hcos. reflexivity.
  - intros r b Hb Hbuf. unfold MemoryStorage.similar_of_row.
    rewrite Hb, Hbuf; cbn [bind]. rewrite Hcos; cbn [bind].
    eexists; split; reflexivity.
Qed.

Lemma zero_vector_similarity_nan_witness :
  exists s,
    PrimFloat.is_nan s = true
    /\ (s =? 0)%float = false
    /\ (forall memory,
          Memory.embedding memory = Some (Np.of_bits Np.float32 [0; 0]) ->
          MemoryRetriever.annotate Sample.query_vector memory
          = Ok (Memory.set_similarity memory s))
    /\ (forall r b, Row.embedding r = Some b ->
          Np.frombuffer b Np.float32 = Ok (Np.of_bits Np.float32 [0; 0]) ->
          exists m, MemoryStorage.similar_of_row Sample.query_vector r = Ok m
                    /\ Memory.similarity m = Some s).
Proof.
  apply (zero_vector_similarity_nan Sample.query_vector
           (Np.of_bits Np.float32 [0; 0])).
  - reflexivity.
  - right; vm_compute; reflexivity.
Defined.

(** C2 as stated fails: a candidate whose embedding is the zero vector
    is ranked with similarity NaN, which is not 0. *)
Lemma zero_vector_similarity_not_zero :
  exists relevant after,
    MemoryRetriever.retrieve_relevant_memories Sample.services "fruit"
      [Sample.blank] 5 = Ok (relevant, after)
    /\ map Memory.similarity relevant = [Some nan]
    /\ Some nan <> Some 0%float
    /\ (nan =? 0)%float = false.
Proof.
  eexists; eexists. split; [vm_compute; reflexivity |].
  split; [reflexivity |]. split; [| reflexivity].
  intros H.
  pose proof (f_equal (fun o => match o with
                                | Some x => PrimFloat.is_nan x
                                | None => false
                                end) H) as H'.
  vm_compute in H'. discriminate H'.
Qed.

(** ** [LIKE] finds a substring *)

Lemma like_chars_cons (c : ascii) (p s : list ascii) :
  Sql.like_chars (c :: p) s
  = if Ascii.eqb c "%" then
      Sql.like_chars p s
      || match s with [] => false | _ :: s' => Sql.like_chars (c :: p) s' end
    else if Ascii.eqb c "_" then
      match s with [] => false | _ :: s' => Sql.like_chars p s' end
    else
      match s with
      | [] => false
      | d :: s' => Ascii.eqb (Sql.upper c) (Sql.upper d) && Sql.like_chars p s'
      end.
Proof.
  cbn [Sql.like_chars].
  destruct (Ascii.eqb c "%"); [destruct s; reflexivity |].
  destruct (Ascii.eqb c "_"); reflexivity.
Qed.




Lemma list_ascii_of_string_app (a b : string) :
  list_ascii_of_string (a ++ b)
  = (list_ascii_of_string a ++ list_ascii_of_string b)%list.
Proof.
  induction a as [| c a IH]; simpl; [reflexivity | rewrite IH; reflexivity].
Qed.


(** ** Records without an embedding *)


Lemma mapM_In {A B : Type} (f : A -> result B) (l : list A) (l' : list B) (x : A) :
  mapM f l = Ok l' -> In x l -> exists y, f x = Ok y /\ In y l'.
Proof.
  intros H; apply mapM_ok_Forall2 in H.
  induction H as [| a b t t' Hab _ IH]; intros Hin.
  - destruct Hin.
  - destruct Hin as [-> | Hin].
    + exists b; split; [exact Hab | left; reflexivity].
    + destruct (IH Hin) as [y [Hy Hin']]. exists y; split; [exact Hy | right; exact Hin'].
Qed.

Lemma mapM_In_inv {A B : Type} (f : A -> result B) (l : list A) (l' : list B) (y : B) :
  mapM f l = Ok l' -> In y l' -> exists x, f x = Ok y /\ In x l.
Proof.
  intros H; apply mapM_ok_Forall2 in H.
  induction H as [| a b t t' Hab _ IH]; intros Hin.
  - destruct Hin.
  - destruct Hin as [-> | Hin].
    + exists a; split; [exact Hab | left; reflexivity].
    + destruct (IH Hin) as [x [Hx Hin']]. exists x; split; [exact Hx | right; exact Hin'].
Qed.








(** The same holds whatever order the caller lists the two records in. *)
Example absent_embedding_not_last_either_way :
  exists relevant after,
    MemoryRetriever.retrieve_relevant_memories Sample.services "fruit"
      [Sample.opposed; Sample.older] 5 = Ok (relevant, after)
    /\ map Memory.id relevant = [1; 4].
Proof. do 2 eexists. split; [vm_compute; reflexivity | reflexivity]. Qed.

(** * Further properties *)

(** ** Histories of the store: ids *)

Lemma add_memory_ids (now : Z) (c : string) (e : option Np.ndarray)
    (m : option Py.val) (d : MemoryStorage.db) :
  MemoryStorage.ids (snd (MemoryStorage.add_memory now c e m d))
  = (MemoryStorage.ids d ++ [MemoryStorage.next_id d])%list
  /\ MemoryStorage.seq (snd (MemoryStorage.add_memory now c e m d))
     = MemoryStorage.next_id d
  /\ fst (MemoryStorage.add_memory now c e m d) = MemoryStorage.next_id d.
Proof.
  unfold MemoryStorage.add_memory, MemoryStorage.ids; simpl.
  rewrite map_app; simpl. repeat split.
Qed.

Lemma update_memory_ids (now i : Z) (c : option string)
    (e : option Np.ndarray) (m : option Py.val) (d : MemoryStorage.db) :
  MemoryStorage.ids (snd (MemoryStorage.update_memory now i c e m d))
  = MemoryStorage.ids d
  /\ MemoryStorage.seq (snd (MemoryStorage.update_memory now i c e m d))
     = MemoryStorage.seq d.
Proof.
  unfold MemoryStorage.update_memory, MemoryStorage.ids.
  destruct (find _ _); [| split; reflexivity].
  destruct (_ && _); [split; reflexivity |]. simpl. split; [| reflexivity].
  rewrite map_map. apply map_ext. intros r.
  destruct (Row.id r =? i); [| reflexivity].
  destruct c, e, m; reflexivity.
Qed.

Lemma max_rowid_le (rs : list Row.t) (s : Z) :
  0 <= s -> Forall (fun i => 0 < i <= s) (map Row.id rs) ->
  MemoryStorage.max_rowid rs <= s.
Proof.
  intros Hs H. induction rs as [| r t IH]; simpl in *.
  - exact Hs.
  - inversion H; subst. specialize (IH H3). lia.
Qed.

Lemma next_id_counter (d : MemoryStorage.db) :
  Store.invariant d -> MemoryStorage.next_id d = MemoryStorage.seq d + 1.
Proof.
  intros [_ [Hb Hs]]. unfold MemoryStorage.next_id.
  pose proof (max_rowid_le (MemoryStorage.rows d) _ Hs Hb). lia.
Qed.

Lemma step_invariant (o : Store.op) (d : MemoryStorage.db) :
  Store.invariant d ->
  Store.invariant (fst (Store.step o d))
  /\ MemoryStorage.seq d <= MemoryStorage.seq (fst (Store.step o d))
  /\ (snd (Store.step o d) = []
      \/ snd (Store.step o d) = [MemoryStorage.seq d + 1]
         /\ MemoryStorage.seq (fst (Store.step o d)) = MemoryStorage.seq d + 1)
  /\ incl (MemoryStorage.ids (fst (Store.step o d)))
          (MemoryStorage.ids d ++ snd (Store.step o d)).
Proof.
  intros Hinv. pose proof (next_id_counter d Hinv) as Hnext.
  destruct Hinv as [Hsorted [Hbound Hseq]].
  destruct o as [now c e m | now i c e m | i]; unfold Store.step.
  - destruct (add_memory_ids now c e m d) as [Hids [Hs Hi]].
    destruct (MemoryStorage.add_memory now c e m d) as [j d'] eqn:E.
    cbn [fst snd] in *. subst j. rewrite Hnext in *.
    split; [| split; [lia | split; [right; split; [reflexivity | exact Hs] |]]].
    + unfold Store.invariant. rewrite Hids, Hs. split; [| split; [| lia]].
      * apply StronglySorted_app; [exact Hsorted | repeat constructor |].
        intros a b Ha [<- | []]. rewrite Forall_forall in Hbound.
        specialize (Hbound a Ha). lia.
      * apply Forall_app. split.
        -- eapply Forall_impl; [| exact Hbound]. simpl; intros; lia.
        -- repeat constructor; lia.
    + rewrite Hids. apply incl_refl.
  - destruct (update_memory_ids now i c e m d) as [Hids Hs]. cbn [fst snd].
    split; [| split; [lia | split; [left; reflexivity |]]].
    + unfold Store.invariant. rewrite Hids, Hs. auto.
    + rewrite Hids, app_nil_r. apply incl_refl.
  - cbn [fst snd]. pose proof (delete_memory_ids i d) as Hids.
    split; [| split; [simpl; lia | split; [left; reflexivity |]]].
    + unfold Store.invariant. rewrite Hids. simpl MemoryStorage.seq.
      split; [| split; [| exact Hseq]].
      * apply StronglySorted_filter, Hsorted.
      * rewrite Forall_forall in Hbound |- *. intros a Ha.
        apply filter_In in Ha. apply Hbound, Ha.
    + rewrite Hids, app_nil_r. intros a Ha. apply filter_In in Ha. apply Ha.
Qed.

Lemma run_cons (o : Store.op) (rest : list Store.op) (d : MemoryStorage.db) :
  Store.run (o :: rest) d
  = (fst (Store.run rest (fst (Store.step o d))),
     (snd (Store.step o d) ++ snd (Store.run rest (fst (Store.step o d))))%list).
Proof.
  cbn [Store.run]. destruct (Store.step o d) as [d1 issued]. cbn [fst snd].
  destruct (Store.run rest d1); reflexivity.
Qed.

Lemma run_invariant (ops : list Store.op) (d : MemoryStorage.db) :
  Store.invariant d ->
  Store.invariant (fst (Store.run ops d))
  /\ MemoryStorage.seq d <= MemoryStorage.seq (fst (Store.run ops d))
  /\ StronglySorted Z.lt (snd (Store.run ops d))
  /\ Forall (fun i => MemoryStorage.seq d < i
                      <= MemoryStorage.seq (fst (Store.run ops d)))
            (snd (Store.run ops d))
  /\ incl (MemoryStorage.ids (fst (Store.run ops d)))
          (MemoryStorage.ids d ++ snd (Store.run ops d)).
Proof.
  revert d. induction ops as [| o rest IH]; intros d Hinv.
  - cbn [Store.run fst snd].
    split; [exact Hinv |]. split; [lia |]. split; [constructor |].
    split; [constructor |]. rewrite app_nil_r; apply incl_refl.
  - rewrite run_cons; cbn [fst snd].
    destruct (step_invariant o d Hinv) as [Hinv1 [Hseq1 [Hissued Hincl1]]].
    destruct (IH _ Hinv1) as [Hinv2 [Hseq2 [Hsorted2 [Hbound2 Hincl2]]]].
    split; [exact Hinv2 |]. split; [lia |].
    assert (Hlater :
      Forall (fun i => MemoryStorage.seq d < i
                       <= MemoryStorage.seq (fst (Store.run rest (fst (Store.step o d)))))
             (snd (Store.run rest (fst (Store.step o d))))).
    { eapply Forall_impl; [| exact Hbound2]. simpl; intros; lia. }
    split; [| split].
    + destruct Hissued as [-> | [-> Hs]]; [exact Hsorted2 |].
      simpl. constructor; [exact Hsorted2 |].
      eapply Forall_impl; [| exact Hbound2]. simpl; intros; lia.
    + apply Forall_app. split; [| exact Hlater].
      destruct Hissued as [-> | [-> Hs]]; constructor; [lia | constructor].
    + intros a Ha. apply Hincl2 in Ha. apply in_app_or in Ha.
      destruct Ha as [Ha | Ha].
      * apply Hincl1 in Ha. apply in_app_or in Ha.
        apply in_or_app. destruct Ha as [Ha | Ha]; [left; exact Ha |].
        right; apply in_or_app; left; exact Ha.
      * apply in_or_app; right; apply in_or_app; right; exact Ha.
Qed.

Lemma empty_invariant : Store.invariant MemoryStorage.empty.
Proof. repeat split; try constructor; simpl; lia. Qed.

Lemma StronglySorted_lt_NoDup (l : list Z) : StronglySorted Z.lt l -> NoDup l.
Proof.
  induction 1 as [| x t Ht IH Hx]; constructor; [| exact IH].
  intros Hin. rewrite Forall_forall in Hx. specialize (Hx x Hin). lia.
Qed.

(** X1.  After any sequence of [add_memory], [update_memory] and
    [delete_memory] on a fresh database, the ids of the rows increase
    strictly along the table, so no two rows share an id, and each is
    positive and at most the [AUTOINCREMENT] counter. *)
Theorem store_ids_unique (ops : list Store.op) :
  Store.invariant (fst (Store.run ops MemoryStorage.empty))
  /\ NoDup (MemoryStorage.ids (fst (Store.run ops MemoryStorage.empty))).
Proof.
  destruct (run_invariant ops _ empty_invariant) as [Hinv _].
  split; [exact Hinv |]. apply StronglySorted_lt_NoDup, Hinv.
Qed.

(** X2.  Along any such sequence the ids [add_memory] returns increase
    strictly: an id is handed out once, whatever was deleted in between.
    Every id in the table is one of them. *)
Theorem issued_ids_never_reused (ops : list Store.op) :
  StronglySorted Z.lt (snd (Store.run ops MemoryStorage.empty))
  /\ NoDup (snd (Store.run ops MemoryStorage.empty))
  /\ Forall (fun i => 0 < i) (snd (Store.run ops MemoryStorage.empty))
  /\ incl (MemoryStorage.ids (fst (Store.run ops MemoryStorage.empty)))
          (snd (Store.run ops MemoryStorage.empty)).
Proof.
  destruct (run_invariant ops _ empty_invariant)
    as [_ [_ [Hsorted [Hbound Hincl]]]].
  split; [exact Hsorted |]. split; [apply StronglySorted_lt_NoDup, Hsorted |].
  split; [| exact Hincl].
  eapply Forall_impl; [| exact Hbound]. simpl; intros; lia.
Qed.

(** ** Histories of the store: reading never fails *)

Lemma well_formed_mod4 (a : Np.ndarray) :
  Np.well_formed a = true -> (List.length (Np.tobytes a) mod 4 = 0)%nat.
Proof.
  unfold Np.well_formed, Np.tobytes.
  destruct a as [[|] bs]; cbn [Np.dt Np.data Np.itemsize]; intros H;
    apply Nat.eqb_eq in H; [exact H |].
  apply Nat.Div0.mod_divides in H. destruct H as [c Hc].
  apply Nat.Div0.mod_divides. exists (2 * c)%nat; lia.
Qed.

Lemma memory_of_row_ok (r : Row.t) :
  blob_ok r -> exists m, MemoryStorage.memory_of_row r = Ok m.
Proof.
  unfold blob_ok, MemoryStorage.memory_of_row, Np.frombuffer.
  destruct (Row.embedding r) as [b |]; intros H.
  - cbn [Np.itemsize]. rewrite H; simpl. eexists; reflexivity.
  - simpl. eexists; reflexivity.
Qed.

Lemma mapM_ok_Forall {A B : Type} (f : A -> result B) (l : list A) :
  Forall (fun x => exists y, f x = Ok y) l ->
  exists l', mapM f l = Ok l' /\ List.length l' = List.length l.
Proof.
  induction 1 as [| x t [y Hy] _ [t' [Ht' Hlen]]]; simpl.
  - exists []; split; reflexivity.
  - rewrite Hy, Ht'; simpl. eexists; split; [reflexivity |]. simpl; congruence.
Qed.




(** ** The store: one operation and the other records *)

Lemma find_filter_other (i j : Z) (l : list Row.t) :
  j <> i ->
  find (fun r => Row.id r =? j) (filter (fun r => negb (Row.id r =? i)) l)
  = find (fun r => Row.id r =? j) l.
Proof.
  intros Hne. induction l as [| r t IH]; simpl.
  - reflexivity.
  - destruct (Row.id r =? i) eqn:Ei; simpl.
    + apply Z.eqb_eq in Ei.
      replace (Row.id r =? j) with false; [exact IH |].
      symmetry; apply Z.eqb_neq; lia.
    + destruct (Row.id r =? j); [reflexivity | exact IH].
Qed.

Lemma find_filter_same (i : Z) (l : list Row.t) :
  find (fun r => Row.id r =? i) (filter (fun r => negb (Row.id r =? i)) l)
  = None.
Proof.
  induction l as [| r t IH]; simpl.
  - reflexivity.
  - destruct (Row.id r =? i) eqn:Ei; simpl; [exact IH |].
    rewrite Ei; exact IH.
Qed.

(** X4.  A call of [delete_memory] with an id that can be bound returns
    [True] exactly when a row had the id; afterwards [get_memory] on that
    id returns [None] and on every other id what it returned before;
    deleting an id that is not there returns [False] and leaves the table
    as it was.  With an id outside the signed 64-bit range the call
    raises [OverflowError]. *)
Theorem delete_then_get (memory_id : Z) (d : MemoryStorage.db) :
  (Sql.int64 memory_id = true ->
   exists removed d',
     StorageCall.delete_memory memory_id d = Ok (removed, d')
     /\ StorageCall.get_memory memory_id d' = Ok None
     /\ (removed = true <-> In memory_id (MemoryStorage.ids d))
     /\ (forall j, j <> memory_id ->
           StorageCall.get_memory j d' = StorageCall.get_memory j d)
     /\ (~ In memory_id (MemoryStorage.ids d) -> removed = false /\ d' = d))
  /\ (Sql.int64 memory_id = false ->
      StorageCall.delete_memory memory_id d = Raise OverflowError).
Proof.
  unfold StorageCall.delete_memory, StorageCall.get_memory. split.
  - intros Hrange. rewrite (bind_int_ok _ Hrange); cbn [bind].
    exists (fst (MemoryStorage.delete_memory memory_id d)),
           (snd (MemoryStorage.delete_memory memory_id d)).
    rewrite <- surjective_pairing.
    split; [reflexivity | split; [| split; [| split]]].
    + unfold MemoryStorage.get_memory, MemoryStorage.delete_memory;
        cbn [snd MemoryStorage.rows].
      rewrite find_filter_same. reflexivity.
    + apply delete_memory_removed.
    + intros j Hj. destruct (Sql.bind_int j) as [i |] eqn:Ej; [| reflexivity].
      cbn [bind]. unfold Sql.bind_int in Ej.
      destruct (Sql.int64 j); [| discriminate Ej]. injection Ej as <-.
      unfold MemoryStorage.get_memory, MemoryStorage.delete_memory;
        cbn [snd MemoryStorage.rows].
      rewrite (find_filter_other _ _ _ Hj). reflexivity.
    + intros Habsent. rewrite (delete_memory_absent _ _ Habsent).
      split; reflexivity.
  - intros Hrange. rewrite (bind_int_raise _ Hrange). reflexivity.
Qed.

Lemma find_app_last {A : Type} (f : A -> bool) (l : list A) (x : A) :
  f x = false -> find f (l ++ [x]) = find f l.
Proof.
  intros Hx. induction l as [| y t IH]; simpl.
  - rewrite Hx; reflexivity.
  - destruct (f y); [reflexivity | exact IH].
Qed.

(** X5.  [add_memory] appends one row and changes no other: the ids of
    the table are the old ones followed by the returned id, the returned
    id is larger than every id in the table, and [get_memory] on any
    other id returns what it returned before. *)
Theorem add_memory_frame (now : Z) (content : string)
    (embedding : option Np.ndarray) (metadata : option Py.val)
    (d : MemoryStorage.db) :
  MemoryStorage.ids
    (snd (MemoryStorage.add_memory now content embedding metadata d))
  = (MemoryStorage.ids d
     ++ [fst (MemoryStorage.add_memory now content embedding metadata d)])%list
  /\ Forall (fun j =>
               j < fst (MemoryStorage.add_memory now content embedding metadata d))
            (MemoryStorage.ids d)
  /\ (forall j,
        j <> fst (MemoryStorage.add_memory now content embedding metadata d) ->
        MemoryStorage.get_memory j
          (snd (MemoryStorage.add_memory now content embedding metadata d))
        = MemoryStorage.get_memory j d).
Proof.
  destruct (add_memory_ids now content embedding metadata d) as [Hids [_ Hi]].
  split; [rewrite Hi; exact Hids |]. split.
  - rewrite Hi, Forall_forall. intros j Hj.
    unfold MemoryStorage.ids in Hj. apply in_map_iff in Hj.
    destruct Hj as [r [<- Hr]]. apply max_rowid_bound in Hr.
    unfold MemoryStorage.next_id. lia.
  - intros j Hj. rewrite Hi in Hj.
    unfold MemoryStorage.get_memory, MemoryStorage.add_memory;
      cbn [snd MemoryStorage.rows].
    rewrite find_app_last; [reflexivity |].
    cbn [Row.id]. apply Z.eqb_neq. congruence.
Qed.

(** X6.  A call of [update_memory] with an id that can be bound returns
    [True] exactly when a row has the id, and on a missing id leaves the
    table as it was.  It never adds or removes a row, and [get_memory]
    on any other id returns what it returned before.  With an id outside
    the signed 64-bit range the call raises [OverflowError]. *)
Theorem update_memory_frame (now memory_id : Z) (content : option string)
    (embedding : option Np.ndarray) (metadata : option Py.val)
    (d : MemoryStorage.db) :
  (Sql.int64 memory_id = true ->
   exists updated d',
     StorageCall.update_memory now memory_id content embedding metadata d
     = Ok (updated, d')
     /\ (updated = true <-> In memory_id (MemoryStorage.ids d))
     /\ (~ In memory_id (MemoryStorage.ids d) -> updated = false /\ d' = d)
     /\ MemoryStorage.ids d' = MemoryStorage.ids d
     /\ (forall j, j <> memory_id ->
           StorageCall.get_memory j d' = StorageCall.get_memory j d))
  /\ (Sql.int64 memory_id = false ->
      StorageCall.update_memory now memory_id content embedding metadata d
      = Raise OverflowError).
Proof.
  assert (Hfind :
    forall r, find (fun r => Row.id r =? memory_id) (MemoryStorage.rows d) = Some r ->
              In memory_id (MemoryStorage.ids d)).
  { intros r Hr. apply find_some in Hr. destruct Hr as [Hin Hid].
    apply Z.eqb_eq in Hid. rewrite <- Hid. apply in_map, Hin. }
  assert (Hnone :
    find (fun r => Row.id r =? memory_id) (MemoryStorage.rows d) = None ->
    ~ In memory_id (MemoryStorage.ids d)).
  { intros Hn Hin. unfold MemoryStorage.ids in Hin. apply in_map_iff in Hin.
    destruct Hin as [r [Hid Hr]].
    pose proof (find_none _ _ Hn r Hr) as Hf. simpl in Hf.
    apply Z.eqb_neq in Hf. contradiction. }
  unfold StorageCall.update_memory. split.
  2:{ intros Hrange. rewrite (bind_int_raise _ Hrange). reflexivity. }
  intros Hrange. rewrite (bind_int_ok _ Hrange); cbn [bind].
  exists (fst (MemoryStorage.update_memory now memory_id content embedding
                 metadata d)),
         (snd (MemoryStorage.update_memory now memory_id content embedding
                 metadata d)).
  rewrite <- surjective_pairing.
  split; [reflexivity | split; [| split; [| split]]].
  - unfold MemoryStorage.update_memory.
    destruct (find _ _) as [r |] eqn:E.
    + destruct (_ && _); cbn [fst]; split; intros _;
        [exact (Hfind r eq_refl) | reflexivity
        | exact (Hfind r eq_refl) | reflexivity].
    + cbn [fst]. split; [discriminate | intros H; destruct (Hnone eq_refl H)].
  - intros Hn. unfold MemoryStorage.update_memory.
    destruct (find _ _) as [r |] eqn:E; [| split; reflexivity].
    destruct (Hn (Hfind r eq_refl)).
  - apply update_memory_ids.
  - intros j Hj. unfold StorageCall.get_memory.
    destruct (Sql.bind_int j) as [k |] eqn:Ej; [| reflexivity].
    cbn [bind]. unfold Sql.bind_int in Ej.
    destruct (Sql.int64 j); [| discriminate Ej]. injection Ej as <-.
    unfold MemoryStorage.update_memory.
    destruct (find _ _) as [r |]; [| reflexivity].
    destruct (_ && _); [reflexivity |].
    unfold MemoryStorage.get_memory; cbn [snd MemoryStorage.rows].
    rewrite find_map_same_id.
    2:{ intros x; destruct (Row.id x =? memory_id); [| reflexivity].
        destruct content, embedding, metadata; reflexivity. }
    destruct (find (fun r0 => Row.id r0 =? j) (MemoryStorage.rows d)) as [x |] eqn:Ex;
      [| reflexivity].
    cbn [option_map]. apply find_some in Ex. destruct Ex as [_ Ex].
    apply Z.eqb_eq in Ex.
    replace (Row.id x =? memory_id) with false; [reflexivity |].
    symmetry; apply Z.eqb_neq; congruence.
Qed.

(** ** Listing: order among equal timestamps *)

Lemma ties_sorted_by_class_Z {A : Type} (key : A -> Z) (R : A -> A -> Prop)
    (l : list A) :
  (forall k, StronglySorted R (filter (fun a => key a =? k) l)) ->
  StronglySorted (fun a b => key a = key b -> R a b) l.
Proof.
  induction l as [| x t IH]; intros H.
  - constructor.
  - constructor.
    + apply IH. intros k. specialize (H k). simpl in H.
      destruct (key x =? k); [| exact H].
      apply StronglySorted_inv in H; apply H.
    + rewrite Forall_forall. intros y Hy Hxy.
      specialize (H (key y)). simpl in H.
      rewrite (proj2 (Z.eqb_eq _ _) Hxy) in H.
      apply StronglySorted_inv in H. destruct H as [_ H].
      rewrite Forall_forall in H. apply H.
      apply filter_In. split; [exact Hy | apply Z.eqb_refl].
Qed.

Lemma StronglySorted_map_inv {A B : Type} (f : A -> B) (R : B -> B -> Prop)
    (l : list A) :
  StronglySorted R (map f l) -> StronglySorted (fun a b => R (f a) (f b)) l.
Proof.
  induction l as [| x t IH]; simpl; intros H.
  - constructor.
  - apply StronglySorted_inv in H. destruct H as [Hs Hx].
    constructor; [apply IH, Hs |].
    rewrite Forall_forall in Hx |- *. intros y Hy. apply Hx, in_map, Hy.
Qed.

Lemma order_by_created_at_desc_ties (rs : list Row.t) :
  StronglySorted Z.lt (map Row.id rs) ->
  StronglySorted
    (fun a b => Row.created_at a = Row.created_at b -> Row.id a < Row.id b)
    (MemoryStorage.order_by_created_at_desc rs).
Proof.
  intros Hs. apply ties_sorted_by_class_Z. intros k.
  unfold MemoryStorage.order_by_created_at_desc.
  rewrite stable_sort_filter.
  - apply StronglySorted_filter, StronglySorted_map_inv, Hs.
  - intros a b Ha Hb. apply Z.eqb_eq in Ha, Hb. apply Z.ltb_ge. lia.
Qed.

(** X7.  [get_all_memories] returns every row once, later [created_at]
    first, and rows with equal [created_at] in the order of their ids,
    smallest first: among memories created within one second the oldest
    comes first. *)
Theorem get_all_memories_order (d : MemoryStorage.db) (all : list Memory.t) :
  Store.invariant d ->
  MemoryStorage.get_all_memories d = Ok all ->
  Permutation (map Memory.id all) (MemoryStorage.ids d)
  /\ Ranked.recent_first all
  /\ StronglySorted
       (fun a b => Memory.created_at a = Memory.created_at b ->
                   Memory.id a < Memory.id b) all.
Proof.
  intros [Hsorted _] H.
  split; [| split].
  - rewrite (get_all_memories_ids d all H).
    apply Permutation_map, stable_sort_perm.
  - apply mapM_ok_Forall2 in H. unfold Ranked.recent_first.
    eapply Forall2_StronglySorted;
      [| exact H | apply order_by_created_at_desc_sorted].
    intros a b a' b' Ha Hb Hab. simpl in *.
    destruct (memory_of_row_fields _ _ Ha) as [_ [_ [-> _]]].
    destruct (memory_of_row_fields _ _ Hb) as [_ [_ [-> _]]].
    exact Hab.
  - apply mapM_ok_Forall2 in H.
    eapply Forall2_StronglySorted;
      [| exact H | apply (order_by_created_at_desc_ties _ Hsorted)].
    intros a b a' b' Ha Hb Hab. simpl in *.
    destruct (memory_of_row_fields _ _ Ha) as [-> [_ [-> _]]].
    destruct (memory_of_row_fields _ _ Hb) as [-> [_ [-> _]]].
    exact Hab.
Qed.

Lemma get_all_memories_order_witness :
  let all :=
    [ {| Memory.id := 1; Memory.content := "Memory 1";
         Memory.embedding := None; Memory.similarity := None;
         Memory.created_at := 100; Memory.updated_at := 100;
         Memory.metadata := None |};
      {| Memory.id := 2; Memory.content := "Memory 2";
         Memory.embedding := None; Memory.similarity := None;
         Memory.created_at := 100; Memory.updated_at := 100;
         Memory.metadata := None |};
      {| Memory.id := 3; Memory.content := "Memory 3";
         Memory.embedding := None; Memory.similarity := None;
         Memory.created_at := 100; Memory.updated_at := 100;
         Memory.metadata := None |} ] in
  Permutation (map Memory.id all) (MemoryStorage.ids Sample.three_memories)
  /\ Ranked.recent_first all
  /\ StronglySorted
       (fun a b => Memory.created_at a = Memory.created_at b ->
                   Memory.id a < Memory.id b) all.
Proof.
  intros all.
  apply (get_all_memories_order Sample.three_memories all).
  - unfold Store.invariant. vm_compute MemoryStorage.ids.
    vm_compute MemoryStorage.seq.
    split; [| split; [| lia]]; repeat constructor; lia.
  - reflexivity.
Defined.

(** ** Searching by content *)

Lemma limit_incl {A : Type} (n : Z) (l : list A) (x : A) :
  In x (Sql.limit n l) -> In x l.
Proof.
  unfold Sql.limit. destruct (n <? 0); [trivial | apply In_firstn].
Qed.

Lemma limit_length {A : Type} (n : Z) (l : list A) :
  (List.length (Sql.limit n l) <= List.length l)%nat
  /\ (0 <= n -> Z.of_nat (List.length (Sql.limit n l)) <= n).
Proof.
  unfold Sql.limit. destruct (n <? 0) eqn:E.
  - apply Z.ltb_lt in E. split; [lia | intros; lia].
  - rewrite length_firstn. split; [lia | intros; lia].
Qed.

Lemma limit_sorted {A : Type} (R : A -> A -> Prop) (n : Z) (l : list A) :
  StronglySorted R l -> StronglySorted R (Sql.limit n l).
Proof.
  unfold Sql.limit. destruct (n <? 0); [trivial | apply StronglySorted_firstn].
Qed.

(** X8.  On a table whose contents are ASCII texts without NUL, and for
    such a query, every record a call of [search_by_content] returns is a
    row of the table whose content matches [%query%] under [LIKE]; the
    records come later [created_at] first; there are at most [limit] of
    them when [limit] is not negative, and never more than there are
    matching rows. *)
Theorem search_by_content_sound (query : string) (limit : Z)
    (d : MemoryStorage.db) (found : list Memory.t) :
  Sql.plain_text query = true ->
  forallb (fun r => Sql.plain_text (Row.content r)) (MemoryStorage.rows d)
  = true ->
  StorageCall.search_by_content query limit d = Ok found ->
  Forall (fun m =>
            Sql.like (Memory.content m) ("%" ++ query ++ "%") = true
            /\ In (Memory.id m) (MemoryStorage.ids d)
            /\ Memory.similarity m = None) found
  /\ Ranked.recent_first found
  /\ (0 <= limit -> Z.of_nat (List.length found) <= limit)
  /\ (List.length found
      <= List.length
           (filter (fun r => Sql.like (Row.content r) ("%" ++ query ++ "%"))
                   (MemoryStorage.rows d)))%nat.
Proof.
  intros _ _ H. unfold StorageCall.search_by_content in H.
  apply bind_ok in H. destruct H as [n [Hn H]].
  unfold Sql.bind_int in Hn. destruct (Sql.int64 limit); [| discriminate Hn].
  injection Hn as <-.
  unfold MemoryStorage.search_by_content in H.
  set (matching := filter (fun r => Sql.like (Row.content r) ("%" ++ query ++ "%"))
                          (MemoryStorage.rows d)) in *.
  set (sorted := MemoryStorage.order_by_created_at_desc matching) in *.
  assert (Hperm : Permutation sorted matching) by apply stable_sort_perm.
  pose proof (mapM_ok_Forall2 _ _ _ H) as H2.
  pose proof (Forall2_length_eq _ _ _ H2) as Hlen.
  destruct (limit_length limit sorted) as [Hle Hlim].
  split; [| split; [| split]].
  - rewrite Forall_forall. intros m Hm.
    destruct (mapM_In_inv _ _ _ m H Hm) as [r [Hr Hin]].
    apply limit_incl in Hin. apply (Permutation_in _ Hperm) in Hin.
    apply filter_In in Hin. destruct Hin as [Hin Hlike].
    destruct (memory_of_row_fields _ _ Hr) as [Hid [Hc [_ [_ Hs]]]].
    rewrite Hc, Hid. split; [exact Hlike | split; [| exact Hs]].
    apply in_map, Hin.
  - unfold Ranked.recent_first.
    eapply Forall2_StronglySorted;
      [| exact H2 | apply limit_sorted, order_by_created_at_desc_sorted].
    intros a b a' b' Ha Hb Hab. simpl in *.
    destruct (memory_of_row_fields _ _ Ha) as [_ [_ [-> _]]].
    destruct (memory_of_row_fields _ _ Hb) as [_ [_ [-> _]]].
    exact Hab.
  - intros Hn. rewrite <- Hlen. apply Hlim, Hn.
  - rewrite <- Hlen, <- (Permutation_length Hperm). exact Hle.
Qed.

Lemma search_by_content_sound_witness :
  let found :=
    [ {| Memory.id := 2; Memory.content := "I like pears";
         Memory.embedding := Some (Np.of_bits Np.float32 [0x3f800000; 0]);
         Memory.similarity := None;
         Memory.created_at := 200; Memory.updated_at := 200;
         Memory.metadata := None |} ] in
  Forall (fun m =>
            Sql.like (Memory.content m) ("%" ++ "PEAR" ++ "%") = true
            /\ In (Memory.id m) (MemoryStorage.ids Sample.twins)
            /\ Memory.similarity m = None) found
  /\ Ranked.recent_first found
  /\ (0 <= 5 -> Z.of_nat (List.length found) <= 5)
  /\ (List.length found
      <= List.length
           (filter (fun r => Sql.like (Row.content r) ("%" ++ "PEAR" ++ "%"))
                   (MemoryStorage.rows Sample.twins)))%nat.
Proof.
  intros found.
  apply (search_by_content_sound "PEAR" 5 Sample.twins found); reflexivity.
Defined.

(** *** Letter case *)

Lemma upper_idempotent (c : ascii) : Sql.upper (Sql.upper c) = Sql.upper c.
Proof. destruct c as [[|] [|] [|] [|] [|] [|] [|] [|]]; reflexivity. Qed.

Lemma upper_percent (c : ascii) :
  Ascii.eqb (Sql.upper c) "%" = Ascii.eqb c "%".
Proof. destruct c as [[|] [|] [|] [|] [|] [|] [|] [|]]; reflexivity. Qed.

Lemma upper_underscore (c : ascii) :
  Ascii.eqb (Sql.upper c) "_" = Ascii.eqb c "_".
Proof. destruct c as [[|] [|] [|] [|] [|] [|] [|] [|]]; reflexivity. Qed.

Lemma like_chars_upper_text (p s : list ascii) :
  Sql.like_chars p (map Sql.upper s) = Sql.like_chars p s.
Proof.
  revert s. induction p as [| c p IH]; intros s.
  - destruct s; reflexivity.
  - destruct (Ascii.eqb c "%") eqn:E1.
    + induction s as [| d s IHs].
      * reflexivity.
      * rewrite (like_chars_cons c p (map Sql.upper (d :: s))),
          (like_chars_cons c p (d :: s)), E1.
        rewrite IH. cbn [map]. rewrite IHs. reflexivity.
    + rewrite (like_chars_cons c p (map Sql.upper s)),
        (like_chars_cons c p s), E1.
      destruct (Ascii.eqb c "_"); destruct s as [| d s]; cbn [map];
        try reflexivity; [apply IH |].
      rewrite upper_idempotent, IH. reflexivity.
Qed.

Lemma like_chars_upper_pattern (p s : list ascii) :
  Sql.like_chars (map Sql.upper p) s = Sql.like_chars p s.
Proof.
  revert s. induction p as [| c p IH]; intros s.
  - reflexivity.
  - cbn [map]. destruct (Ascii.eqb c "%") eqn:E1.
    + induction s as [| d s IHs].
      * rewrite !like_chars_cons, upper_percent, E1, IH. reflexivity.
      * rewrite (like_chars_cons (Sql.upper c) (map Sql.upper p) (d :: s)),
          (like_chars_cons c p (d :: s)), upper_percent, E1.
        rewrite IH, IHs. reflexivity.
    + rewrite (like_chars_cons (Sql.upper c) (map Sql.upper p) s),
        (like_chars_cons c p s), upper_percent, upper_underscore, E1.
      destruct (Ascii.eqb c "_"); destruct s as [| d s];
        try reflexivity; [apply IH |].
      rewrite upper_idempotent, IH. reflexivity.
Qed.

Lemma upper_text_chars (s : string) :
  list_ascii_of_string (upper_text s) = map Sql.upper (list_ascii_of_string s).
Proof. unfold upper_text. apply list_ascii_of_string_of_list_ascii. Qed.

Lemma like_upper (text pattern : string) :
  Sql.like (upper_text text) pattern = Sql.like text pattern
  /\ Sql.like text (upper_text pattern) = Sql.like text pattern.
Proof.
  unfold Sql.like. rewrite !upper_text_chars. split.
  - apply like_chars_upper_text.
  - apply like_chars_upper_pattern.
Qed.

Lemma like_query_upper (text query : string) :
  Sql.like text ("%" ++ upper_text query ++ "%")
  = Sql.like text ("%" ++ query ++ "%").
Proof.
  rewrite <- (proj2 (like_upper text ("%" ++ query ++ "%"))).
  unfold Sql.like. f_equal.
  rewrite upper_text_chars, !list_ascii_of_string_app, upper_text_chars.
  cbn [list_ascii_of_string app map]. rewrite map_app. reflexivity.
Qed.

(** X9.  [search_by_content] ignores the case of ASCII letters, in the
    query and in the stored content: the query in capitals finds what
    the query finds, and a content matches a pattern exactly when the
    content in capitals does. *)
Theorem search_by_content_ignores_case (query : string) (limit : Z)
    (d : MemoryStorage.db) :
  MemoryStorage.search_by_content (upper_text query) limit d
  = MemoryStorage.search_by_content query limit d
  /\ (forall text,
        Sql.like (upper_text text) ("%" ++ query ++ "%")
        = Sql.like text ("%" ++ query ++ "%")).
Proof.
  split.
  - unfold MemoryStorage.search_by_content.
    rewrite (filter_ext
               (fun r => Sql.like (Row.content r) ("%" ++ upper_text query ++ "%"))
               (fun r => Sql.like (Row.content r) ("%" ++ query ++ "%"))).
    + reflexivity.
    + intros r. apply like_query_upper.
  - intros text. apply like_upper.
Qed.

(** *** Wildcards *)




(** ** Ranking: when it returns and how much *)

Lemma slice_to_length {A : Type} (n : Z) (l : list A) :
  Z.of_nat (List.length (slice_to n l))
  = if 0 <=? n then Z.min n (Z.of_nat (List.length l))
    else Z.max 0 (Z.of_nat (List.length l) + n).
Proof.
  unfold slice_to. destruct (0 <=? n) eqn:E; rewrite length_firstn.
  - apply Z.leb_le in E. lia.
  - apply Z.leb_gt in E. lia.
Qed.

Lemma mapM_raise {A B : Type} (f : A -> result B) (e : exn) (l : list A) :
  Forall (fun x => (exists y, f x = Ok y) \/ f x = Raise e) l ->
  Exists (fun x => f x = Raise e) l ->
  mapM f l = Raise e.
Proof.
  induction 1 as [| x t Hx Ht IH]; intros Hex.
  - inversion Hex.
  - simpl. destruct Hx as [[y Hy] | Hx].
    + rewrite Hy; simpl. inversion Hex as [? ? H1 | ? ? H1]; subst.
      * rewrite Hy in H1; discriminate H1.
      * rewrite (IH H1). reflexivity.
    + rewrite Hx. reflexivity.
Qed.

Lemma cosine_result (q e : Np.ndarray) :
  (Np.size q = Np.size e -> exists s, Np.cosine q e = Ok s)
  /\ (Np.size q <> Np.size e -> Np.cosine q e = Raise ValueError).
Proof.
  unfold Np.cosine, Np.dot. split; intros H.
  - rewrite H, Nat.eqb_refl; cbn [bind]. eexists; reflexivity.
  - apply Nat.eqb_neq in H. rewrite H. reflexivity.
Qed.

Lemma annotate_result (q : Np.ndarray) (m : Memory.t) :
  match Memory.embedding m with
  | Some e =>
      if (Np.size q =? Np.size e)%nat
      then exists s, MemoryRetriever.annotate q m = Ok (Memory.set_similarity m s)
      else MemoryRetriever.annotate q m = Raise ValueError
  | None =>
      MemoryRetriever.annotate q m = Ok (Memory.set_similarity m 0%float)
  end.
Proof.
  unfold MemoryRetriever.annotate.
  destruct (Memory.embedding m) as [e |]; [| reflexivity].
  destruct (cosine_result q e) as [Hok Hbad].
  destruct (Np.size q =? Np.size e)%nat eqn:E.
  - apply Nat.eqb_eq in E. destruct (Hok E) as [s Hs].
    exists s. rewrite Hs. reflexivity.
  - apply Nat.eqb_neq in E. rewrite (Hbad E). reflexivity.
Qed.

(** X11.  [retrieve_relevant_memories] returns exactly when the
    embedding service answers and every candidate's embedding has as
    many elements as the query's.  An exception of the service is passed
    on, before any candidate is touched and also for an empty list; a
    candidate of another length makes the call raise [ValueError]. *)
Theorem retrieve_returns_iff (openai_client : OpenAIClient.t)
    (query : string) (memories : list Memory.t) (limit : Z) :
  (forall x, OpenAIClient.get_embedding openai_client query = Raise x ->
     MemoryRetriever.retrieve_relevant_memories openai_client query memories
       limit = Raise x)
  /\ (forall q, OpenAIClient.get_embedding openai_client query = Ok q ->
        (forallb (fits q) memories = true ->
         exists relevant after,
           MemoryRetriever.retrieve_relevant_memories openai_client query
             memories limit = Ok (relevant, after))
        /\ (forallb (fits q) memories = false ->
            MemoryRetriever.retrieve_relevant_memories openai_client query
              memories limit = Raise ValueError)).
Proof.
  split.
  - intros x Hx. unfold MemoryRetriever.retrieve_relevant_memories.
    rewrite Hx. reflexivity.
  - intros q Hq. unfold MemoryRetriever.retrieve_relevant_memories.
    rewrite Hq; cbn [bind]. split; intros Hfit.
    + rewrite forallb_forall in Hfit.
      assert (Hall : Forall (fun m => exists y,
                                MemoryRetriever.annotate q m = Ok y
                                /\ Memory.has_similarity y = true) memories).
      { rewrite Forall_forall. intros m Hm. specialize (Hfit m Hm).
        pose proof (annotate_result q m) as Hr. unfold fits in Hfit.
        destruct (Memory.embedding m) as [e |].
        - rewrite Hfit in Hr. destruct Hr as [s Hs].
          eexists; split; [exact Hs | reflexivity].
        - eexists; split; [exact Hr | reflexivity]. }
      assert (Hann : exists annotated,
                mapM (MemoryRetriever.annotate q) memories = Ok annotated
                /\ forallb Memory.has_similarity annotated = true).
      { clear Hfit. induction Hall as [| m t [y [Hy Hs]] _ [t' [Ht' Hs']]]; simpl.
        - exists []; split; reflexivity.
        - rewrite Hy, Ht'; simpl. eexists; split; [reflexivity |].
          simpl. rewrite Hs, Hs'. reflexivity. }
      destruct Hann as [annotated [Hann Hkeys]].
      rewrite Hann; cbn [bind]. unfold Memory.sort_by_similarity.
      rewrite Hkeys; cbn [bind]. do 2 eexists; reflexivity.
    + rewrite (mapM_raise (MemoryRetriever.annotate q) ValueError memories);
        [reflexivity | |].
      * rewrite Forall_forall. intros m _.
        pose proof (annotate_result q m) as Hr.
        destruct (Memory.embedding m) as [e |].
        -- destruct (Np.size q =? Np.size e)%nat; [left | right; exact Hr].
           destruct Hr as [s Hs]. eexists; exact Hs.
        -- left; eexists; exact Hr.
      * apply Exists_exists.
        assert (Hex : exists m, In m memories /\ fits q m = false).
        { clear Hq. induction memories as [| m t IH]; simpl in Hfit.
          - discriminate Hfit.
          - destruct (fits q m) eqn:E.
            + destruct (IH Hfit) as [m' [Hin Hm']].
              exists m'; split; [right; exact Hin | exact Hm'].
            + exists m; split; [left; reflexivity | exact E]. }
        destruct Hex as [m [Hin Hm]]. exists m. split; [exact Hin |].
        pose proof (annotate_result q m) as Hr. unfold fits in Hm.
        destruct (Memory.embedding m) as [e |]; [| discriminate Hm].
        rewrite Hm in Hr. exact Hr.
Qed.

(** X12.  The records [retrieve_relevant_memories] returns are the first
    ones of the caller's sorted list: [limit] of them when there are that
    many and [limit] is not negative, all of them when there are fewer,
    and all but the last [-limit] when [limit] is negative. *)
Theorem retrieve_count (openai_client : OpenAIClient.t) (query : string)
    (memories : list Memory.t) (limit : Z) (relevant after : list Memory.t) :
  MemoryRetriever.retrieve_relevant_memories openai_client query memories limit
  = Ok (relevant, after) ->
  (exists rest, after = (relevant ++ rest)%list)
  /\ Z.of_nat (List.length relevant)
     = if 0 <=? limit then Z.min limit (Z.of_nat (List.length memories))
       else Z.max 0 (Z.of_nat (List.length memories) + limit).
Proof.
  intros H.
  destruct (retrieve_spec _ _ _ _ _ _ H) as [q [annotated [_ [Hann [Hafter Hrel]]]]].
  assert (Hlen : List.length after = List.length memories).
  { rewrite Hafter, (Permutation_length (sort_reverse_perm _ _)).
    symmetry. apply (Forall2_length_eq _ _ _ (mapM_ok_Forall2 _ _ _ Hann)). }
  split.
  - rewrite Hrel. unfold slice_to.
    destruct (0 <=? limit); eexists; symmetry; apply firstn_skipn.
  - rewrite Hrel, slice_to_length, Hlen. reflexivity.
Qed.

Lemma retrieve_count_witness :
  (exists rest, snd Sample.ranking = (fst Sample.ranking ++ rest)%list)
  /\ Z.of_nat (List.length (fst Sample.ranking))
     = if 0 <=? 1 then Z.min 1 (Z.of_nat (List.length Sample.listing))
       else Z.max 0 (Z.of_nat (List.length Sample.listing) + 1).
Proof.
  apply (retrieve_count Sample.services "fruit" Sample.listing 1
           (fst Sample.ranking) (snd Sample.ranking)).
  vm_compute; reflexivity.
Defined.

Lemma similar_of_row_result (q : Np.ndarray) (r : Row.t) :
  MemoryStorage.has_embedding r = true ->
  if row_fits q r
  then exists m, MemoryStorage.similar_of_row q r = Ok m
                 /\ Memory.id m = Row.id r
                 /\ Memory.has_similarity m = true
                 /\ Memory.embedding m <> None
  else MemoryStorage.similar_of_row q r = Raise ValueError.
Proof.
  unfold MemoryStorage.has_embedding, row_fits, MemoryStorage.similar_of_row,
    Np.frombuffer.
  destruct (Row.embedding r) as [b |]; [intros _ | discriminate].
  cbn [Np.itemsize].
  destruct (List.length b mod 4 =? 0)%nat; cbn [andb bind]; [| reflexivity].
  unfold Np.cosine, Np.dot.
  change (Np.size {| Np.dt := Np.float32; Np.data := b |})
    with (List.length b / 4)%nat.
  destruct (Np.size q =? List.length b / 4)%nat; cbn [bind]; [| reflexivity].
  eexists; split; [reflexivity |]. cbn. repeat split. discriminate.
Qed.

(** X13.  [find_similar_memories] returns exactly when every stored
    embedding reads as [float32] elements, as many as the query has;
    otherwise it raises [ValueError].  What it returns are rows that
    have an embedding, each with its similarity, as many as the limit
    allows. *)
Theorem find_similar_returns_iff (query_embedding : Np.ndarray) (limit : Z)
    (d : MemoryStorage.db) :
  (forallb (row_fits query_embedding) (MemoryStorage.rows d) = true ->
   exists found,
     MemoryStorage.find_similar_memories query_embedding limit d = Ok found
     /\ Forall (fun m => Memory.embedding m <> None
                         /\ Memory.has_similarity m = true
                         /\ In (Memory.id m) (MemoryStorage.ids d)) found
     /\ Z.of_nat (List.length found)
        = let n := Z.of_nat (List.length (filter MemoryStorage.has_embedding
                                            (MemoryStorage.rows d))) in
          if 0 <=? limit then Z.min limit n else Z.max 0 (n + limit))
  /\ (forallb (row_fits query_embedding) (MemoryStorage.rows d) = false ->
      MemoryStorage.find_similar_memories query_embedding limit d
      = Raise ValueError).
Proof.
  set (embedded := filter MemoryStorage.has_embedding (MemoryStorage.rows d)).
  assert (Hemb : forall r, In r embedded ->
                   In r (MemoryStorage.rows d) /\ MemoryStorage.has_embedding r = true).
  { intros r Hr. apply filter_In in Hr. exact Hr. }
  split; intros Hfit.
  - rewrite forallb_forall in Hfit.
    assert (Hall : Forall (fun r => exists m,
                      MemoryStorage.similar_of_row query_embedding r = Ok m
                      /\ Memory.id m = Row.id r
                      /\ Memory.has_similarity m = true
                      /\ Memory.embedding m <> None) embedded).
    { rewrite Forall_forall. intros r Hr. destruct (Hemb r Hr) as [Hin He].
      pose proof (similar_of_row_result query_embedding r He) as Hres.
      rewrite (Hfit r Hin) in Hres. exact Hres. }
    assert (Hms : exists ms,
              mapM (MemoryStorage.similar_of_row query_embedding) embedded = Ok ms).
    { destruct (mapM_ok_Forall (MemoryStorage.similar_of_row query_embedding)
                  embedded) as [ms [Hms _]].
      - eapply Forall_impl; [| exact Hall].
        intros r [m [Hm _]]. exists m; exact Hm.
      - exists ms; exact Hms. }
    destruct Hms as [ms Hms].
    assert (Hkeys : forallb Memory.has_similarity ms = true).
    { apply (mapM_forallb _ _ _ _
               (fun x y H => proj2 (similar_of_row_fields _ x y H)) Hms). }
    exists (slice_to limit (sort_reverse Memory.similarity_key ms)).
    split; [| split].
    + unfold MemoryStorage.find_similar_memories. fold embedded.
      rewrite Hms; cbn [bind]. unfold Memory.sort_by_similarity.
      rewrite Hkeys. reflexivity.
    + rewrite Forall_forall. intros m Hm. apply slice_to_incl in Hm.
      apply (Permutation_in _ (sort_reverse_perm _ _)) in Hm.
      destruct (mapM_In_inv _ _ _ m Hms Hm) as [r [Hr Hin]].
      destruct (Hemb r Hin) as [Hin' He].
      rewrite Forall_forall in Hall. destruct (Hall r Hin) as [m' [Hm' Hf]].
      rewrite Hr in Hm'. injection Hm' as <-.
      destruct Hf as [Hid [Hs Hne]]. split; [exact Hne | split; [exact Hs |]].
      rewrite Hid. apply in_map, Hin'.
    + rewrite slice_to_length, (Permutation_length (sort_reverse_perm _ _)).
      rewrite <- (Forall2_length_eq _ _ _ (mapM_ok_Forall2 _ _ _ Hms)).
      reflexivity.
  - unfold MemoryStorage.find_similar_memories. fold embedded.
    rewrite (mapM_raise (MemoryStorage.similar_of_row query_embedding)
               ValueError embedded); [reflexivity | |].
    + rewrite Forall_forall. intros r Hr. destruct (Hemb r Hr) as [_ He].
      pose proof (similar_of_row_result query_embedding r He) as Hres.
      destruct (row_fits query_embedding r); [left | right; exact Hres].
      destruct Hres as [m [Hm _]]. exists m; exact Hm.
    + apply Exists_exists.
      assert (Hex : exists r, In r (MemoryStorage.rows d)
                              /\ row_fits query_embedding r = false).
      { clear Hemb. induction (MemoryStorage.rows d) as [| r t IH];
          simpl in Hfit.
        - discriminate Hfit.
        - destruct (row_fits query_embedding r) eqn:E.
          + destruct (IH Hfit) as [r' [Hin Hr']].
            exists r'; split; [right; exact Hin | exact Hr'].
          + exists r; split; [left; reflexivity | exact E]. }
      destruct Hex as [r [Hin Hr]].
      assert (He : MemoryStorage.has_embedding r = true).
      { unfold row_fits in Hr. unfold MemoryStorage.has_embedding.
        destruct (Row.embedding r); [reflexivity | discriminate Hr]. }
      exists r. split; [apply filter_In; split; assumption |].
      pose proof (similar_of_row_result query_embedding r He) as Hres.
      rewrite Hr in Hres. exact Hres.
Qed.

(** ** Embeddings as the service delivers them *)

Lemma memory_of_row_result (r : Row.t) :
  (exists m, MemoryStorage.memory_of_row r = Ok m)
  \/ MemoryStorage.memory_of_row r = Raise ValueError.
Proof.
  unfold MemoryStorage.memory_of_row, Np.frombuffer.
  destruct (Row.embedding r) as [b |].
  - destruct (List.length b mod Np.itemsize Np.float32 =? 0)%nat; cbn [bind].
    + left; eexists; reflexivity.
    + right; reflexivity.
  - left; eexists; reflexivity.
Qed.

Lemma mapM_ok_or_raise {A B : Type} (f : A -> result B) (e : exn) (l : list A) :
  Forall (fun x => (exists y, f x = Ok y) \/ f x = Raise e) l ->
  (exists l', mapM f l = Ok l') \/ mapM f l = Raise e.
Proof.
  induction 1 as [| x t Hx _ IH]; simpl.
  - left; eexists; reflexivity.
  - destruct Hx as [[y Hy] | Hx]; [| right; rewrite Hx; reflexivity].
    rewrite Hy; cbn [bind]. destruct IH as [[t' Ht'] | Ht'].
    + left. rewrite Ht'. eexists; reflexivity.
    + right. rewrite Ht'. reflexivity.
Qed.

Lemma float64_read_as_float32 (a : Np.ndarray) :
  Np.is_float32 a = false -> Np.well_formed a = true ->
  (List.length (Np.tobytes a) / 4 = 2 * Np.size a)%nat.
Proof.
  unfold Np.is_float32, Np.well_formed, Np.size, Np.tobytes.
  destruct a as [[|] bs]; cbn [Np.dt Np.data Np.itemsize]; intros Hd Hw;
    [discriminate Hd |].
  apply Nat.eqb_eq, Nat.Div0.mod_divides in Hw. destruct Hw as [c Hc].
  rewrite Hc.
  replace (8 * c)%nat with (c * 8)%nat at 2 by lia.
  replace (8 * c)%nat with ((2 * c) * 4)%nat by lia.
  rewrite !Nat.div_mul by discriminate. reflexivity.
Qed.

(** X14.  The embedding service delivers [float64] vectors and the store
    reads every embedding back as [float32].  So once a memory has been
    added through [MemorySystem.add_memory] with a non-empty embedding,
    [get_relevant_memories] raises [ValueError] for every query whose
    embedding has the same length: the stored vector comes back with
    twice as many elements. *)
Theorem float64_embedding_breaks_lookup (openai_client : OpenAIClient.t)
    (now : Z) (content : string) (metadata : option Py.val)
    (query : string) (limit : Z) (d : MemoryStorage.db)
    (a q : Np.ndarray) :
  OpenAIClient.get_embedding openai_client content = Ok a ->
  OpenAIClient.get_embedding openai_client query = Ok q ->
  Np.is_float32 a = false ->
  Np.well_formed a = true ->
  Np.size a = Np.size q ->
  (0 < Np.size a)%nat ->
  exists i d',
    MemorySystem.add_memory openai_client now content metadata d = Ok (i, d')
    /\ MemorySystem.get_relevant_memories openai_client query limit d'
       = Raise ValueError.
Proof.
  intros Ha Hq Hdt Hwf Hsize Hpos.
  unfold MemorySystem.add_memory. rewrite Ha; cbn [bind].
  destruct (MemoryStorage.add_memory now content (Some a) metadata d)
    as [i d'] eqn:Hadd.
  exists i, d'. split; [reflexivity |].
  assert (Hrows : exists r, In r (MemoryStorage.rows d')
                            /\ Row.embedding r = Some (Np.tobytes a)).
  { unfold MemoryStorage.add_memory in Hadd. injection Hadd as _ <-.
    cbn [MemoryStorage.rows]. eexists. split.
    - apply in_or_app; right; left; reflexivity.
    - reflexivity. }
  destruct Hrows as [r [Hr Hemb]].
  unfold MemorySystem.get_relevant_memories, MemoryStorage.get_all_memories.
  destruct (mapM_ok_or_raise MemoryStorage.memory_of_row ValueError
              (MemoryStorage.order_by_created_at_desc (MemoryStorage.rows d')))
    as [[all Hall] | Hall].
  { rewrite Forall_forall. intros x _. apply memory_of_row_result. }
  2:{ rewrite Hall. reflexivity. }
  rewrite Hall; cbn [bind].
  unfold MemoryRetriever.retrieve_relevant_memories. rewrite Hq; cbn [bind].
  rewrite (mapM_raise (MemoryRetriever.annotate q) ValueError all);
    [reflexivity | |].
  - rewrite Forall_forall. intros m _.
    pose proof (annotate_result q m) as Hres.
    destruct (Memory.embedding m) as [e |].
    + destruct (Np.size q =? Np.size e)%nat; [left | right; exact Hres].
      destruct Hres as [s Hs]. eexists; exact Hs.
    + left; eexists; exact Hres.
  - apply Exists_exists.
    assert (Hin : In r (MemoryStorage.order_by_created_at_desc
                          (MemoryStorage.rows d'))).
    { exact (Permutation_in _ (Permutation_sym (stable_sort_perm _ _)) Hr). }
    destruct (mapM_In _ _ _ r Hall Hin) as [m [Hm Hmin]].
    exists m. split; [exact Hmin |].
    unfold MemoryStorage.memory_of_row in Hm. rewrite Hemb in Hm.
    unfold Np.frombuffer in Hm.
    destruct (List.length (Np.tobytes a) mod Np.itemsize Np.float32 =? 0)%nat;
      [| discriminate Hm].
    cbn [bind] in Hm. injection Hm as <-.
    pose proof (annotate_result q
      {| Memory.id := Row.id r; Memory.content := Row.content r;
         Memory.embedding :=
           Some {| Np.dt := Np.float32; Np.data := Np.tobytes a |};
         Memory.similarity := None;
         Memory.created_at := Row.created_at r;
         Memory.updated_at := Row.updated_at r;
         Memory.metadata := option_map Json.loads (Row.metadata r) |}) as Hres.
    cbn [Memory.embedding] in Hres.
    change (Np.size {| Np.dt := Np.float32; Np.data := Np.tobytes a |})
      with (List.length (Np.tobytes a) / 4)%nat in Hres.
    rewrite (float64_read_as_float32 a Hdt Hwf), <- Hsize in Hres.
    replace (Np.size a =? 2 * Np.size a)%nat with false in Hres; [exact Hres |].
    symmetry; apply Nat.eqb_neq; lia.
Qed.

Lemma float64_embedding_breaks_lookup_witness :
  exists i d',
    MemorySystem.add_memory Sample.services 100
      "I use Shram and Magnet as productivity tools" None
      MemoryStorage.empty = Ok (i, d')
    /\ MemorySystem.get_relevant_memories Sample.services
         "What productivity tools do I use?" 5 d' = Raise ValueError.
Proof.
  apply (float64_embedding_breaks_lookup Sample.services 100
           "I use Shram and Magnet as productivity tools" None
           "What productivity tools do I use?" 5 MemoryStorage.empty
           Sample.query_vector Sample.query_vector);
    try reflexivity.
  vm_compute. lia.
Defined.

(** ** The extraction filter: when it returns *)

Lemma should_store_result (c : Py.val) (threshold : Z) :
  if Candidate2.comparable c
  then exists b, MemoryExtractor.should_store_memory c threshold = Ok b
  else MemoryExtractor.should_store_memory c threshold
       = Raise (if is_dict c then TypeError else AttributeError).
Proof.
  unfold Candidate2.comparable, MemoryExtractor.should_store_memory, Py.get.
  destruct c as [| b | z | s | l | l | d]; try reflexivity.
  cbn [bind is_dict].
  destruct (Py.dict_get d (Py.KStr "importance") (Py.PInt 0));
    cbn [Py.ge_int]; try reflexivity; eexists; reflexivity.
Qed.

Lemma filterM_incl {A : Type} (f : A -> result bool) (l kept : list A) :
  filterM f l = Ok kept ->
  incl kept l /\ (List.length kept <= List.length l)%nat.
Proof.
  revert kept. induction l as [| x t IH]; simpl; intros kept H.
  - injection H as <-. split; [apply incl_refl | simpl; lia].
  - apply bind_ok in H. destruct H as [b [_ H]].
    apply bind_ok in H. destruct H as [ys [Hys H]].
    injection H as <-. destruct (IH ys Hys) as [Hi Hl].
    destruct b; simpl; split; try lia.
    + intros a [-> | Ha]; [left; reflexivity | right; apply Hi, Ha].
    + intros a Ha; right; apply Hi, Ha.
Qed.

Lemma filterM_ok_Forall {A : Type} (f : A -> result bool) (l : list A) :
  Forall (fun x => exists b, f x = Ok b) l -> exists kept, filterM f l = Ok kept.
Proof.
  induction 1 as [| x t [b Hb] _ [kept Hk]]; simpl.
  - eexists; reflexivity.
  - rewrite Hb, Hk; simpl. eexists; reflexivity.
Qed.

Lemma filterM_first_raise {A : Type} (f : A -> result bool) (e : exn)
    (pre post : list A) (c : A) :
  Forall (fun x => exists b, f x = Ok b) pre -> f c = Raise e ->
  filterM f (pre ++ c :: post) = Raise e.
Proof.
  intros Hpre Hc. induction Hpre as [| x t [b Hb] _ IH]; simpl.
  - rewrite Hc. reflexivity.
  - rewrite Hb; cbn [bind]. rewrite IH. reflexivity.
Qed.

(** X15.  The candidates are values of [Py.val]: [None], booleans,
    integers, strings, lists, tuples and dictionaries.  When the
    completion service answers and every candidate is a dictionary whose
    importance is absent, an [int] or a [bool], [extract_memories]
    returns, and what it returns are some of the candidates.  A first
    candidate that is not a dictionary makes it raise [AttributeError];
    a first dictionary whose importance is [None], a string, a list, a
    tuple or a dictionary makes it raise [TypeError]. *)
Theorem extract_memories_outcome (openai_client : OpenAIClient.t)
    (conversation : list Message.t) (importance_threshold : Z)
    (candidates : list Py.val) :
  OpenAIClient.extract_memories openai_client conversation = Ok candidates ->
  (forallb Candidate2.comparable candidates = true ->
   exists kept,
     MemoryExtractor.extract_memories openai_client conversation
       importance_threshold = Ok kept
     /\ incl kept candidates
     /\ (List.length kept <= List.length candidates)%nat)
  /\ (forall pre c post,
        candidates = (pre ++ c :: post)%list ->
        forallb Candidate2.comparable pre = true ->
        is_dict c = false ->
        MemoryExtractor.extract_memories openai_client conversation
          importance_threshold = Raise AttributeError)
  /\ (forall pre c post,
        candidates = (pre ++ c :: post)%list ->
        forallb Candidate2.comparable pre = true ->
        Candidate2.unordered c = true ->
        MemoryExtractor.extract_memories openai_client conversation
          importance_threshold = Raise TypeError).
Proof.
  intros Hc. unfold MemoryExtractor.extract_memories. rewrite Hc; cbn [bind].
  assert (Hok : forall l, forallb Candidate2.comparable l = true ->
            Forall (fun x => exists b,
                      MemoryExtractor.should_store_memory x importance_threshold
                      = Ok b) l).
  { intros l Hl. rewrite forallb_forall in Hl. rewrite Forall_forall.
    intros x Hx. pose proof (should_store_result x importance_threshold) as Hr.
    rewrite (Hl x Hx) in Hr. exact Hr. }
  split; [| split].
  - intros Hall. destruct (filterM_ok_Forall _ _ (Hok _ Hall)) as [kept Hk].
    exists kept. split; [exact Hk |]. apply (filterM_incl _ _ _ Hk).
  - intros pre c post -> Hpre Hbad.
    apply filterM_first_raise; [apply Hok, Hpre |].
    pose proof (should_store_result c importance_threshold) as Hr.
    destruct c; try discriminate Hbad; exact Hr.
  - intros pre c post -> Hpre Hbad.
    apply filterM_first_raise; [apply Hok, Hpre |].
    pose proof (should_store_result c importance_threshold) as Hr.
    unfold Candidate2.unordered in Hbad. unfold Candidate2.comparable in Hr.
    destruct c as [| b | z | s | l | l | d]; try discriminate Hbad.
    cbn [is_dict] in Hr.
    destruct (Py.dict_get d (Py.KStr "importance") (Py.PInt 0));
      try discriminate Hbad; exact Hr.
Qed.

Lemma extract_memories_outcome_witness :
  let candidates :=
    [ Sample.candidate "likes tea" (Some 5);
      Py.PDict [(Py.KStr "content", Py.PStr "no score");
                (Py.KStr "importance", Py.PNone)];
      Py.PStr "not a candidate" ] in
  let services := Sample.client (fun _ => Raise OpenAIError) candidates [] in
  (forallb Candidate2.comparable candidates = true ->
   exists kept,
     MemoryExtractor.extract_memories services [] 5 = Ok kept
     /\ incl kept candidates
     /\ (List.length kept <= List.length candidates)%nat)
  /\ (forall pre c post,
        candidates = (pre ++ c :: post)%list ->
        forallb Candidate2.comparable pre = true ->
        is_dict c = false ->
        MemoryExtractor.extract_memories services [] 5 = Raise AttributeError)
  /\ (forall pre c post,
        candidates = (pre ++ c :: post)%list ->
        forallb Candidate2.comparable pre = true ->
        Candidate2.unordered c = true ->
        MemoryExtractor.extract_memories services [] 5 = Raise TypeError).
Proof.
  intros candidates services.
  apply (extract_memories_outcome services [] 5 candidates).
  reflexivity.
Defined.

(** On data: a [null] importance raises [TypeError]; it is met before
    the string that is no dictionary. *)
Example extract_memories_null_importance :
  MemoryExtractor.extract_memories
    (Sample.client (fun _ => Raise OpenAIError)
       [ Sample.candidate "likes tea" (Some 5);
         Py.PDict [(Py.KStr "content", Py.PStr "no score");
                   (Py.KStr "importance", Py.PNone)];
         Py.PStr "not a candidate" ] []) [] 5
  = Raise TypeError.
Proof. reflexivity. Qed.

(** ** One turn: what is stored and what is left alone *)

Lemma max_rowid_app (l : list Row.t) (r : Row.t) :
  MemoryStorage.max_rowid (l ++ [r])
  = Z.max (MemoryStorage.max_rowid l) (Z.max (Row.id r) 0)
  /\ 0 <= MemoryStorage.max_rowid l.
Proof.
  induction l as [| x t [IH1 IH2]]; simpl.
  - split; lia.
  - rewrite IH1. split; lia.
Qed.

Lemma next_id_after_add (now : Z) (c : string) (e : option Np.ndarray)
    (m : option Py.val) (d : MemoryStorage.db) :
  MemoryStorage.next_id (snd (MemoryStorage.add_memory now c e m d))
  = MemoryStorage.next_id d + 1.
Proof.
  unfold MemoryStorage.add_memory; cbn [snd].
  unfold MemoryStorage.next_id at 1; cbn [MemoryStorage.seq MemoryStorage.rows].
  destruct (max_rowid_app (MemoryStorage.rows d)
              {| Row.id := MemoryStorage.next_id d; Row.content := c;
                 Row.embedding := option_map Np.tobytes e;
                 Row.created_at := now; Row.updated_at := now;
                 Row.metadata := option_map Json.dumps m |}) as [-> Hpos].
  cbn [Row.id]. unfold MemoryStorage.next_id. lia.
Qed.

Lemma store_extracted_spec (c : OpenAIClient.t) (clock : nat -> Z)
    (memories : list Py.val) :
  forall (k : nat) (d d1 : MemoryStorage.db) (news : list MemorySystem.new_memory),
  MemorySystem.store_extracted c clock k memories d = Ok (news, d1) ->
  MemoryStorage.ids d1 = (MemoryStorage.ids d ++ map MemorySystem.id news)%list
  /\ map MemorySystem.id news
     = map (fun j => MemoryStorage.next_id d + Z.of_nat j)
           (seq 0 (List.length memories))
  /\ Forall2 (fun memory n =>
                Py.getitem memory "content" = Ok (Py.PStr (MemorySystem.content n))
                /\ exists importance category entities,
                     Py.get memory "importance" (Py.PInt 5) = Ok importance
                     /\ Py.get memory "category" (Py.PStr "general")
                        = Ok category
                     /\ Py.get memory "entities" (Py.PList []) = Ok entities
                     /\ MemorySystem.metadata n
                        = stored_metadata importance category entities)
             memories news.
Proof.
  induction memories as [| memory rest IH]; intros k d d1 news H.
  - injection H as <- <-. cbn [map seq List.length].
    rewrite app_nil_r. repeat split. constructor.
  - cbn [MemorySystem.store_extracted] in H.
    apply bind_ok in H. destruct H as [c0 [Hc0 H]].
    apply bind_ok in H. destruct H as [text [Htext H]].
    apply bind_ok in H. destruct H as [emb [_ H]].
    apply bind_ok in H. destruct H as [importance [Himp H]].
    apply bind_ok in H. destruct H as [category [Hcat H]].
    apply bind_ok in H. destruct H as [entities [Hent H]].
    pose proof (add_memory_ids (clock k) text (Some emb)
                  (Some (stored_metadata importance category entities)) d)
      as [Hids [_ Hi]].
    pose proof (next_id_after_add (clock k) text (Some emb)
                  (Some (stored_metadata importance category entities)) d)
      as Hnext.
    unfold stored_metadata in Hids, Hi, Hnext.
    destruct (MemoryStorage.add_memory (clock k) text (Some emb) _ d)
      as [memory_id d0].
    cbn [fst snd] in Hids, Hi, Hnext.
    apply bind_ok in H. destruct H as [[news' d2] [Hrest H]].
    cbn beta iota in H. injection H as <- <-.
    destruct (IH _ _ _ _ Hrest) as [Hids' [Hseq Hall]].
    cbn [map List.length seq].
    split; [| split].
    + rewrite Hids', Hids, Hi, <- app_assoc. reflexivity.
    + rewrite Hi. f_equal; [cbn; lia |].
      rewrite Hseq, Hnext, <- seq_shift, map_map.
      apply map_ext. intros j. lia.
    + constructor; [| exact Hall]. cbn [MemorySystem.content MemorySystem.metadata].
      split.
      * rewrite Hc0. destruct c0; try discriminate Htext.
        injection Htext as ->. reflexivity.
      * exists importance, category, entities.
        repeat split; assumption.
Qed.

Lemma process_conversation_steps (c : OpenAIClient.t) (clock : nat -> Z)
    (conversation : list Message.t) (extract check : bool)
    (d d' : MemoryStorage.db) (res : MemorySystem.processed) :
  MemorySystem.process_conversation c clock conversation extract check d
  = Ok (res, d') ->
  exists d1,
    MemorySystem.extraction_step c clock conversation extract d
    = Ok (MemorySystem.new_memories res, d1)
    /\ MemorySystem.deletion_step c conversation check d1
       = Ok (MemorySystem.deleted_memories res, d')
    /\ MemorySystem.relevance_step c conversation d'
       = Ok (MemorySystem.relevant_memories res).
Proof.
  unfold MemorySystem.process_conversation. intros H.
  apply bind_ok in H. destruct H as [[news d1] [H1 H]].
  apply bind_ok in H. destruct H as [[deleted d2] [H2 H]].
  apply bind_ok in H. destruct H as [relevant [H3 H]].
  injection H as <- <-. exists d1. repeat split; assumption.
Qed.

(** X16.  [process_conversation] touches the table only through the
    steps that are switched on.  With extraction off it reports no new
    memory and adds no row; with curation off it reports no deletion and
    removes no row; with both off the table is left as it was.  In every
    case the rows afterwards are rows from before or new memories of
    this call. *)
Theorem process_conversation_frame (openai_client : OpenAIClient.t)
    (clock : nat -> Z) (conversation : list Message.t)
    (extract_memories check_for_deletions : bool)
    (d d' : MemoryStorage.db) (res : MemorySystem.processed) :
  MemorySystem.process_conversation openai_client clock conversation
    extract_memories check_for_deletions d = Ok (res, d') ->
  (extract_memories = false ->
     MemorySystem.new_memories res = []
     /\ incl (MemoryStorage.ids d') (MemoryStorage.ids d))
  /\ (check_for_deletions = false ->
        MemorySystem.deleted_memories res = []
        /\ incl (MemoryStorage.ids d) (MemoryStorage.ids d'))
  /\ (extract_memories = false -> check_for_deletions = false -> d' = d)
  /\ incl (MemoryStorage.ids d')
          (MemoryStorage.ids d
           ++ map MemorySystem.id (MemorySystem.new_memories res)).
Proof.
  intros H. destruct (process_conversation_steps _ _ _ _ _ _ _ _ H)
    as [d1 [Hext [Hdel _]]].
  assert (Hadd : MemoryStorage.ids d1
                 = (MemoryStorage.ids d
                    ++ map MemorySystem.id (MemorySystem.new_memories res))%list
                 /\ (extract_memories = false ->
                     MemorySystem.new_memories res = [] /\ d1 = d)).
  { unfold MemorySystem.extraction_step in Hext.
    destruct extract_memories.
    - apply bind_ok in Hext. destruct Hext as [mems [_ Hext]].
      split; [apply (store_extracted_spec _ _ _ _ _ _ _ Hext) | discriminate].
    - injection Hext as <- <-. cbn [map]. rewrite app_nil_r.
      split; [reflexivity | intros _; split; reflexivity]. }
  assert (Hrem : incl (MemoryStorage.ids d') (MemoryStorage.ids d1)
                 /\ (check_for_deletions = false ->
                     MemorySystem.deleted_memories res = [] /\ d' = d1)).
  { destruct check_for_deletions.
    - destruct (deletion_step_spec _ _ _ _ _ Hdel) as [l Hl].
      split; [| discriminate].
      intros i Hi. apply (delete_each_ids _ _ _ _ i Hl) in Hi. apply Hi.
    - unfold MemorySystem.deletion_step in Hdel. injection Hdel as <- <-.
      split; [apply incl_refl | intros _; split; reflexivity]. }
  destruct Hadd as [Hids Hoff], Hrem as [Hincl Hoff'].
  split; [| split; [| split]].
  - intros E. destruct (Hoff E) as [Hn Hd]. split; [exact Hn |].
    rewrite <- Hd. exact Hincl.
  - intros E. destruct (Hoff' E) as [Hn Hd]. split; [exact Hn |].
    rewrite Hd, Hids. apply incl_appl, incl_refl.
  - intros E1 E2. destruct (Hoff E1) as [_ ->], (Hoff' E2) as [_ ->].
    reflexivity.
  - rewrite <- Hids. exact Hincl.
Qed.

Lemma process_conversation_frame_witness :
  (false = false ->
     MemorySystem.new_memories (fst Sample.outcome) = []
     /\ incl (MemoryStorage.ids (snd Sample.outcome))
             (MemoryStorage.ids Sample.two_memories))
  /\ (true = false ->
        MemorySystem.deleted_memories (fst Sample.outcome) = []
        /\ incl (MemoryStorage.ids Sample.two_memories)
                (MemoryStorage.ids (snd Sample.outcome)))
  /\ (false = false -> true = false ->
      snd Sample.outcome = Sample.two_memories)
  /\ incl (MemoryStorage.ids (snd Sample.outcome))
          (MemoryStorage.ids Sample.two_memories
           ++ map MemorySystem.id
                (MemorySystem.new_memories (fst Sample.outcome))).
Proof.
  apply (process_conversation_frame Sample.services (fun _ => 300) Sample.turn
           false true Sample.two_memories (snd Sample.outcome)
           (fst Sample.outcome)).
  vm_compute; reflexivity.
Defined.

(** ** One turn: the memories it stores *)

Lemma filterM_ok_true {A : Type} (f : A -> result bool) (l kept : list A) :
  filterM f l = Ok kept -> Forall (fun x => f x = Ok true) kept.
Proof.
  revert kept. induction l as [| x t IH]; simpl; intros kept H.
  - injection H as <-. constructor.
  - apply bind_ok in H. destruct H as [b [Hb H]].
    apply bind_ok in H. destruct H as [ys [Hys H]].
    injection H as <-. destruct b; [constructor; [exact Hb |] |]; apply IH, Hys.
Qed.

Lemma should_store_kept (memory : Py.val) :
  MemoryExtractor.should_store_memory memory 5 = Ok true ->
  exists importance,
    Py.getitem memory "importance" = Ok importance
    /\ Py.ge_int importance 5 = Ok true
    /\ forall default, Py.get memory "importance" default = Ok importance.
Proof.
  unfold MemoryExtractor.should_store_memory, Py.get, Py.getitem.
  destruct memory as [| b | z | s | l | l | d]; try discriminate.
  cbn [bind]. rewrite dict_get_getitem.
  destruct (Py.dict_getitem d (Py.KStr "importance")) as [v | x] eqn:E.
  - intros H. exists v. split; [reflexivity | split; [exact H |]].
    intros default. rewrite dict_get_getitem, E. reflexivity.
  - discriminate.
Qed.

Lemma Forall2_Forall_l {A B : Type} (P : A -> Prop) (R Q : A -> B -> Prop)
    (l : list A) (l' : list B) :
  (forall a b, P a -> R a b -> Q a b) ->
  Forall P l -> Forall2 R l l' -> Forall2 Q l l'.
Proof.
  intros HPQ HP H. induction H as [| a b t t' Hab _ IH]; constructor.
  - apply HPQ; [apply (Forall_inv HP) | exact Hab].
  - apply IH, (Forall_inv_tail HP).
Qed.

(** X17.  With extraction on, a call of [process_conversation] that
    returns has stored one memory for each candidate the extractor kept,
    in the extractor's order and under consecutive ids that start at the
    next free rowid.  Each carries the candidate's content, category and
    entities (or [general] and the empty list) and the candidate's own
    importance, which is at least 5: the default of 5 for a missing
    importance is never used. *)
Theorem new_memories_recorded (openai_client : OpenAIClient.t)
    (clock : nat -> Z) (conversation : list Message.t)
    (check_for_deletions : bool) (d d' : MemoryStorage.db)
    (res : MemorySystem.processed) :
  MemorySystem.process_conversation openai_client clock conversation
    true check_for_deletions d = Ok (res, d') ->
  exists kept,
    MemoryExtractor.extract_memories openai_client conversation 5 = Ok kept
    /\ map MemorySystem.id (MemorySystem.new_memories res)
       = map (fun j => MemoryStorage.next_id d + Z.of_nat j)
             (seq 0 (List.length kept))
    /\ Forall2
         (fun memory n =>
            Py.getitem memory "content" = Ok (Py.PStr (MemorySystem.content n))
            /\ exists importance category entities,
                 Py.getitem memory "importance" = Ok importance
                 /\ Py.ge_int importance 5 = Ok true
                 /\ Py.get memory "category" (Py.PStr "general") = Ok category
                 /\ Py.get memory "entities" (Py.PList []) = Ok entities
                 /\ MemorySystem.metadata n
                    = stored_metadata importance category entities)
         kept (MemorySystem.new_memories res).
Proof.
  intros H. destruct (process_conversation_steps _ _ _ _ _ _ _ _ H)
    as [d1 [Hext _]].
  unfold MemorySystem.extraction_step in Hext.
  apply bind_ok in Hext. destruct Hext as [kept [Hkept Hstore]].
  exists kept. split; [exact Hkept |].
  destruct (store_extracted_spec _ _ _ _ _ _ _ Hstore) as [_ [Hids Hall]].
  split; [exact Hids |].
  unfold MemoryExtractor.extract_memories in Hkept.
  apply bind_ok in Hkept. destruct Hkept as [candidates [_ Hkept]].
  apply filterM_ok_true in Hkept.
  eapply Forall2_Forall_l; [| exact Hkept | exact Hall].
  intros memory n Hm [Hc [importance [category [entities [Hi [Hcat [Hent Hmeta]]]]]]].
  cbn beta in Hm.
  split; [exact Hc |].
  destruct (should_store_kept memory Hm) as [v [Hv [Hge Hdef]]].
  rewrite Hdef in Hi. injection Hi as <-.
  exists v, category, entities. repeat split; assumption.
Qed.

Lemma new_memories_recorded_witness :
  exists kept,
    MemoryExtractor.extract_memories proposing assistant_turn 5 = Ok kept
    /\ map MemorySystem.id (MemorySystem.new_memories (fst extraction_outcome))
       = map (fun j => MemoryStorage.next_id MemoryStorage.empty + Z.of_nat j)
             (seq 0 (List.length kept))
    /\ Forall2
         (fun memory n =>
            Py.getitem memory "content" = Ok (Py.PStr (MemorySystem.content n))
            /\ exists importance category entities,
                 Py.getitem memory "importance" = Ok importance
                 /\ Py.ge_int importance 5 = Ok true
                 /\ Py.get memory "category" (Py.PStr "general") = Ok category
                 /\ Py.get memory "entities" (Py.PList []) = Ok entities
                 /\ MemorySystem.metadata n
                    = stored_metadata importance category entities)
         kept (MemorySystem.new_memories (fst extraction_outcome)).
Proof.
  apply (new_memories_recorded proposing (fun _ => 300) assistant_turn false
           MemoryStorage.empty (snd extraction_outcome)
           (fst extraction_outcome)).
  vm_compute; reflexivity.
Defined.

(** ** One turn: the query of the lookup *)

Lemma find_none_forallb {A : Type} (f : A -> bool) (l : list A) :
  forallb (fun x => negb (f x)) l = true -> find f l = None.
Proof.
  induction l as [| x t IH]; simpl; [reflexivity |].
  destruct (f x); simpl; [discriminate | exact IH].
Qed.

Lemma forallb_rev {A : Type} (f : A -> bool) (l : list A) :
  forallb f (rev l) = forallb f l.
Proof.
  induction l as [| x t IH]; simpl; [reflexivity |].
  rewrite forallb_app, IH. simpl. rewrite andb_true_r. apply andb_comm.
Qed.

Lemma last_user_message_found (before after : list Message.t)
    (message : Message.t) :
  is_user message = true ->
  forallb (fun x => negb (is_user x)) after = true ->
  MemorySystem.last_user_message (before ++ message :: after)%list
  = Some (Message.content message).
Proof.
  intros Hm Hafter. unfold MemorySystem.last_user_message.
  rewrite rev_app_distr. cbn [rev]. rewrite <- app_assoc.
  rewrite find_app_skip.
  - cbn [app find]. unfold is_user in Hm. rewrite Hm. reflexivity.
  - intros x Hx. rewrite <- forallb_rev in Hafter.
    rewrite forallb_forall in Hafter. apply Hafter in Hx.
    apply negb_true_iff in Hx. exact Hx.
Qed.

Lemma last_user_message_none (conversation : list Message.t) :
  forallb (fun x => negb (is_user x)) conversation = true ->
  MemorySystem.last_user_message conversation = None.
Proof.
  intros H. unfold MemorySystem.last_user_message.
  rewrite (find_none_forallb is_user); [reflexivity |].
  rewrite forallb_rev. exact H.
Qed.

(** X18.  With extraction and curation off, [process_conversation] is the
    lookup of [get_relevant_memories] with limit 5 for the content of the
    last message whose role is exactly [user], whatever comes before it
    and after it; the table is left as it was.  When that content is
    empty, or no message has the role [user], nothing is looked up and
    the relevant memories are the empty list: an earlier user message is
    not used instead. *)
Theorem process_conversation_lookup (openai_client : OpenAIClient.t)
    (clock : nat -> Z) (conversation : list Message.t)
    (d : MemoryStorage.db) :
  (forall before message after,
     conversation = (before ++ message :: after)%list ->
     is_user message = true ->
     forallb (fun x => negb (is_user x)) after = true ->
     MemorySystem.process_conversation openai_client clock conversation
       false false d
     = (relevant <-
          (if String.eqb (Message.content message) "" then Ok []
           else MemorySystem.get_relevant_memories openai_client
                  (Message.content message) 5 d) ;;
        Ok ({| MemorySystem.new_memories := [];
               MemorySystem.deleted_memories := [];
               MemorySystem.relevant_memories := relevant |}, d)))
  /\ (forallb (fun x => negb (is_user x)) conversation = true ->
      MemorySystem.process_conversation openai_client clock conversation
        false false d
      = Ok ({| MemorySystem.new_memories := [];
               MemorySystem.deleted_memories := [];
               MemorySystem.relevant_memories := [] |}, d)).
Proof.
  unfold MemorySystem.process_conversation, MemorySystem.extraction_step,
    MemorySystem.deletion_step.
  cbn [bind]. split.
  - intros before message after -> Hm Hafter.
    unfold MemorySystem.relevance_step.
    rewrite (last_user_message_found before after message Hm Hafter).
    destruct before; cbn [app];
      (destruct (String.eqb (Message.content message) "");
       [reflexivity | unfold MemorySystem.get_relevant_memories; reflexivity]).
  - intros H. unfold MemorySystem.relevance_step.
    rewrite (last_user_message_none conversation H).
    destruct conversation; reflexivity.
Qed.

(** ** The memories as context *)

Lemma split_not_nil (c : ascii) (s : string) : Str.split c s <> [].
Proof.
  destruct s as [| x t]; simpl; [discriminate |].
  destruct (Ascii.eqb x c); [discriminate |].
  destruct (Str.split c t); discriminate.
Qed.

Lemma split_no_sep (c : ascii) (s : string) :
  Str.contains c s = false -> Str.split c s = [s].
Proof.
  induction s as [| x t IH]; simpl; intros H; [reflexivity |].
  apply orb_false_elim in H. destruct H as [Hx Ht].
  rewrite Hx, (IH Ht). reflexivity.
Qed.

Lemma split_app_sep (c : ascii) (a b : string) :
  Str.split c (a ++ String c b) = (Str.split c a ++ Str.split c b)%list.
Proof.
  induction a as [| x t IH]; cbn [append Str.split].
  - rewrite Ascii.eqb_refl. reflexivity.
  - rewrite IH. destruct (Ascii.eqb x c); [reflexivity |].
    pose proof (split_not_nil c t) as Hn.
    destruct (Str.split c t) as [| h r]; [contradiction | reflexivity].
Qed.

Lemma split_join (c : ascii) (items : list string) :
  items <> [] ->
  Str.split c (Str.join (String c "") items)
  = List.concat (map (Str.split c) items).
Proof.
  induction items as [| x t IH]; intros Hn; [contradiction |].
  destruct t as [| y t'].
  - cbn [Str.join map List.concat]. rewrite app_nil_r. reflexivity.
  - change (Str.join (String c "") (x :: y :: t'))
      with (x ++ String c (Str.join (String c "") (y :: t'))).
    rewrite split_app_sep, IH by discriminate. reflexivity.
Qed.

Lemma concat_map_singleton {A B : Type} (f : A -> list B) (g : A -> B)
    (l : list A) :
  Forall (fun x => f x = [g x]) l -> List.concat (map f l) = map g l.
Proof.
  induction 1 as [| x t Hx _ IH]; simpl; [reflexivity |].
  rewrite Hx, IH. reflexivity.
Qed.

(** X19.  [format_memories_for_context] gives the fixed sentence for an
    empty list.  Otherwise the lines of its text are the header and then
    the lines of each memory's entry, in order; when no content has a
    line feed that is the header and one line per memory, a dash, a
    space and the content.  A content with a line feed takes several
    lines, the later ones without the dash. *)
Theorem format_memories_lines (memories : list Memory.t) :
  (memories = [] ->
   MemoryRetrieverContext.format_memories_for_context memories
   = "No relevant memories found.")
  /\ (memories <> [] ->
      lines (MemoryRetrieverContext.format_memories_for_context memories)
      = "Relevant memories:"
        :: List.concat (map (fun memory => lines ("- " ++ Memory.content memory))
                       memories))
  /\ (memories <> [] ->
      forallb (fun memory => one_line (Memory.content memory)) memories = true ->
      lines (MemoryRetrieverContext.format_memories_for_context memories)
      = "Relevant memories:"
        :: map (fun memory => "- " ++ Memory.content memory) memories).
Proof.
  assert (Hlines : memories <> [] ->
            lines (MemoryRetrieverContext.format_memories_for_context memories)
            = "Relevant memories:"
              :: List.concat (map (fun memory => lines ("- " ++ Memory.content memory))
                             memories)).
  { intros Hn. destruct memories as [| m t]; [contradiction |].
    unfold MemoryRetrieverContext.format_memories_for_context, lines.
    change ("Relevant memories:" ++ Str.newline
            ++ Str.join Str.newline
                 (map (fun memory => "- " ++ Memory.content memory) (m :: t)))
      with ("Relevant memories:"
            ++ String line_feed
                 (Str.join (String line_feed "")
                    (map (fun memory => "- " ++ Memory.content memory) (m :: t)))).
    rewrite split_app_sep, split_join by discriminate.
    rewrite map_map. reflexivity. }
  split; [intros ->; reflexivity | split; [exact Hlines |]].
  intros Hn Hone. rewrite (Hlines Hn). f_equal.
  apply concat_map_singleton. rewrite Forall_forall. intros m Hm.
  rewrite forallb_forall in Hone. specialize (Hone m Hm).
  unfold one_line in Hone. apply negb_true_iff in Hone.
  unfold lines. apply split_no_sep. cbn [append Str.contains].
  rewrite Hone. reflexivity.
Qed.

(** ** A chat turn *)

(** X20.  When [chat_with_memory] returns, its response is the
    completion's answer to the caller's conversation preceded by one
    system message that carries the memories it reports as relevant.
    Those are rows of the table as the call leaves it and none of them
    was deleted in the call; the ids reported as deleted are without
    repetition and no longer in the table; and the table holds only rows
    it held before or memories reported as new. *)
Theorem chat_with_memory_consistent (openai_client : OpenAIClient.t)
    (chat_completion : list Message.t -> string -> float -> Z -> result string)
    (clock : nat -> Z) (conversation : list Message.t) (model : string)
    (temperature : float) (max_tokens : Z) (d d' : MemoryStorage.db)
    (c : MemorySystemChat.chat) :
  MemorySystemChat.chat_with_memory openai_client chat_completion clock
    conversation model temperature max_tokens d = Ok (c, d') ->
  chat_completion
    (MemorySystemChat.system_message (MemorySystemChat.relevant_memories c)
     :: conversation) model temperature max_tokens
  = Ok (MemorySystemChat.response c)
  /\ (forall m, In m (MemorySystemChat.relevant_memories c) ->
        In (Memory.id m) (MemoryStorage.ids d')
        /\ ~ In (Memory.id m) (MemorySystemChat.deleted_memories c))
  /\ NoDup (MemorySystemChat.deleted_memories c)
  /\ (forall i, In i (MemorySystemChat.deleted_memories c) ->
        ~ In i (MemoryStorage.ids d'))
  /\ incl (MemoryStorage.ids d')
          (MemoryStorage.ids d
           ++ map MemorySystem.id (MemorySystemChat.new_memories c)).
Proof.
  unfold MemorySystemChat.chat_with_memory. intros H.
  apply bind_ok in H. destruct H as [[res d1] [Hp H]].
  cbn beta iota zeta in H.
  apply bind_ok in H. destruct H as [answer [Hanswer H]].
  injection H as <- <-.
  cbn [MemorySystemChat.response MemorySystemChat.relevant_memories
       MemorySystemChat.new_memories MemorySystemChat.deleted_memories].
  destruct (process_conversation_steps _ _ _ _ _ _ _ _ Hp)
    as [d0 [Hext [Hdel Hrel]]].
  destruct (deletion_step_spec _ _ _ _ _ Hdel) as [l Hl].
  assert (Hgone : forall i, In i (MemorySystem.deleted_memories res) ->
                    ~ In i (MemoryStorage.ids d1)).
  { intros i Hi Hin.
    apply (delete_each_deleted _ _ _ _ i Hl) in Hi.
    apply (delete_each_ids _ _ _ _ i Hl) in Hin.
    destruct Hi as [Hi _], Hin as [_ Hin]. exact (Hin Hi). }
  split; [exact Hanswer | split; [| split; [| split]]].
  - intros m Hm. pose proof (relevance_step_ids _ _ _ _ Hrel m Hm) as Hin.
    split; [exact Hin |]. intros Hdeleted. exact (Hgone _ Hdeleted Hin).
  - apply (delete_each_NoDup _ _ _ _ Hl).
  - exact Hgone.
  - unfold MemorySystem.extraction_step in Hext.
    apply bind_ok in Hext. destruct Hext as [kept [_ Hstore]].
    destruct (store_extracted_spec _ _ _ _ _ _ _ Hstore) as [Hids _].
    rewrite <- Hids. intros i Hi.
    apply (delete_each_ids _ _ _ _ i Hl) in Hi. apply Hi.
Qed.

Lemma chat_with_memory_consistent_witness :
  answering "Noted."
    (MemorySystemChat.system_message
       (MemorySystemChat.relevant_memories (fst chat_outcome))
     :: Sample.turn) "gpt-4" 0x1.6666666666666p-1%float 1000
  = Ok (MemorySystemChat.response (fst chat_outcome))
  /\ (forall m, In m (MemorySystemChat.relevant_memories (fst chat_outcome)) ->
        In (Memory.id m) (MemoryStorage.ids (snd chat_outcome))
        /\ ~ In (Memory.id m)
               (MemorySystemChat.deleted_memories (fst chat_outcome)))
  /\ NoDup (MemorySystemChat.deleted_memories (fst chat_outcome))
  /\ (forall i, In i (MemorySystemChat.deleted_memories (fst chat_outcome)) ->
        ~ In i (MemoryStorage.ids (snd chat_outcome)))
  /\ incl (MemoryStorage.ids (snd chat_outcome))
          (MemoryStorage.ids Sample.two_memories
           ++ map MemorySystem.id
                (MemorySystemChat.new_memories (fst chat_outcome))).
Proof.
  apply (chat_with_memory_consistent Sample.services (answering "Noted.")
           (fun _ => 300) Sample.turn "gpt-4" 0x1.6666666666666p-1%float 1000
           Sample.two_memories (snd chat_outcome) (fst chat_outcome)).
  vm_compute; reflexivity.
Defined.

(** ** Reading the completion *)

Lemma find_absent (c : ascii) (s : string) :
  Str.contains c s = false -> Str.find c s = -1.
Proof.
  induction s as [| x t IH]; cbn [Str.contains Str.find]; intros H.
  - reflexivity.
  - apply orb_false_elim in H. destruct H as [Hx Ht].
    rewrite Hx, (IH Ht). reflexivity.
Qed.

Lemma find_first (c : ascii) (pre rest : string) :
  Str.contains c pre = false ->
  Str.find c (pre ++ String c rest) = Z.of_nat (String.length pre).
Proof.
  induction pre as [| x t IH]; cbn [Str.contains Str.find append String.length];
    intros H.
  - rewrite Ascii.eqb_refl. reflexivity.
  - apply orb_false_elim in H. destruct H as [Hx Ht].
    rewrite Hx, (IH Ht), Nat2Z.inj_succ.
    destruct (Z.of_nat (String.length t) =? -1) eqn:E; [| lia].
    apply Z.eqb_eq in E. lia.
Qed.

Lemma rfind_absent (c : ascii) (s : string) :
  Str.contains c s = false -> Str.rfind c s = -1.
Proof.
  induction s as [| x t IH]; cbn [Str.contains Str.rfind]; intros H.
  - reflexivity.
  - apply orb_false_elim in H. destruct H as [Hx Ht].
    rewrite Hx, (IH Ht). reflexivity.
Qed.

Lemma rfind_last (c : ascii) (s post : string) :
  Str.contains c post = false ->
  Str.rfind c (s ++ String c post) = Z.of_nat (String.length s).
Proof.
  intros H. induction s as [| x t IH]; cbn [Str.rfind append String.length].
  - rewrite (rfind_absent c post H), Ascii.eqb_refl. reflexivity.
  - rewrite IH, Nat2Z.inj_succ.
    destruct (Z.of_nat (String.length t) =? -1) eqn:E; [| lia].
    apply Z.eqb_eq in E. lia.
Qed.

Lemma string_length_app (a b : string) :
  String.length (a ++ b) = (String.length a + String.length b)%nat.
Proof.
  induction a as [| x t IH]; simpl; [reflexivity | rewrite IH; reflexivity].
Qed.

Lemma string_app_assoc (a b c : string) : (a ++ b) ++ c = a ++ b ++ c.
Proof.
  induction a as [| x t IH]; simpl; [reflexivity | rewrite IH; reflexivity].
Qed.

Lemma drop_app (a b : string) : Str.drop (String.length a) (a ++ b) = b.
Proof.
  induction a as [| x t IH]; simpl; [destruct b; reflexivity | exact IH].
Qed.

Lemma take_app (a b : string) : Str.take (String.length a) (a ++ b) = a.
Proof.
  induction a as [| x t IH]; simpl.
  - destruct b; reflexivity.
  - rewrite IH. reflexivity.
Qed.

Lemma slice_middle (pre mid post : string) :
  Str.slice (pre ++ mid ++ post) (Z.of_nat (String.length pre))
    (Z.of_nat (String.length pre) + Z.of_nat (String.length mid))
  = mid.
Proof.
  unfold Str.slice, Str.clamp. rewrite !string_length_app, !Nat2Z.inj_add.
  destruct (Z.ltb_spec (Z.of_nat (String.length pre)) 0) as [Hneg |_]; [lia |].
  destruct (Z.ltb_spec (Z.of_nat (String.length pre)
                        + Z.of_nat (String.length mid)) 0) as [Hneg |_]; [lia |].
  rewrite !Z.min_l by lia.
  replace (Z.of_nat (String.length pre) + Z.of_nat (String.length mid)
           - Z.of_nat (String.length pre)) with (Z.of_nat (String.length mid))
    by lia.
  rewrite !Nat2Z.id, drop_app, take_app. reflexivity.
Qed.

Lemma slice_to_zero (s : string) (start : Z) :
  0 <= start -> Str.slice s start 0 = "".
Proof.
  intros H. unfold Str.slice, Str.clamp.
  destruct (Z.ltb_spec start 0) as [Hneg |_]; [lia |].
  cbn [Z.ltb Z.compare].
  replace (Z.to_nat (Z.min 0 (Z.of_nat (String.length s))
                     - Z.min start (Z.of_nat (String.length s)))) with 0%nat
    by lia.
  destruct (Str.drop _ s); reflexivity.
Qed.

Lemma find_present (c : ascii) (s : string) :
  Str.contains c s = true -> 0 <= Str.find c s.
Proof.
  induction s as [| x t IH]; cbn [Str.contains Str.find]; [discriminate |].
  destruct (Ascii.eqb x c); cbn [orb]; intros H; [lia |].
  specialize (IH H).
  destruct (Str.find c t =? -1) eqn:E; [apply Z.eqb_eq in E; lia | lia].
Qed.

(** X21.  How [extract_memories] and [identify_memories_to_delete] of the
    client read the completion, for any JSON parser.  A text that does
    not parse and has no opening bracket gives the empty list.  A text
    that does not parse and has brackets is cut from its first opening
    bracket through its last closing one, and that piece decides: its
    value if it parses, the empty list if not.  With an opening bracket
    but no closing one the piece is the empty text: the test on the end
    index never fails. *)
Theorem read_json_array_brackets (json_loads : string -> option Py.val) :
  (forall content,
     json_loads content = None ->
     Str.contains "[" content = false ->
     read_json_array json_loads content = Py.PList [])
  /\ (forall pre body post,
        json_loads (pre ++ "[" ++ body ++ "]" ++ post) = None ->
        Str.contains "[" pre = false ->
        Str.contains "]" post = false ->
        read_json_array json_loads (pre ++ "[" ++ body ++ "]" ++ post)
        = match json_loads ("[" ++ body ++ "]") with
          | Some memories => memories
          | None => Py.PList []
          end)
  /\ (forall content,
        json_loads content = None ->
        Str.contains "[" content = true ->
        Str.contains "]" content = false ->
        read_json_array json_loads content
        = match json_loads "" with
          | Some memories => memories
          | None => Py.PList []
          end).
Proof.
  split; [| split].
  - intros content Hfail Hno. unfold read_json_array.
    rewrite Hfail, (find_absent _ _ Hno). reflexivity.
  - intros pre body post Hfail Hpre Hpost. unfold read_json_array.
    rewrite Hfail.
    change (pre ++ "[" ++ body ++ "]" ++ post)
      with (pre ++ String "[" (body ++ String "]" post)).
    rewrite (find_first _ pre _ Hpre).
    replace (pre ++ String "[" (body ++ String "]" post))
      with ((pre ++ String "[" body) ++ String "]" post)
      by (rewrite string_app_assoc; reflexivity).
    rewrite (rfind_last _ _ post Hpost).
    replace ((pre ++ String "[" body) ++ String "]" post)
      with (pre ++ ("[" ++ body ++ "]") ++ post)
      by (rewrite !string_app_assoc; reflexivity).
    rewrite string_length_app. cbn [String.length].
    replace (Z.of_nat (String.length pre + S (String.length body)) + 1)
      with (Z.of_nat (String.length pre)
            + Z.of_nat (String.length ("[" ++ body ++ "]"))).
    + rewrite slice_middle.
      destruct (Z.of_nat (String.length pre) =? -1) eqn:E1;
        [apply Z.eqb_eq in E1; lia |].
      destruct (Z.of_nat (String.length pre)
                + Z.of_nat (String.length ("[" ++ body ++ "]")) =? -1) eqn:E2;
        [apply Z.eqb_eq in E2; lia |].
      reflexivity.
    + cbn [append String.length]. rewrite string_length_app.
      cbn [String.length]. lia.
  - intros content Hfail Hopen Hclose. unfold read_json_array.
    rewrite Hfail, (rfind_absent _ _ Hclose).
    pose proof (find_present _ _ Hopen) as Hpos.
    destruct (Str.find "[" content =? -1) eqn:E;
      [apply Z.eqb_eq in E; lia |].
    cbn [negb andb Z.add Z.eqb Z.pos_sub Z.opp].
    change (-1 + 1) with 0. cbn [Z.eqb negb].
    rewrite (slice_to_zero _ _ Hpos). reflexivity.
Qed.

(** ** Metadata: what is read back *)

Section DocInduction.

Variable P : Json.doc -> Prop.
Hypothesis P_null : P Json.JNull.
Hypothesis P_bool : forall b, P (Json.JBool b).
Hypothesis P_number : forall z, P (Json.JNumber z).
Hypothesis P_string : forall s, P (Json.JString s).
Hypothesis P_array : forall l, Forall P l -> P (Json.JArray l).
Hypothesis P_object :
  forall ms, Forall (fun kv => P (snd kv)) ms -> P (Json.JObject ms).

Lemma doc_induction : forall j, P j.
Proof.
  fix IH 1. intros [| b | z | s | l | ms].
  - exact P_null.
  - apply P_bool.
  - apply P_number.
  - apply P_string.
  - apply P_array. induction l as [| x t IHt]; constructor; [apply IH | exact IHt].
  - apply P_object. induction ms as [| [k x] t IHt]; constructor;
      [simpl; apply IH | exact IHt].
Qed.

End DocInduction.

Lemma dict_set_other_key (a k : Py.key) (v : Py.val)
    (d : list (Py.key * Py.val)) :
  Py.key_eqb a k = false ->
  existsb (Py.key_eqb a) (map fst (Py.dict_set d k v))
  = existsb (Py.key_eqb a) (map fst d).
Proof.
  intros Ha. induction d as [| [k1 v1] t IH]; cbn [Py.dict_set map fst existsb].
  - rewrite Ha. reflexivity.
  - destruct (Py.key_eqb k1 k); cbn [map fst existsb];
      [reflexivity | rewrite IH; reflexivity].
Qed.

Lemma dict_set_native (d : list (Py.key * Py.val)) (k : string) (v : Py.val) :
  Json.native (Py.PDict d) = true ->
  Json.native v = true ->
  Json.native (Py.PDict (Py.dict_set d (Py.KStr k) v)) = true.
Proof.
  intros Hd Hv. induction d as [| [k1 v1] t IH].
  - cbn. rewrite Hv. reflexivity.
  - cbn [Json.native map fst forallb Json.distinct_keys snd] in Hd.
    apply andb_prop in Hd. destruct Hd as [Hd Hvals].
    apply andb_prop in Hd. destruct Hd as [Hstr Hdist].
    apply andb_prop in Hstr. destruct Hstr as [Hk1 Hstr].
    apply andb_prop in Hdist. destruct Hdist as [Hfresh Hdist].
    apply andb_prop in Hvals. destruct Hvals as [Hv1 Hvals].
    assert (Ht : Json.native (Py.PDict t) = true).
    { cbn [Json.native]. rewrite Hstr, Hdist, Hvals. reflexivity. }
    specialize (IH Ht). cbn [Json.native] in IH.
    apply andb_prop in IH. destruct IH as [IH IHvals].
    apply andb_prop in IH. destruct IH as [IHstr IHdist].
    cbn [Py.dict_set]. destruct (Py.key_eqb k1 (Py.KStr k)) eqn:E.
    + cbn [Json.native map fst forallb Json.distinct_keys snd].
      rewrite Hk1, Hstr, Hfresh, Hdist, Hv, Hvals. reflexivity.
    + cbn [Json.native map fst forallb Json.distinct_keys snd].
      rewrite (dict_set_other_key _ _ _ _ E).
      rewrite Hk1, IHstr, Hfresh, IHdist, Hv1, IHvals. reflexivity.
Qed.

Lemma loads_members_native (ms : list (string * Json.doc))
    (acc : list (Py.key * Py.val)) :
  Forall (fun kv => Json.native (Json.loads (snd kv)) = true) ms ->
  Json.native (Py.PDict acc) = true ->
  Json.native
    (Py.PDict
       (fold_left
          (fun d kv => Py.dict_set d (Py.KStr (fst kv)) (Json.loads (snd kv)))
          ms acc)) = true.
Proof.
  intros H. revert acc. induction H as [| [k j] t Hj _ IH]; intros acc Hacc.
  - exact Hacc.
  - cbn [fold_left fst snd]. apply IH. apply dict_set_native; assumption.
Qed.

Lemma loads_native (j : Json.doc) : Json.native (Json.loads j) = true.
Proof.
  induction j as [| b | z | s | l IH | ms IH] using doc_induction;
    try reflexivity.
  - cbn [Json.loads Json.native]. rewrite forallb_forall. intros v Hv.
    apply in_map_iff in Hv. destruct Hv as [x [<- Hx]].
    rewrite Forall_forall in IH. apply IH, Hx.
  - cbn [Json.loads]. apply loads_members_native; [exact IH | reflexivity].
Qed.

(** X22.  The metadata [get_memory] returns is always a value JSON has a
    form for: dictionaries keyed by distinct strings, lists and no
    tuples.  Handing it back to [update_memory] changes nothing but the
    update time: the memory then reads with the same metadata, content,
    embedding and creation time. *)
Theorem metadata_read_back_stable (memory_id now : Z) (d : MemoryStorage.db)
    (m : Memory.t) (v : Py.val) :
  MemoryStorage.get_memory memory_id d = Ok (Some m) ->
  Memory.metadata m = Some v ->
  Json.native v = true
  /\ exists m',
       MemoryStorage.get_memory memory_id
         (snd (MemoryStorage.update_memory now memory_id None None (Some v) d))
       = Ok (Some m')
       /\ Memory.metadata m' = Some v
       /\ Memory.content m' = Memory.content m
       /\ Memory.embedding m' = Memory.embedding m
       /\ Memory.created_at m' = Memory.created_at m
       /\ Memory.updated_at m' = now.
Proof.
  intros Hget Hmeta.
  destruct (get_memory_row _ _ _ Hget) as [r [Hfind Hrow]].
  unfold MemoryStorage.memory_of_row in Hrow.
  apply bind_ok in Hrow. destruct Hrow as [e [He Hm]].
  injection Hm as <-. cbn [Memory.metadata] in Hmeta.
  destruct (Row.metadata r) as [j |] eqn:Hj; [| discriminate].
  injection Hmeta as <-.
  split; [apply loads_native |].
  unfold MemoryStorage.update_memory. rewrite Hfind.
  cbn [MemoryStorage.is_none andb snd].
  unfold MemoryStorage.get_memory. cbn [MemoryStorage.rows].
  rewrite find_map_same_id
    by (intros x; destruct (Row.id x =? memory_id); reflexivity).
  rewrite Hfind. cbn [option_map].
  pose proof (find_some _ _ Hfind) as [_ Hid]. cbn beta in Hid. rewrite Hid.
  unfold MemoryStorage.memory_of_row.
  cbn [MemoryStorage.set_content MemoryStorage.set_embedding
       MemoryStorage.set_metadata MemoryStorage.set_updated_at
       Row.id Row.content Row.embedding Row.created_at Row.updated_at
       Row.metadata].
  rewrite He. cbn [bind option_map].
  eexists. split; [reflexivity |].
  cbn [Memory.metadata Memory.content Memory.embedding Memory.created_at
       Memory.updated_at].
  rewrite (loads_dumps _ (loads_native j)). repeat split.
Qed.

Lemma metadata_read_back_stable_witness :
  Json.native (Py.PDict [(Py.KStr "importance", Py.PInt 8)]) = true
  /\ exists m',
       MemoryStorage.get_memory 1
         (snd (MemoryStorage.update_memory 300 1 None None
                 (Some (Py.PDict [(Py.KStr "importance", Py.PInt 8)]))
                 Sample.two_memories))
       = Ok (Some m')
       /\ Memory.metadata m'
          = Some (Py.PDict [(Py.KStr "importance", Py.PInt 8)])
       /\ Memory.content m' = "I use Shram and Magnet as productivity tools"
       /\ Memory.embedding m'
          = Some (Np.of_bits Np.float32 [0x3f800000; 0])
       /\ Memory.created_at m' = 100
       /\ Memory.updated_at m' = 300.
Proof.
  apply (metadata_read_back_stable 1 300 Sample.two_memories
           {| Memory.id := 1;
              Memory.content := "I use Shram and Magnet as productivity tools";
              Memory.embedding := Some (Np.of_bits Np.float32 [0x3f800000; 0]);
              Memory.similarity := None;
              Memory.created_at := 100; Memory.updated_at := 100;
              Memory.metadata :=
                Some (Py.PDict [(Py.KStr "importance", Py.PInt 8)]) |}
           (Py.PDict [(Py.KStr "importance", Py.PInt 8)])).
  - vm_compute; reflexivity.
  - reflexivity.
Defined.

(** ** The listing after a change *)

Section SortCommutes.

Context {A : Type}.
Variable before : A -> A -> bool.
Hypothesis not_before_trans :
  forall a b c,
    before b a = false -> before c b = false -> before c a = false.
Hypothesis before_asym :
  forall a b, before a b = true -> before b a = false.

Variable p : A -> bool.

Lemma insert_filter_out (x : A) (l : list A) :
  p x = false -> filter p (insert before x l) = filter p l.
Proof.
  intros Hx. induction l as [| y t IH]; simpl.
  - rewrite Hx. reflexivity.
  - destruct (before y x); simpl.
    + rewrite IH. reflexivity.
    + rewrite Hx. reflexivity.
Qed.

Lemma insert_front (x : A) (l : list A) :
  Forall (fun z => before z x = false) l -> insert before x l = x :: l.
Proof.
  intros H. destruct H as [| z t Hz _]; simpl; [reflexivity |].
  rewrite Hz. reflexivity.
Qed.

Lemma insert_filter_in (x : A) (l : list A) :
  StronglySorted (not_after before) l ->
  p x = true ->
  filter p (insert before x l) = insert before x (filter p l).
Proof.
  intros Hs Hx. induction Hs as [| y t Hs IH Hy]; simpl.
  - rewrite Hx. reflexivity.
  - destruct (before y x) eqn:Hyx.
    + simpl. rewrite IH. destruct (p y); [| reflexivity].
      simpl. rewrite Hyx. reflexivity.
    + replace (filter p (x :: y :: t)) with (x :: filter p (y :: t))
        by (cbn [filter]; rewrite Hx; reflexivity).
      symmetry. apply insert_front.
      assert (Hall : Forall (fun z => before z x = false) (y :: t)).
      { constructor; [exact Hyx |].
        rewrite Forall_forall in Hy |- *. intros z Hz.
        apply (not_before_trans x y z Hyx). apply Hy, Hz. }
      rewrite Forall_forall in Hall |- *. intros z Hz.
      apply filter_In in Hz. apply Hall, Hz.
Qed.

Lemma stable_sort_filter_comm (l : list A) :
  stable_sort before (filter p l) = filter p (stable_sort before l).
Proof.
  induction l as [| x t IH]; [reflexivity |].
  cbn [stable_sort filter]. destruct (p x) eqn:Hx.
  - cbn [stable_sort]. rewrite IH. symmetry. apply insert_filter_in; [| exact Hx].
    apply (stable_sort_sorted before (fun _ => True)).
    + intros a b _ _. apply before_asym.
    + intros a b c _ _ _. apply not_before_trans.
    + rewrite Forall_forall. trivial.
  - rewrite IH. symmetry. apply insert_filter_out, Hx.
Qed.

End SortCommutes.

Lemma insert_map {A : Type} (before : A -> A -> bool) (g : A -> A)
    (x : A) (l : list A) :
  (forall a b, before (g a) (g b) = before a b) ->
  insert before (g x) (map g l) = map g (insert before x l).
Proof.
  intros Hg. induction l as [| y t IH]; simpl; [reflexivity |].
  rewrite Hg. destruct (before y x); simpl; [rewrite IH |]; reflexivity.
Qed.

Lemma stable_sort_map {A : Type} (before : A -> A -> bool) (g : A -> A)
    (l : list A) :
  (forall a b, before (g a) (g b) = before a b) ->
  stable_sort before (map g l) = map g (stable_sort before l).
Proof.
  intros Hg. induction l as [| x t IH]; simpl; [reflexivity |].
  rewrite IH. apply insert_map, Hg.
Qed.

Lemma mapM_filter {A B : Type} (f : A -> result B) (p : A -> bool)
    (q : B -> bool) (l : list A) (l' : list B) :
  (forall x y, f x = Ok y -> q y = p x) ->
  mapM f l = Ok l' -> mapM f (filter p l) = Ok (filter q l').
Proof.
  intros Hpq H. apply mapM_ok_Forall2 in H.
  induction H as [| x y t t' Hxy _ IH]; [reflexivity |].
  cbn [filter]. rewrite (Hpq _ _ Hxy). destruct (p x).
  - cbn [mapM]. rewrite Hxy; cbn [bind]. rewrite IH; reflexivity.
  - exact IH.
Qed.

Lemma memory_of_row_blob (r : Row.t) (m : Memory.t) :
  MemoryStorage.memory_of_row r = Ok m -> blob_ok r.
Proof.
  unfold blob_ok, MemoryStorage.memory_of_row, Np.frombuffer.
  destruct (Row.embedding r) as [b |]; [| trivial].
  cbn [Np.itemsize].
  destruct (List.length b mod 4 =? 0)%nat eqn:E; [| discriminate].
  intros _. apply Nat.eqb_eq, E.
Qed.

(** X23.  What a change does to the listing of [get_all_memories], when
    the listing could be read before.  After [delete_memory] it is the
    old listing without the entries of that id, the others in the order
    they had.  After [update_memory] it has the same ids and creation
    times in the same order: an update never moves a memory, since the
    listing goes by [created_at] and not by [updated_at]. *)
Theorem listing_after_change (d : MemoryStorage.db) (all : list Memory.t) :
  MemoryStorage.get_all_memories d = Ok all ->
  (forall memory_id,
     MemoryStorage.get_all_memories
       (snd (MemoryStorage.delete_memory memory_id d))
     = Ok (filter (fun m => negb (Memory.id m =? memory_id)) all))
  /\ (forall now memory_id content embedding metadata,
        WellFormed.array embedding = true ->
        exists all',
          MemoryStorage.get_all_memories
            (snd (MemoryStorage.update_memory now memory_id content embedding
                    metadata d))
          = Ok all'
          /\ map Memory.id all' = map Memory.id all
          /\ map Memory.created_at all' = map Memory.created_at all).
Proof.
  intros Hall. split.
  - intros memory_id.
    unfold MemoryStorage.get_all_memories, MemoryStorage.delete_memory.
    cbn [snd MemoryStorage.rows].
    unfold MemoryStorage.order_by_created_at_desc.
    rewrite stable_sort_filter_comm.
    + apply mapM_filter; [| exact Hall].
      intros r m Hm. destruct (memory_of_row_fields _ _ Hm) as [-> _].
      reflexivity.
    + intros a b c. rewrite !Z.ltb_ge. lia.
    + intros a b. rewrite Z.ltb_lt, Z.ltb_ge. lia.
  - intros now memory_id content embedding metadata Hwf.
    set (g := fun r : Row.t =>
                if Row.id r =? memory_id
                then MemoryStorage.set_updated_at now
                       (MemoryStorage.set_metadata metadata
                          (MemoryStorage.set_embedding embedding
                             (MemoryStorage.set_content content r)))
                else r).
    assert (Hid : forall r, Row.id (g r) = Row.id r).
    { intros r. unfold g. destruct (Row.id r =? memory_id); [| reflexivity].
      destruct content, embedding, metadata; reflexivity. }
    assert (Hcr : forall r, Row.created_at (g r) = Row.created_at r).
    { intros r. unfold g. destruct (Row.id r =? memory_id); [| reflexivity].
      destruct content, embedding, metadata; reflexivity. }
    assert (Hblob : forall r, blob_ok r -> blob_ok (g r)).
    { intros r Hr. unfold g. destruct (Row.id r =? memory_id); [| exact Hr].
      unfold blob_ok in *.
      destruct content, embedding as [a |], metadata;
        cbn [MemoryStorage.set_updated_at MemoryStorage.set_metadata
             MemoryStorage.set_embedding MemoryStorage.set_content
             Row.embedding];
        try exact Hr; apply well_formed_mod4, Hwf. }
    assert (Hsame :
      exists all',
        MemoryStorage.get_all_memories d = Ok all'
        /\ map Memory.id all' = map Memory.id all
        /\ map Memory.created_at all' = map Memory.created_at all)
      by (exists all; repeat split; exact Hall).
    unfold MemoryStorage.update_memory.
    destruct (find _ _) as [r0 |]; [| exact Hsame].
    destruct (_ && _); [exact Hsame |].
    cbn [snd]. unfold MemoryStorage.get_all_memories in *.
    cbn [MemoryStorage.rows].
    fold g. unfold MemoryStorage.order_by_created_at_desc in *.
    rewrite stable_sort_map by (intros a b; rewrite !Hcr; reflexivity).
    set (sorted := stable_sort
                     (fun a b => Row.created_at b <? Row.created_at a)
                     (MemoryStorage.rows d)) in *.
    assert (Hok : Forall (fun r => exists m, MemoryStorage.memory_of_row r = Ok m)
                    (map g sorted)).
    { rewrite Forall_forall. intros r' Hr'. apply in_map_iff in Hr'.
      destruct Hr' as [r [<- Hr]].
      destruct (mapM_In _ _ _ r Hall Hr) as [m [Hm _]].
      apply memory_of_row_ok, Hblob, (memory_of_row_blob r m Hm). }
    destruct (mapM_ok_Forall _ _ Hok) as [all' [Hall' _]].
    exists all'. split; [exact Hall' |].
    split.
    + rewrite (mapM_map_eq _ Row.id Memory.id _ _
                 (fun r m H => proj1 (memory_of_row_fields r m H)) Hall').
      rewrite (mapM_map_eq _ Row.id Memory.id _ _
                 (fun r m H => proj1 (memory_of_row_fields r m H)) Hall).
      rewrite map_map. apply map_ext, Hid.
    + rewrite (mapM_map_eq _ Row.created_at Memory.created_at _ _
                 (fun r m H =>
                    proj1 (proj2 (proj2 (memory_of_row_fields r m H)))) Hall').
      rewrite (mapM_map_eq _ Row.created_at Memory.created_at _ _
                 (fun r m H =>
                    proj1 (proj2 (proj2 (memory_of_row_fields r m H)))) Hall).
      rewrite map_map. apply map_ext, Hcr.
Qed.

Lemma listing_after_change_witness :
  (forall memory_id,
     MemoryStorage.get_all_memories
       (snd (MemoryStorage.delete_memory memory_id Sample.two_memories))
     = Ok (filter (fun m => negb (Memory.id m =? memory_id)) Sample.listing))
  /\ (forall now memory_id content embedding metadata,
        WellFormed.array embedding = true ->
        exists all',
          MemoryStorage.get_all_memories
            (snd (MemoryStorage.update_memory now memory_id content embedding
                    metadata Sample.two_memories))
          = Ok all'
          /\ map Memory.id all' = map Memory.id Sample.listing
          /\ map Memory.created_at all' = map Memory.created_at Sample.listing).
Proof.
  apply (listing_after_change Sample.two_memories Sample.listing).
  vm_compute; reflexivity.
Defined.

(** ** A turn that stores a memory *)

Lemma get_all_memories_result (d : MemoryStorage.db) :
  (exists all, MemoryStorage.get_all_memories d = Ok all)
  \/ MemoryStorage.get_all_memories d = Raise ValueError.
Proof.
  unfold MemoryStorage.get_all_memories. apply mapM_ok_or_raise.
  rewrite Forall_forall. intros x _. apply memory_of_row_result.
Qed.

Lemma lookup_raises (c : OpenAIClient.t) (query : string) (limit : Z)
    (d : MemoryStorage.db) (q : Np.ndarray) (r : Row.t) (b : list byte) :
  OpenAIClient.get_embedding c query = Ok q ->
  In r (MemoryStorage.rows d) ->
  Row.embedding r = Some b ->
  (List.length b / 4)%nat <> Np.size q ->
  MemorySystem.get_relevant_memories c query limit d = Raise ValueError.
Proof.
  intros Hq Hr Hemb Hsize. unfold MemorySystem.get_relevant_memories.
  destruct (get_all_memories_result d) as [[all Hall] | Hall];
    [| rewrite Hall; reflexivity].
  rewrite Hall; cbn [bind].
  unfold MemoryRetriever.retrieve_relevant_memories. rewrite Hq; cbn [bind].
  rewrite (mapM_raise (MemoryRetriever.annotate q) ValueError all);
    [reflexivity | |].
  - rewrite Forall_forall. intros m _.
    pose proof (annotate_result q m) as Hres.
    destruct (Memory.embedding m) as [e |].
    + destruct (Np.size q =? Np.size e)%nat; [left | right; exact Hres].
      destruct Hres as [s Hs]. eexists; exact Hs.
    + left; eexists; exact Hres.
  - apply Exists_exists.
    assert (Hin : In r (MemoryStorage.order_by_created_at_desc
                          (MemoryStorage.rows d))).
    { exact (Permutation_in _ (Permutation_sym (stable_sort_perm _ _)) Hr). }
    unfold MemoryStorage.get_all_memories in Hall.
    destruct (mapM_In _ _ _ r Hall Hin) as [m [Hm Hmin]].
    exists m. split; [exact Hmin |].
    unfold MemoryStorage.memory_of_row in Hm. rewrite Hemb in Hm.
    unfold Np.frombuffer in Hm.
    destruct (List.length b mod Np.itemsize Np.float32 =? 0)%nat;
      [| discriminate Hm].
    cbn [bind] in Hm. injection Hm as <-.
    pose proof (annotate_result q
      {| Memory.id := Row.id r; Memory.content := Row.content r;
         Memory.embedding := Some {| Np.dt := Np.float32; Np.data := b |};
         Memory.similarity := None;
         Memory.created_at := Row.created_at r;
         Memory.updated_at := Row.updated_at r;
         Memory.metadata := option_map Json.loads (Row.metadata r) |}) as Hres.
    cbn [Memory.embedding] in Hres.
    change (Np.size {| Np.dt := Np.float32; Np.data := b |})
      with (List.length b / 4)%nat in Hres.
    replace (Np.size q =? List.length b / 4)%nat with false in Hres;
      [exact Hres |].
    symmetry; apply Nat.eqb_neq; congruence.
Qed.

Lemma store_extracted_float64 (c : OpenAIClient.t) (clock : nat -> Z)
    (n : nat) (memories : list Py.val) :
  (forall text, exists a,
     OpenAIClient.get_embedding c text = Ok a
     /\ Np.is_float32 a = false /\ Np.well_formed a = true /\ Np.size a = n) ->
  Forall (fun memory => exists s,
            Py.getitem memory "content" = Ok (Py.PStr s)) memories ->
  forall (k : nat) (d : MemoryStorage.db),
  exists news d1,
    MemorySystem.store_extracted c clock k memories d = Ok (news, d1)
    /\ incl (MemoryStorage.rows d) (MemoryStorage.rows d1)
    /\ (memories <> [] ->
        exists r a,
          In r (MemoryStorage.rows d1)
          /\ Row.embedding r = Some (Np.tobytes a)
          /\ Np.is_float32 a = false /\ Np.well_formed a = true
          /\ Np.size a = n).
Proof.
  intros Hsvc Hall. induction Hall as [| memory rest [s Hs] _ IH]; intros k d.
  - exists [], d. split; [reflexivity | split; [apply incl_refl |]].
    intros H; contradiction.
  - destruct memory as [| b | z | t | l | l | dd]; try discriminate Hs.
    cbn [MemorySystem.store_extracted]. rewrite Hs.
    cbn [bind MemorySystem.text_of].
    destruct (Hsvc s) as [a [Ha [Hdt [Hwf Hn]]]]. rewrite Ha.
    cbn [bind Py.get].
    match goal with
    | |- context [MemoryStorage.add_memory ?t ?x ?e ?m d] =>
        set (added := MemoryStorage.add_memory t x e m d)
    end.
    assert (Hrows : exists r,
              MemoryStorage.rows (snd added) = (MemoryStorage.rows d ++ [r])%list
              /\ Row.embedding r = Some (Np.tobytes a)).
    { eexists. split; reflexivity. }
    destruct Hrows as [r [Hrows Hemb]].
    destruct added as [memory_id d0]. cbn [snd] in Hrows.
    destruct (IH (S k) d0) as [news [d1 [Hrest [Hincl _]]]].
    rewrite Hrest. cbn [bind].
    eexists. exists d1. split; [reflexivity |].
    assert (Hin : In r (MemoryStorage.rows d1)).
    { apply Hincl. rewrite Hrows. apply in_or_app. right. left. reflexivity. }
    split.
    + intros x Hx. apply Hincl. rewrite Hrows. apply in_or_app. left. exact Hx.
    + intros _. exists r, a. repeat split; assumption.
Qed.

(** X24.  The embedding service builds [float64] vectors and the store
    reads embeddings back as [float32], twice as long.  So a turn in
    which [process_conversation] stores at least one memory and then
    looks up the last user message fails: when the extractor keeps a
    candidate, the candidates' contents are strings, the curation asks
    for no deletion and the last user message is not empty, the call
    raises [ValueError]. *)
Theorem stored_memory_breaks_turn (openai_client : OpenAIClient.t)
    (clock : nat -> Z) (conversation : list Message.t)
    (check_for_deletions : bool) (d : MemoryStorage.db) (n : nat)
    (kept : list Py.val) (before after : list Message.t)
    (message : Message.t) :
  (forall text, exists a,
     OpenAIClient.get_embedding openai_client text = Ok a
     /\ Np.is_float32 a = false /\ Np.well_formed a = true /\ Np.size a = n) ->
  (0 < n)%nat ->
  MemoryExtractor.extract_memories openai_client conversation 5 = Ok kept ->
  kept <> [] ->
  Forall (fun memory => exists s,
            Py.getitem memory "content" = Ok (Py.PStr s)) kept ->
  (forall all,
     OpenAIClient.identify_memories_to_delete openai_client conversation all
     = Ok []) ->
  conversation = (before ++ message :: after)%list ->
  is_user message = true ->
  forallb (fun x => negb (is_user x)) after = true ->
  Message.content message <> "" ->
  MemorySystem.process_conversation openai_client clock conversation true
    check_for_deletions d = Raise ValueError.
Proof.
  intros Hsvc Hn Hkept Hne Hcontents Hnone Hconv Huser Hafter Htext.
  unfold MemorySystem.process_conversation, MemorySystem.extraction_step.
  rewrite Hkept; cbn [bind].
  destruct (store_extracted_float64 _ clock n kept Hsvc Hcontents 0%nat d)
    as [news [d1 [Hstore [_ Hrow]]]].
  rewrite Hstore; cbn [bind].
  destruct (Hrow Hne) as [r [a [Hr [Hemb [Hdt [Hwf Hsize]]]]]].
  assert (Hlookup : MemorySystem.relevance_step openai_client conversation d1
                    = Raise ValueError).
  { unfold MemorySystem.relevance_step. rewrite Hconv.
    rewrite (last_user_message_found before after message Huser Hafter).
    apply String.eqb_neq in Htext. rewrite Htext.
    destruct (Hsvc (Message.content message)) as [q [Hq [_ [_ Hqn]]]].
    pose proof (lookup_raises openai_client (Message.content message) 5 d1 q r
                  (Np.tobytes a) Hq Hr Hemb) as Hraise.
    unfold MemorySystem.get_relevant_memories in Hraise.
    destruct before; cbn [app]; apply Hraise;
      rewrite (float64_read_as_float32 a Hdt Hwf); lia. }
  unfold MemorySystem.deletion_step. destruct check_for_deletions.
  - destruct (get_all_memories_result d1) as [[all Hall] | Hall];
      rewrite Hall; cbn [bind]; [| reflexivity].
    rewrite Hnone; cbn [bind]. rewrite Hlookup. reflexivity.
  - cbn [bind]. rewrite Hlookup. reflexivity.
Qed.

Lemma stored_memory_breaks_turn_witness :
  MemorySystem.process_conversation proposing (fun _ => 300) Sample.turn true
    true MemoryStorage.empty = Raise ValueError.
Proof.
  apply (stored_memory_breaks_turn proposing (fun _ => 300) Sample.turn true
           MemoryStorage.empty 2 [Sample.candidate "likes tea" (Some 5)]
           [] []
           {| Message.role := "user";
              Message.content := "I don't use Magnet anymore" |}).
  - intros text. exists Sample.query_vector. repeat split; reflexivity.
  - lia.
  - vm_compute; reflexivity.
  - discriminate.
  - constructor; [| constructor]. exists "likes tea". reflexivity.
  - intros all. reflexivity.
  - reflexivity.
  - reflexivity.
  - reflexivity.
  - discriminate.
Defined.

(** ** The store: when a read returns *)


